(** * khoj-search: the in-memory table store and the blob index built on it

    A shallow embedding of [BigtableService] (the table store) and of
    [BlobIndexService] (the secondary index layer), followed by the
    properties stated for them.

    Conventions of the embedding.
    - JavaScript values are the inductive type [Js.JsValue].  A number is
      an integer ([VNum]) or, when it is none, NaN, an infinity or a
      fraction with a power of two below the line ([VFloat]); the numbers
      of JavaScript are the doubles among them ([Js.is_double]).  Texts
      are turned into numbers, and numbers into texts, with the rounding
      and the digits of the language.  The two zeros are one.  Strings
      are sequences of 8-bit code units ([string]); the claims only use
      ASCII text.
    - A JS [Map] and a JS object are insertion-ordered association lists
      with at most one binding per key ([OMap]); for an object the list
      holds its own properties, and the prototype is not part of the
      model.  The special position that JS gives to integer-like property
      names is not modelled: no property compared here by position has
      such a name.
    - A method that reads or writes [this.tables], reads the clock or
      throws is a computation of the monad [M]: it takes a [World] and
      returns an outcome (a thrown error or a value) together with the
      world at that point, so that what a failing call leaves behind is
      part of the model. *)

From Stdlib Require Import ZArith List String Ascii Bool Lia.
From Stdlib Require Import DecimalString.
From Stdlib Require DecimalFacts DecimalPos.

Set Warnings "-register-all".

Import ListNotations.

Local Open Scope string_scope.
Local Open Scope list_scope.
Local Open Scope Z_scope.

Notation "a +s+ b" := (String.append a b) (at level 60, right associativity).

(* ------------------------------------------------------------------ *)
(** ** Insertion-ordered maps keyed by strings (JS [Map], JS objects) *)
(* ------------------------------------------------------------------ *)

Module OMap.

Definition t (V : Type) : Type := list (string * V).

Definition empty {V} : t V := [].

(** [m.get(k)] / [o[k]]: the binding of [k], if any. *)
Fixpoint get {V} (k : string) (m : t V) : option V :=
  match m with
  | [] => None
  | (k', v) :: r => if String.eqb k k' then Some v else get k r
  end.

(** [m.has(k)]. *)
Definition has {V} (k : string) (m : t V) : bool :=
  match get k m with Some _ => true | None => false end.

(** [m.set(k, v)], and [o[k] = v] for a name that is an ordinary
    property: an existing key keeps its position and takes the new value,
    a new key goes to the end. *)
Fixpoint set {V} (k : string) (v : V) (m : t V) : t V :=
  match m with
  | [] => [(k, v)]
  | (k', v') :: r =>
      if String.eqb k k' then (k', v) :: r else (k', v') :: set k v r
  end.

(** [o[k] = v] for any name, on an object made by [{}].  A map holds the
    own properties of the object.  The name [__proto__] is not one of
    them: it is the accessor that [Object.prototype] hands down, the
    assignment goes to its setter, and no property is made. *)
Definition assign_key {V} (k : string) (v : V) (m : t V) : t V :=
  if String.eqb k "__proto__" then m else set k v m.

(** [m.delete(k)]: the map without [k], and whether [k] was there. *)
Fixpoint delete {V} (k : string) (m : t V) : t V :=
  match m with
  | [] => []
  | (k', v') :: r =>
      if String.eqb k k' then r else (k', v') :: delete k r
  end.

Definition keys {V} (m : t V) : list string := map fst m.
Definition values {V} (m : t V) : list V := map snd m.

(** [m.size] / [Object.keys(o).length]. *)
Definition size {V} (m : t V) : Z := Z.of_nat (List.length m).

(** [{...a, ...b}] and repeated assignment: the bindings of [b] written
    into [a] one after the other. *)
Definition assign {V} (a b : t V) : t V :=
  fold_left (fun acc kv => set (fst kv) (snd kv) acc) b a.

(** At most one binding per key. *)
Definition wf {V} (m : t V) : Prop := NoDup (keys m).

End OMap.

(* ------------------------------------------------------------------ *)
(** ** JavaScript values and the built-ins the two services use *)
(* ------------------------------------------------------------------ *)

Module Js.

(** A number that is not an integer: NaN, an infinity, or the fraction
    [m / 2^e] with [m] odd.  The doubles among them are the values of
    JavaScript. *)
Inductive Float : Type :=
| FNaN
| FInf (negative : bool)
| FFrac (m : Z) (e : positive).

Inductive JsValue : Type :=
| VUndef
| VNull
| VBool (b : bool)
| VNum (z : Z)
| VStr (s : string)
| VArr (l : list JsValue)
| VObj (l : list (string * JsValue))
| VFloat (x : Float).

Definition obj : Type := OMap.t JsValue.

(** [typeof v === "object"]: null, arrays and objects. *)
Definition typeof_object (v : JsValue) : bool :=
  match v with
  | VNull | VArr _ | VObj _ => true
  | _ => false
  end.

Definition typeof_string (v : JsValue) : bool :=
  match v with VStr _ => true | _ => false end.

Definition isArray (v : JsValue) : bool :=
  match v with VArr _ => true | _ => false end.

(** Truthiness ([ToBoolean]). *)
Definition truthy (v : JsValue) : bool :=
  match v with
  | VUndef | VNull => false
  | VBool b => b
  | VNum z => negb (z =? 0)
  | VStr s => negb (String.eqb s "")
  | VArr _ | VObj _ => true
  | VFloat FNaN => false
  | VFloat _ => true
  end.

(** [a || b] on values. *)
Definition or_else (a b : JsValue) : JsValue := if truthy a then a else b.

(** *** Numbers *)

(** The outcome of a numeric conversion: an integer or another number. *)
Inductive Num : Type :=
| NInt (z : Z)
| NFloat (x : Float).

Definition value_of (n : Num) : JsValue :=
  match n with
  | NInt z => VNum z
  | NFloat x => VFloat x
  end.

Definition negate (n : Num) : Num :=
  match n with
  | NInt z => NInt (- z)
  | NFloat FNaN => NFloat FNaN
  | NFloat (FInf s) => NFloat (FInf (negb s))
  | NFloat (FFrac m e) => NFloat (FFrac (- m) e)
  end.

Definition signed (negative : bool) (n : Num) : Num :=
  if negative then negate n else n.

Definition Float_eqb (x y : Float) : bool :=
  match x, y with
  | FNaN, FNaN => true
  | FInf a, FInf b => Bool.eqb a b
  | FFrac m1 e1, FFrac m2 e2 => (m1 =? m2) && Pos.eqb e1 e2
  | _, _ => false
  end.

Definition Num_eqb (a b : Num) : bool :=
  match a, b with
  | NInt x, NInt y => x =? y
  | NFloat x, NFloat y => Float_eqb x y
  | _, _ => false
  end.

(** The integers up to [2^53] in absolute value are doubles. *)
Definition two53 : Z := 9007199254740992.

(** How many times two divides a positive number. *)
Fixpoint twos (p : positive) : Z :=
  match p with
  | xO q => 1 + twos q
  | _ => 0
  end.

(** The number [m * 2^e] for [0 <= m]: an integer when it is one,
    infinite from [2^1024] on. *)
Definition dyadic (m e : Z) : Num :=
  match m with
  | Z.pos p =>
      if 0 <=? e then
        if 2 ^ 1024 <=? m * 2 ^ e then NFloat (FInf false)
        else NInt (m * 2 ^ e)
      else
        let t := Z.min (twos p) (- e) in
        if e + t =? 0 then NInt (m / 2 ^ t)
        else NFloat (FFrac (m / 2 ^ t) (Z.to_pos (- (e + t))))
  | _ => NInt 0
  end.

(** The double nearest to [n / d], for [0 <= n] and [0 < d]: the quotient
    is cut to 53 bits, or to the bits above [2^-1074] when these are
    fewer, and rounded to nearest, a tie going to the even significand. *)
Definition round_ratio (n d : Z) : Num :=
  if n <=? 0 then NInt 0
  else
    let s := Z.max 0 (Z.log2 d - Z.log2 n + 56) in
    let q := (n * 2 ^ s) / d in
    let sticky := negb ((n * 2 ^ s) mod d =? 0) in
    let shift := Z.max (Z.log2 q + 1 - 53) (s - 1074) in
    let half := 2 ^ (shift - 1) in
    let m0 := q / 2 ^ shift in
    let r := q mod 2 ^ shift in
    let up := (half <? r) || ((r =? half) && (sticky || Z.odd m0)) in
    dyadic (if up then m0 + 1 else m0) (shift - s).

(** The double nearest to the integer [n], for [0 <= n]. *)
Definition round_int (n : Z) : Num :=
  if n <=? two53 then NInt n else round_ratio n 1.

(** The double nearest to [digits * 10^exponent], for [0 <= digits]. *)
Definition decimal (digits exponent : Z) : Num :=
  if digits <=? 0 then NInt 0
  else if 400 <? exponent then NFloat (FInf false)
  else if exponent <? -400 - Z.log2 digits then NInt 0
  else if 0 <=? exponent then round_int (digits * 10 ^ exponent)
  else round_ratio digits (10 ^ (- exponent)).

(** The order of two numbers; none when one of them is NaN. *)
Definition num_compare (a b : Num) : option comparison :=
  match a, b with
  | NFloat FNaN, _ | _, NFloat FNaN => None
  | NFloat (FInf s1), NFloat (FInf s2) =>
      Some (if Bool.eqb s1 s2 then Eq else if s1 then Lt else Gt)
  | NFloat (FInf s), _ => Some (if s then Lt else Gt)
  | _, NFloat (FInf s) => Some (if s then Gt else Lt)
  | NInt x, NInt y => Some (x ?= y)
  | NInt x, NFloat (FFrac m e) => Some (x * 2 ^ Z.pos e ?= m)
  | NFloat (FFrac m e), NInt y => Some (m ?= y * 2 ^ Z.pos e)
  | NFloat (FFrac m1 e1), NFloat (FFrac m2 e2) =>
      Some (m1 * 2 ^ Z.pos e2 ?= m2 * 2 ^ Z.pos e1)
  end.

(** *** Number to text *)

(** Decimal text of an integer, digit by digit. *)
Definition string_of_Z (z : Z) : string :=
  NilZero.string_of_int (Z.to_int z).

(** [z] without its trailing zeros, and how many there were. *)
Fixpoint strip_zeros (fuel : nat) (z k : Z) : Z * Z :=
  match fuel with
  | O => (z, k)
  | S f =>
      if (z mod 10 =? 0) && negb (z =? 0)
      then strip_zeros f (z / 10) (k + 1) else (z, k)
  end.

(** The digits [s] and the exponent [p] of [s * 10^p], with the trailing
    zeros of [s] moved into the exponent. *)
Definition normal_digits (s p : Z) : Z * Z :=
  let '(s', t) := strip_zeros (Z.to_nat (Z.log2 s)) s 0 in (s', p + t).

(** The decimal expansion of the absolute value of a number: digits and
    exponent.  A fraction [m / 2^e] is [m * 5^e / 10^e]. *)
Definition exact_digits (x : Num) : Z * Z :=
  match x with
  | NInt z => normal_digits (Z.abs z) 0
  | NFloat (FFrac m e) =>
      normal_digits (Z.abs m * 5 ^ Z.pos e) (- Z.pos e)
  | NFloat _ => (0, 0)
  end.

Definition magnitude (x : Num) : Num :=
  match x with
  | NInt z => NInt (Z.abs z)
  | NFloat (FFrac m e) => NFloat (FFrac (Z.abs m) e)
  | NFloat (FInf _) => NFloat (FInf false)
  | NFloat FNaN => x
  end.

(** The number is a double, one of the numbers of JavaScript: it is NaN
    or infinite, or the decimal expansion of its absolute value reads
    back as that value. *)
Definition is_double (x : Num) : bool :=
  match x with
  | NFloat FNaN | NFloat (FInf _) => true
  | _ => let '(s, p) := exact_digits x in Num_eqb (decimal s p) (magnitude x)
  end.

(** The number of decimal digits of a positive integer. *)
Fixpoint count_digits (fuel : nat) (z pw k : Z) : Z :=
  match fuel with
  | O => k
  | S f => if z <? pw then k else count_digits f z (pw * 10) (k + 1)
  end.

Definition ndigits (z : Z) : Z :=
  count_digits (S (Z.to_nat (Z.log2 z))) z 10 1.

(** The position [n] of the decimal point of [a / d], for [0 < a] and
    [0 < d]: [10^(n-1) <= a / d < 10^n]. *)
Fixpoint point_below (fuel : nat) (a d : Z) (n : Z) : Z :=
  match fuel with
  | O => n
  | S f => if d <=? a then n else point_below f (a * 10) d (n - 1)
  end.

Definition point (a d : Z) : Z :=
  if d <=? a then ndigits (a / d)
  else point_below (S (Z.to_nat (Z.log2 d))) (a * 10) d 0.

(** The shortest digits of the double [target], whose value is [a / d]:
    for [k] from 1 to 17, the integer [s] for which [s * 10^(n-k)] is
    nearest to [a / d] (the even one of two), and the one on the other
    side of [a / d], are tried; the first that reads back as [target] is
    taken.  No double needs more than 17 digits; what is left for a
    number that is none is its decimal expansion. *)
Fixpoint shortest_from (fuel : nat) (a d : Z) (target : Num)
    (n k : Z) : Z * Z :=
  match fuel with
  | O => exact_digits target
  | S f =>
      let p := n - k in
      let tn := if 0 <=? p then a else a * 10 ^ (- p) in
      let td := if 0 <=? p then d * 10 ^ p else d in
      let s1 := tn / td in
      let r := tn mod td in
      let reads (s : Z) : bool :=
        let '(s', p') := normal_digits s p in
        Num_eqb (decimal s' p') target in
      let above := (td <? 2 * r) || ((2 * r =? td) && Z.odd s1) in
      let c1 := if above then s1 + 1 else s1 in
      let c2 := if above then s1 else s1 + 1 in
      if reads c1 then normal_digits c1 p
      else if reads c2 then normal_digits c2 p
      else shortest_from f a d target n (k + 1)
  end.

(** The shortest digits of a positive double. *)
Definition shortest (target : Num) : Z * Z :=
  let '(a, d) :=
    match target with
    | NInt z => (z, 1)
    | NFloat (FFrac m e) => (m, 2 ^ Z.pos e)
    | NFloat _ => (0, 1)
    end in
  shortest_from 17 a d target (point a d) 1.

Fixpoint zeros (n : nat) : string :=
  match n with
  | O => ""
  | S k => String "0" (zeros k)
  end.

(** [s.substring(0, n)] and [s.substring(n)]. *)
Fixpoint substring_to (n : nat) (s : string) : string :=
  match n, s with
  | S n', String c r => String c (substring_to n' r)
  | _, _ => EmptyString
  end.

Fixpoint substring_from (n : nat) (s : string) : string :=
  match n, s with
  | O, _ => s
  | S n', String _ r => substring_from n' r
  | S _, EmptyString => EmptyString
  end.

(** [Number::toString] of the positive number with the digits [s] and
    the exponent [p]: with [k] digits and the decimal point after the
    [n]-th, the digits stand alone or with zeros up to [n = 21], with a
    point inside them, after [0.] and up to five zeros, or else with an
    exponent. *)
Definition format_digits (s p : Z) : string :=
  let ds := string_of_Z s in
  let k := Z.of_nat (String.length ds) in
  let n := p + k in
  if (k <=? n) && (n <=? 21) then ds +s+ zeros (Z.to_nat (n - k))
  else if (0 <? n) && (n <=? 21) then
    substring_to (Z.to_nat n) ds +s+ "." +s+ substring_from (Z.to_nat n) ds
  else if (-6 <? n) && (n <=? 0) then
    "0." +s+ zeros (Z.to_nat (- n)) +s+ ds
  else
    let e := n - 1 in
    let et := (if e <? 0 then "-" else "+") +s+ string_of_Z (Z.abs e) in
    if k =? 1 then ds +s+ "e" +s+ et
    else substring_to 1 ds +s+ "." +s+ substring_from 1 ds +s+ "e" +s+ et.

(** [String(x)] for a number: an integer up to [2^53] has all its
    digits, any other number its shortest digits. *)
Definition string_of_Num (x : Num) : string :=
  match x with
  | NInt z =>
      if Z.abs z <=? two53 then string_of_Z z
      else
        let '(s, p) := shortest (magnitude x) in
        (if z <? 0 then "-" else "") +s+ format_digits s p
  | NFloat FNaN => "NaN"
  | NFloat (FInf false) => "Infinity"
  | NFloat (FInf true) => "-Infinity"
  | NFloat (FFrac m e) =>
      let '(s, p) := shortest (magnitude x) in
      (if m <? 0 then "-" else "") +s+ format_digits s p
  end.

Fixpoint join (sep : string) (l : list string) : string :=
  match l with
  | [] => ""
  | [s] => s
  | s :: r => s +s+ sep +s+ join sep r
  end.

(** [ToString]; inside [Array.prototype.join], null and undefined
    elements print as the empty string. *)
Fixpoint ToString (v : JsValue) : string :=
  match v with
  | VUndef => "undefined"
  | VNull => "null"
  | VBool true => "true"
  | VBool false => "false"
  | VNum z => string_of_Num (NInt z)
  | VStr s => s
  | VArr l =>
      join "," (map (fun x => match x with
                              | VUndef | VNull => ""
                              | _ => ToString x
                              end) l)
  | VObj _ => "[object Object]"
  | VFloat x => string_of_Num (NFloat x)
  end.

(** [arr.join(sep)]. *)
Definition array_join (sep : string) (l : list JsValue) : string :=
  join sep (map (fun x => match x with
                          | VUndef | VNull => ""
                          | _ => ToString x
                          end) l).

(** *** Text to number *)

Definition is_ws (c : ascii) : bool :=
  match c with
  | " "%char | "009"%char | "010"%char | "011"%char | "012"%char
  | "013"%char | "160"%char => true
  | _ => false
  end.

Definition digit_of (c : ascii) : option Z :=
  let n := Z.of_N (N_of_ascii c) in
  if (48 <=? n) && (n <=? 57) then Some (n - 48) else None.

Definition hex_val (c : ascii) : option Z :=
  let n := Z.of_N (N_of_ascii c) in
  if (48 <=? n) && (n <=? 57) then Some (n - 48)
  else if (97 <=? n) && (n <=? 102) then Some (n - 87)
  else if (65 <=? n) && (n <=? 70) then Some (n - 55)
  else None.

Fixpoint skip_ws (s : string) : string :=
  match s with
  | String c r => if is_ws c then skip_ws r else s
  | EmptyString => s
  end.

(** Leading decimal digits of [s] read into [acc]; the count of digits
    read, the number and the rest of the text. *)
Fixpoint read_digits (s : string) (acc : Z) (n : nat) : nat * Z * string :=
  match s with
  | String c r =>
      match digit_of c with
      | Some d => read_digits r (acc * 10 + d) (S n)
      | None => (n, acc, s)
      end
  | EmptyString => (n, acc, s)
  end.

(** The same for the digits of another base. *)
Fixpoint read_base (base : Z) (s : string) (acc : Z) (n : nat)
  : nat * Z * string :=
  match s with
  | String c r =>
      match hex_val c with
      | Some d =>
          if d <? base then read_base base r (acc * base + d) (S n)
          else (n, acc, s)
      | None => (n, acc, s)
      end
  | EmptyString => (n, acc, s)
  end.

(** An exponent part at the head of [s]: [e] or [E], a sign or none, and
    digits; its value and the rest of the text. *)
Definition read_exponent (s : string) : option (Z * string) :=
  match s with
  | String c r =>
      if Ascii.eqb c "e" || Ascii.eqb c "E" then
        let '(sign, body) :=
          match r with
          | String c2 r2 =>
              if Ascii.eqb c2 "-" then (-1, r2)
              else if Ascii.eqb c2 "+" then (1, r2) else (1, r)
          | EmptyString => (1, r)
          end in
        match read_digits body 0 0 with
        | (O, _, _) => None
        | (_, z, rest) => Some (sign * z, rest)
        end
      else None
  | EmptyString => None
  end.

(** The end of a decimal literal whose digits so far make the number
    [digits], [n2] of them behind the point: an exponent part or none. *)
Definition with_exponent (digits : Z) (n2 : nat) (r2 : string)
  : option (Num * string) :=
  match r2 with
  | String c _ =>
      if Ascii.eqb c "e" || Ascii.eqb c "E" then
        match read_exponent r2 with
        | Some (e, r3) => Some (decimal digits (e - Z.of_nat n2), r3)
        | None => None
        end
      else Some (decimal digits (- Z.of_nat n2), r2)
  | EmptyString => Some (decimal digits (- Z.of_nat n2), r2)
  end.

(** An unsigned decimal literal at the head of [s]: [Infinity], or digits
    with a point somewhere or none, at least one digit in all, and an
    exponent part or none. *)
Definition read_decimal (s : string) : option (Num * string) :=
  if String.prefix "Infinity" s
  then Some (NFloat (FInf false), substring_from 8 s)
  else
    let '(n1, int, r1) := read_digits s 0 0 in
    let '(n2, digits, r2) :=
      match r1 with
      | String c r =>
          if Ascii.eqb c "." then read_digits r int 0 else (O, int, r1)
      | EmptyString => (O, int, r1)
      end in
    match (n1 + n2)%nat with
    | O => None
    | _ => with_exponent digits n2 r2
    end.

(** [Number(s)] for a string: white space around the literal is dropped;
    the empty text is 0; the literal is a signed decimal literal or an
    unsigned one in base 16, 8 or 2; anything else is NaN. *)
Definition StringToNumber (s : string) : Num :=
  let finish (negative : bool) (p : option (Num * string)) : Num :=
    match p with
    | Some (x, rest) =>
        match skip_ws rest with
        | EmptyString => signed negative x
        | _ => NFloat FNaN
        end
    | None => NFloat FNaN
    end in
  let based (base : Z) (r : string) : option (Num * string) :=
    match read_base base r 0 0 with
    | (O, _, _) => None
    | (_, z, rest) => Some (round_int z, rest)
    end in
  match skip_ws s with
  | EmptyString => NInt 0
  | String c r =>
      if Ascii.eqb c "-" then finish true (read_decimal r)
      else if Ascii.eqb c "+" then finish false (read_decimal r)
      else
        match c, r with
        | "0"%char, String p r2 =>
            if Ascii.eqb p "x" || Ascii.eqb p "X"
            then finish false (based 16 r2)
            else if Ascii.eqb p "o" || Ascii.eqb p "O"
            then finish false (based 8 r2)
            else if Ascii.eqb p "b" || Ascii.eqb p "B"
            then finish false (based 2 r2)
            else finish false (read_decimal (String c r))
        | _, _ => finish false (read_decimal (String c r))
        end
  end.

(** [ToPrimitive]: arrays and objects turn into their text. *)
Definition ToPrimitive (v : JsValue) : JsValue :=
  match v with
  | VArr _ | VObj _ => VStr (ToString v)
  | _ => v
  end.

(** [ToNumber]. *)
Definition ToNumber (v : JsValue) : Num :=
  match ToPrimitive v with
  | VUndef => NFloat FNaN
  | VNull => NInt 0
  | VBool b => NInt (if b then 1 else 0)
  | VNum z => NInt z
  | VFloat x => NFloat x
  | VStr s => StringToNumber s
  | _ => NFloat FNaN
  end.

(** [Number(v) || d]: NaN and 0 give the default. *)
Definition Number_or (v : JsValue) (d : Z) : JsValue :=
  or_else (value_of (ToNumber v)) (VNum d).

(** *** Comparison *)

(** [a < b]: two strings compare by code units, everything else as
    numbers; [None] is the undefined outcome (a NaN operand). *)
Definition lt (a b : JsValue) : option bool :=
  match ToPrimitive a, ToPrimitive b with
  | VStr s1, VStr s2 => Some (String.ltb s1 s2)
  | pa, pb =>
      match num_compare (ToNumber pa) (ToNumber pb) with
      | Some Lt => Some true
      | Some _ => Some false
      | None => None
      end
  end.

(** [a > b] is [b < a]; [a <= b] is "not [b < a]" and [a >= b] is "not
    [a < b]", each false when the comparison is undefined. *)
Definition gt (a b : JsValue) : bool :=
  match lt b a with Some r => r | None => false end.
Definition le (a b : JsValue) : bool :=
  match lt b a with Some r => negb r | None => false end.
Definition ge (a b : JsValue) : bool :=
  match lt a b with Some r => negb r | None => false end.

(** The comparison of [a] and [b] has an outcome. *)
Definition comparable (a b : JsValue) : bool :=
  match lt a b with Some _ => true | None => false end.

(** [a === b].  Primitives are equal when they are the same value, NaN
    being equal to nothing.  An array or object is equal only to itself;
    the operands compared here are a stored cell value and a value of the
    caller's query, two different references, so the outcome is
    [false]. *)
Definition strict_equal (a b : JsValue) : bool :=
  match a, b with
  | VUndef, VUndef => true
  | VNull, VNull => true
  | VBool x, VBool y => Bool.eqb x y
  | VNum x, VNum y => x =? y
  | VFloat FNaN, VFloat _ => false
  | VFloat x, VFloat y => Float_eqb x y
  | VStr x, VStr y => String.eqb x y
  | _, _ => false
  end.

(** [SameValueZero]: [===], but NaN is the same as NaN. *)
Definition same_value_zero (a b : JsValue) : bool :=
  match a, b with
  | VFloat FNaN, VFloat FNaN => true
  | _, _ => strict_equal a b
  end.

(** [o.name] for the property names the index layer reads ([$gt], ...):
    an array has none of them, a primitive neither. *)
Definition get_prop (v : JsValue) (name : string) : JsValue :=
  match v with
  | VObj l => match OMap.get name l with Some x => x | None => VUndef end
  | _ => VUndef
  end.

(** [s.includes(t)] on strings. *)
Fixpoint str_includes (t s : string) : bool :=
  if String.prefix t s then true
  else match s with
       | String _ r => str_includes t r
       | EmptyString => false
       end.

(** [c.includes(x)]: membership for an array (by [SameValueZero]),
    substring search for a string; on anything else the call throws a
    TypeError ([None]). *)
Definition includes (c x : JsValue) : option bool :=
  match c with
  | VArr l => Some (existsb (same_value_zero x) l)
  | VStr s => Some (str_includes (ToString x) s)
  | _ => None
  end.

(** [s.startsWith(p)], [s.endsWith(t)]. *)
Definition startsWith (p s : string) : bool := String.prefix p s.

Fixpoint endsWith (t s : string) : bool :=
  if String.eqb t s then true
  else match s with
       | String _ r => endsWith t r
       | EmptyString => false
       end.

(** *** JSON text *)

Definition dquote : ascii := "034"%char.
Definition backslash : ascii := "\"%char.

Definition hex_char (n : N) : ascii :=
  match String.get (N.to_nat n) "0123456789abcdef" with
  | Some c => c
  | None => "0"%char
  end.

(** One code unit as it stands inside a JSON string literal. *)
Definition escape_char (c : ascii) : string :=
  let n := N_of_ascii c in
  if Ascii.eqb c dquote then String backslash (String dquote "")
  else if Ascii.eqb c backslash then String backslash (String backslash "")
  else if (n =? 8)%N then String backslash "b"
  else if (n =? 12)%N then String backslash "f"
  else if (n =? 10)%N then String backslash "n"
  else if (n =? 13)%N then String backslash "r"
  else if (n =? 9)%N then String backslash "t"
  else if (n <? 32)%N then
    String backslash
      (String "u" (String "0" (String "0"
         (String (hex_char (n / 16)) (String (hex_char (n mod 16)) "")))))
  else String c "".

Fixpoint escape (s : string) : string :=
  match s with
  | EmptyString => EmptyString
  | String c r => escape_char c +s+ escape r
  end.

Definition quote (s : string) : string :=
  String dquote (escape s +s+ String dquote "").

(** [JSON.stringify(v)]: [None] is the result [undefined].  A member
    whose value is undefined is left out of an object, and an undefined
    element of an array prints as [null]; so do NaN and the infinities
    everywhere. *)
Fixpoint JSON_stringify (v : JsValue) : option string :=
  match v with
  | VUndef => None
  | VNull => Some "null"
  | VBool true => Some "true"
  | VBool false => Some "false"
  | VNum z => Some (string_of_Num (NInt z))
  | VFloat FNaN | VFloat (FInf _) => Some "null"
  | VFloat x => Some (string_of_Num (NFloat x))
  | VStr s => Some (quote s)
  | VArr l =>
      Some ("[" +s+
            join "," (map (fun x => match JSON_stringify x with
                                    | Some t => t
                                    | None => "null"
                                    end) l)
            +s+ "]")
  | VObj l =>
      let fix members (l : list (string * JsValue)) : list string :=
        match l with
        | [] => []
        | (k, x) :: r =>
            match JSON_stringify x with
            | Some t => (quote k +s+ ":" +s+ t) :: members r
            | None => members r
            end
        end in
      Some ("{" +s+ join "," (members l) +s+ "}")
  end.

Definition is_json_ws (c : ascii) : bool :=
  match c with
  | " "%char | "009"%char | "010"%char | "013"%char => true
  | _ => false
  end.

Fixpoint skip_json_ws (s : string) : string :=
  match s with
  | String c r => if is_json_ws c then skip_json_ws r else s
  | EmptyString => s
  end.

(** The character a one-letter escape stands for. *)
Definition unescape (e : ascii) : option ascii :=
  if Ascii.eqb e dquote then Some dquote
  else if Ascii.eqb e backslash then Some backslash
  else if Ascii.eqb e "/" then Some "/"%char
  else if Ascii.eqb e "b" then Some "008"%char
  else if Ascii.eqb e "f" then Some "012"%char
  else if Ascii.eqb e "n" then Some "010"%char
  else if Ascii.eqb e "r" then Some "013"%char
  else if Ascii.eqb e "t" then Some "009"%char
  else None.

(** The text of a string literal after its opening quote, up to the
    closing quote: the decoded text and what follows the literal.  A
    [\uXXXX] escape above 255 names a code unit outside the model and is
    refused like a malformed one. *)
Fixpoint parse_string_body (s : string) : option (string * string) :=
  match s with
  | EmptyString => None
  | String c r =>
      if Ascii.eqb c dquote then Some (EmptyString, r)
      else if Ascii.eqb c backslash then
        match r with
        | EmptyString => None
        | String e r2 =>
            match unescape e with
            | Some ch =>
                match parse_string_body r2 with
                | Some (t, rest) => Some (String ch t, rest)
                | None => None
                end
            | None =>
                if Ascii.eqb e "u" then
                  match r2 with
                  | String h1 (String h2 (String h3 (String h4 r3))) =>
                      match hex_val h1, hex_val h2, hex_val h3, hex_val h4 with
                      | Some a, Some b, Some c', Some d =>
                          let code := ((a * 16 + b) * 16 + c') * 16 + d in
                          if code <? 256 then
                            match parse_string_body r3 with
                            | Some (t, rest) =>
                                Some (String (ascii_of_N (Z.to_N code)) t, rest)
                            | None => None
                            end
                          else None
                      | _, _, _, _ => None
                      end
                  | _ => None
                  end
                else None
            end
        end
      else if (N_of_ascii c <? 32)%N then None
      else
        match parse_string_body r with
        | Some (t, rest) => Some (String c t, rest)
        | None => None
        end
  end.

(** The fraction part of a number literal, or none, after the integer
    part [int]: a point and at least one digit.  The result is the count
    of the digits behind the point, the number that all the digits make,
    and the rest of the text. *)
Definition json_fraction (int : Z) (r1 : string)
  : option (nat * Z * string) :=
  match r1 with
  | String c r =>
      if Ascii.eqb c "." then
        match read_digits r int 0 with
        | (O, _, _) => None
        | f => Some f
        end
      else Some (O, int, r1)
  | EmptyString => Some (O, int, r1)
  end.

(** A number literal without sign: [0], or digits that do not start with
    [0]; a fraction part or none; an exponent part or none. *)
Definition parse_unsigned_number (s : string) : option (Num * string) :=
  match s with
  | String c r =>
      match digit_of c with
      | Some d =>
          let '(_, int, r1) :=
            if d =? 0 then (O, 0, r) else read_digits r d 0 in
          match json_fraction int r1 with
          | Some (n2, digits, r2) => with_exponent digits n2 r2
          | None => None
          end
      | None => None
      end
  | EmptyString => None
  end.

(** A number literal: an optional minus sign and the literal without
    sign. *)
Definition parse_number (s : string) : option (JsValue * string) :=
  let finish (negative : bool) (p : option (Num * string)) :=
    match p with
    | Some (x, rest) => Some (value_of (signed negative x), rest)
    | None => None
    end in
  match s with
  | String c r => if Ascii.eqb c "-" then finish true (parse_unsigned_number r)
                  else finish false (parse_unsigned_number s)
  | EmptyString => None
  end.

(** [s] without the prefix [p], when it starts with [p]. *)
Definition strip_prefix (p s : string) : option string :=
  if String.prefix p s then Some (substring_from (String.length p) s)
  else None.

(** One JSON value at the head of [s] and the text after it.  [fuel]
    bounds the depth of the calls; at least every second call in a chain
    starts on a shorter text, which is why [JSON_parse] starts with twice
    the length of the text and two. *)
Fixpoint parse_value (fuel : nat) (s : string) : option (JsValue * string) :=
  match fuel with
  | O => None
  | S f =>
      match skip_json_ws s with
      | EmptyString => None
      | String c r =>
          if Ascii.eqb c "[" then
            match skip_json_ws r with
            | String c2 r2 =>
                if Ascii.eqb c2 "]" then Some (VArr [], r2)
                else parse_elems f r []
            | EmptyString => None
            end
          else if Ascii.eqb c "{" then
            match skip_json_ws r with
            | String c2 r2 =>
                if Ascii.eqb c2 "}" then Some (VObj [], r2)
                else parse_members f r []
            | EmptyString => None
            end
          else if Ascii.eqb c dquote then
            match parse_string_body r with
            | Some (t, rest) => Some (VStr t, rest)
            | None => None
            end
          else
            match strip_prefix "null" (String c r),
                  strip_prefix "true" (String c r),
                  strip_prefix "false" (String c r) with
            | Some rest, _, _ => Some (VNull, rest)
            | _, Some rest, _ => Some (VBool true, rest)
            | _, _, Some rest => Some (VBool false, rest)
            | None, None, None => parse_number (String c r)
            end
      end
  end

with parse_elems (fuel : nat) (s : string) (acc : list JsValue)
  : option (JsValue * string) :=
  match fuel with
  | O => None
  | S f =>
      match parse_value f s with
      | Some (v, rest) =>
          match skip_json_ws rest with
          | String c r =>
              if Ascii.eqb c "," then parse_elems f r (acc ++ [v])
              else if Ascii.eqb c "]" then Some (VArr (acc ++ [v]), r)
              else None
          | EmptyString => None
          end
      | None => None
      end
  end

with parse_members (fuel : nat) (s : string) (acc : list (string * JsValue))
  : option (JsValue * string) :=
  match fuel with
  | O => None
  | S f =>
      match skip_json_ws s with
      | String q r =>
          if Ascii.eqb q dquote then
            match parse_string_body r with
            | Some (k, rest) =>
                match skip_json_ws rest with
                | String c r2 =>
                    if Ascii.eqb c ":" then
                      match parse_value f r2 with
                      | Some (v, rest2) =>
                          match skip_json_ws rest2 with
                          | String c3 r3 =>
                              if Ascii.eqb c3 "," then
                                parse_members f r3 (OMap.set k v acc)
                              else if Ascii.eqb c3 "}" then
                                Some (VObj (OMap.set k v acc), r3)
                              else None
                          | EmptyString => None
                          end
                      | None => None
                      end
                    else None
                | EmptyString => None
                end
            | None => None
            end
          else None
      | EmptyString => None
      end
  end.

(** [JSON.parse(text)]: [None] is a thrown SyntaxError. *)
Definition JSON_parse (text : string) : option JsValue :=
  match parse_value (2 * String.length text + 2) text with
  | Some (v, rest) =>
      match skip_json_ws rest with
      | EmptyString => Some v
      | _ => None
      end
  | None => None
  end.

End Js.

(* ------------------------------------------------------------------ *)
(** ** BigtableService: the table store *)
(* ------------------------------------------------------------------ *)

Module Bigtable.
Import Js.

(** [BigtableCell], [BigtableRow], [BigtableTable], [BigtableQuery].  A
    missing [timestamp] of a row handed to [upsertRow], like a missing
    option of a query, is [None]. *)
Record BigtableCell : Type := mkCell {
  value : JsValue;
  cell_timestamp : Z
}.

Record BigtableRow : Type := mkRow {
  rowKey : string;
  columns : OMap.t BigtableCell;
  timestamp : option Z
}.

Record BigtableTable : Type := mkTable {
  name : string;
  rows : OMap.t BigtableRow;
  columnFamilies : list string
}.

Record BigtableQuery : Type := mkQuery {
  prefix : option string;
  startKey : option string;
  endKey : option string;
  limit : option Z;
  q_columnFamilies : option (list string);
  q_columns : option (list string)
}.

(** The result of [getTableStats]. *)
Record TableStats : Type := mkStats {
  rowCount : Z;
  size : Z
}.

(** The errors the two services throw, by the message of the [Error]
    object (the names are those of the design's error taxonomy). *)
Inductive Error : Type :=
| AlreadyExists (name : string)
    (* Table ${name} already exists *)
| NotFound (name : string)
    (* Table ${name} does not exist *)
| CapacityExceeded (tableName : string)
    (* Table ${tableName} has reached maximum capacity *)
| InvalidColumnFamily (columnFamily tableName : string)
    (* Column family ${columnFamily} does not exist in table ${tableName} *)
| KeyTooLong
    (* the blob key is longer than MAX_KEY_SIZE *)
| TypeError
    (* a built-in applied to a value it does not accept *)
| External (msg : string).
    (* thrown by the blob byte store *)

(** [this.MAX_TABLE_SIZE = 1e4]. *)
Definition MAX_TABLE_SIZE : Z := 10000.

Section Store.

(** The state of the collaborators outside the two services. *)
Context {Ext : Type}.

(** What a call can see and change: [this.tables], the clock behind
    [Date.now()] and the collaborators.  [ticks] are the amounts by which
    the clock goes forward before each of its next readings (none left:
    it stands still), so a later reading is never smaller. *)
Record World : Type := mkWorld {
  tables : OMap.t BigtableTable;
  clock : Z;
  ticks : list N;
  ext : Ext
}.

Definition M (A : Type) : Type := World -> (Error + A) * World.

Definition ret {A} (a : A) : M A := fun w => (inr a, w).

Definition bind {A B} (m : M A) (f : A -> M B) : M B :=
  fun w =>
    match m w with
    | (inr a, w') => f a w'
    | (inl e, w') => (inl e, w')
    end.

Definition throw {A} (e : Error) : M A := fun w => (inl e, w).

(** [try { m } catch (error) { h error }]: what [m] did before it threw
    stays done. *)
Definition try_catch {A} (m : M A) (h : Error -> M A) : M A :=
  fun w =>
    match m w with
    | (inl e, w') => h e w'
    | (inr a, w') => (inr a, w')
    end.

Notation "x <- m ;; k" := (bind m (fun x => k))
  (at level 61, m at next level, right associativity).
Notation "m ;; k" := (bind m (fun _ => k))
  (at level 61, right associativity).

(** [Date.now()]. *)
Definition Date_now : M Z :=
  fun w =>
    match ticks w with
    | [] => (inr (clock w), w)
    | d :: r =>
        let t := clock w + Z.of_N d in
        (inr t, mkWorld (tables w) t r (ext w))
    end.

Definition get_tables : M (OMap.t BigtableTable) :=
  fun w => (inr (tables w), w).

Definition put_tables (ts : OMap.t BigtableTable) : M unit :=
  fun w => (inr tt, mkWorld ts (clock w) (ticks w) (ext w)).

(** [for (const x of l) { ... }] with a running value. *)
Fixpoint forEach {A S} (f : S -> A -> M S) (l : list A) (acc : S) : M S :=
  match l with
  | [] => ret acc
  | x :: r => acc' <- f acc x ;; forEach f r acc'
  end.

(** *** Table operations *)

Definition createTable (name : string) (columnFamilies : list string)
  : M BigtableTable :=
  ts <- get_tables ;;
  if OMap.has name ts then throw (AlreadyExists name)
  else
    let table := mkTable name OMap.empty columnFamilies in
    put_tables (OMap.set name table ts) ;;
    ret table.

Definition getTable (name : string) : M BigtableTable :=
  ts <- get_tables ;;
  match OMap.get name ts with
  | None => throw (NotFound name)
  | Some table => ret table
  end.

Definition deleteTable (name : string) : M bool :=
  ts <- get_tables ;;
  put_tables (OMap.delete name ts) ;;
  ret (OMap.has name ts).

Definition listTables : M (list string) :=
  ts <- get_tables ;;
  ret (OMap.keys ts).

Definition initializeDefaultTables : M unit :=
  createTable "webpages" ["metadata"; "content"; "links"; "ranking"] ;;
  createTable "keywords" ["pages"; "stats"] ;;
  createTable "crawl_queue" ["status"; "metadata"] ;;
  createTable "user_data" ["search_history"; "preferences"] ;;
  ret tt.

(** [new BigtableService()]: an empty [tables] map, then the default
    tables. *)
Definition constructor : M unit :=
  put_tables OMap.empty ;;
  initializeDefaultTables.

(** *** Row operations *)

(** [column.split(":")[0]]: the text before the first colon, all of it
    when there is none. *)
Fixpoint family_of (column : string) : string :=
  match column with
  | EmptyString => EmptyString
  | String c r =>
      if Ascii.eqb c ":" then EmptyString else String c (family_of r)
  end.

(** [families.includes(f)]. *)
Definition includes_str (l : list string) (f : string) : bool :=
  existsb (String.eqb f) l.

(** The loop [for (const column in row.columns)] of [upsertRow]. *)
Fixpoint validateColumnFamilies (tableName : string) (table : BigtableTable)
    (cols : list string) : M unit :=
  match cols with
  | [] => ret tt
  | column :: r =>
      let columnFamily := family_of column in
      if negb (includes_str (columnFamilies table) columnFamily)
      then throw (InvalidColumnFamily columnFamily tableName)
      else validateColumnFamilies tableName table r
  end.

(** [table.rows.set(k, r)] and [table.rows.delete(k)], for the table
    object that [getTable tableName] returned. *)
Definition rows_set (tableName : string) (table : BigtableTable)
    (k : string) (r : BigtableRow) : M unit :=
  ts <- get_tables ;;
  put_tables
    (OMap.set tableName
       (mkTable (name table) (OMap.set k r (rows table))
          (columnFamilies table)) ts).

Definition rows_delete (tableName : string) (table : BigtableTable)
    (k : string) : M unit :=
  ts <- get_tables ;;
  put_tables
    (OMap.set tableName
       (mkTable (name table) (OMap.delete k (rows table))
          (columnFamilies table)) ts).

(** [row.timestamp || Date.now()]. *)
Definition timestamp_or_now (t : option Z) : M Z :=
  match t with
  | Some z => if truthy (VNum z) then ret z else Date_now
  | None => Date_now
  end.

Definition upsertRow (tableName : string) (row : BigtableRow) : M unit :=
  table <- getTable tableName ;;
  (if (OMap.size (rows table) >=? MAX_TABLE_SIZE)
      && negb (OMap.has (rowKey row) (rows table))
   then throw (CapacityExceeded tableName)
   else ret tt) ;;
  validateColumnFamilies tableName table (OMap.keys (columns row)) ;;
  ts <- timestamp_or_now (timestamp row) ;;
  rows_set tableName table (rowKey row)
    (mkRow (rowKey row) (columns row) (Some ts)).

Definition getRow (tableName rowKey : string) : M (option BigtableRow) :=
  table <- getTable tableName ;;
  ret (OMap.get rowKey (rows table)).

Definition deleteRow (tableName rowKey : string) : M bool :=
  table <- getTable tableName ;;
  rows_delete tableName table rowKey ;;
  ret (OMap.has rowKey (rows table)).

(** *** Query operations *)

Definition given {A} (o : option A) : bool :=
  match o with Some _ => true | None => false end.

Definition filterRowColumns (row : BigtableRow) (query : BigtableQuery)
  : BigtableRow :=
  let filteredColumns :=
    fold_left
      (fun acc (e : string * BigtableCell) =>
         let (column, cell) := e in
         let columnFamily := family_of column in
         if match q_columnFamilies query with
            | Some fs => negb (includes_str fs columnFamily)
            | None => false
            end
         then acc
         else if match q_columns query with
                 | Some cs => negb (includes_str cs column)
                 | None => false
                 end
         then acc
         else OMap.assign_key column cell acc)
      (columns row) OMap.empty in
  mkRow (rowKey row) filteredColumns (timestamp row).

(** The three key tests of the loop body; [true] is [continue]. *)
Definition skipped_by_key (query : BigtableQuery) (rowKey : string) : bool :=
  match prefix query with
  | Some p => truthy (VStr p) && negb (startsWith p rowKey)
  | None => false
  end
  || match startKey query with
     | Some k => truthy (VStr k) && String.ltb rowKey k
     | None => false
     end
  || match endKey query with
     | Some k => truthy (VStr k) && String.ltb k rowKey
     | None => false
     end.

(** [query.limit && result.length >= query.limit]. *)
Definition limit_reached (query : BigtableQuery) (result : list BigtableRow)
  : bool :=
  match limit query with
  | Some n => truthy (VNum n) && (Z.of_nat (List.length result) >=? n)
  | None => false
  end.

(** The loop over [table.rows.entries()], [result] being what has been
    pushed so far. *)
Fixpoint query_loop (query : BigtableQuery)
    (entries : list (string * BigtableRow)) (result : list BigtableRow)
  : list BigtableRow :=
  match entries with
  | [] => result
  | (rowKey, row) :: rest =>
      if skipped_by_key query rowKey then query_loop query rest result
      else
        let result' :=
          if given (q_columnFamilies query) || given (q_columns query) then
            let filteredRow := filterRowColumns row query in
            if OMap.size (columns filteredRow) >? 0
            then result ++ [filteredRow] else result
          else result ++ [row] in
        if limit_reached query result' then result'
        else query_loop query rest result'
  end.

Definition query (tableName : string) (query : BigtableQuery)
  : M (list BigtableRow) :=
  table <- getTable tableName ;;
  ret (query_loop query (rows table) []).

(** *** Batch operations *)

Fixpoint batchUpsert (tableName : string) (rows : list BigtableRow) : M unit :=
  match rows with
  | [] => ret tt
  | row :: r => upsertRow tableName row ;; batchUpsert tableName r
  end.

Fixpoint batchGet (tableName : string) (rowKeys : list string)
  : M (list (option BigtableRow)) :=
  match rowKeys with
  | [] => ret []
  | k :: r =>
      x <- getRow tableName k ;;
      xs <- batchGet tableName r ;;
      ret (x :: xs)
  end.

Definition clearAllData : M unit :=
  put_tables OMap.empty ;;
  initializeDefaultTables.

(** A call into a collaborator: it works on its own state and may throw. *)
Definition call_ext {A} (f : Ext -> (Error + A) * Ext) : M A :=
  fun w =>
    let (r, x) := f (ext w) in
    (r, mkWorld (tables w) (clock w) (ticks w) x).

(** A computation that only returns or throws. *)
Definition lift_result {A} (r : Error + A) : M A := fun w => (r, w).

(** *** Statistics *)

(** What one cell adds to the estimate: two bytes per character of the
    column name and of the JSON text of the value, and eight for the
    timestamp.  [JSON.stringify(cell.value).length] throws a TypeError
    when the value has no JSON text. *)
Definition cell_size (column : string) (cell : BigtableCell) : Error + Z :=
  match JSON_stringify (value cell) with
  | Some t =>
      inr (Z.of_nat (String.length column) * 2
           + Z.of_nat (String.length t) * 2 + 8)
  | None => inl TypeError
  end.

(** The inner loop of [getTableStats], over [Object.entries(row.columns)]. *)
Fixpoint cells_size (cols : list (string * BigtableCell)) (size : Z)
  : Error + Z :=
  match cols with
  | [] => inr size
  | (column, cell) :: r =>
      match cell_size column cell with
      | inl e => inl e
      | inr n => cells_size r (size + n)
      end
  end.

(** The outer loop, over [table.rows.values()]. *)
Fixpoint rows_size (rs : list BigtableRow) (size : Z) : Error + Z :=
  match rs with
  | [] => inr size
  | row :: r =>
      match cells_size (columns row)
              (size + Z.of_nat (String.length (rowKey row)) * 2) with
      | inl e => inl e
      | inr size' => rows_size r size'
      end
  end.

Definition getTableStats (tableName : string) : M TableStats :=
  table <- getTable tableName ;;
  size <- lift_result (rows_size (OMap.values (rows table)) 0) ;;
  ret (mkStats (OMap.size (rows table)) size).

End Store.

Arguments World : clear implicits.
Arguments M : clear implicits.

Module Notations.
Notation "x <- m ;; k" := (bind m (fun x => k))
  (at level 61, m at next level, right associativity).
Notation "m ;; k" := (bind m (fun _ => k))
  (at level 61, right associativity).
End Notations.

End Bigtable.

(* ------------------------------------------------------------------ *)
(** ** BlobIndexService: the secondary index layer *)
(* ------------------------------------------------------------------ *)

Module BlobIndex.
Import Js Bigtable Bigtable.Notations.

Definition BLOB_INDEX_TABLE : string := "blob_index".
Definition MAX_KEY_SIZE : Z := 256.

(** [IndexedBlobMetadata]: the blob store's metadata and the indexed
    fields.  The fields that [rowToIndexedMetadata] fills from cell values
    hold whatever value the cell held. *)
Record IndexedBlobMetadata : Type := mkMeta {
  key : string;
  contentType : JsValue;
  size : JsValue;
  createdAt : JsValue;
  checksum : JsValue;
  tags : obj;
  indexedFields : option obj
}.

(** What [blobstoreService.getStats()] returns, and what [getStats]
    returns. *)
Record BlobStats : Type := mkBlobStats {
  count : Z;
  totalSize : Z;
  availableSize : Z
}.

Record IndexStats : Type := mkIndexStats {
  blobCount : Z;
  stats_totalSize : Z;
  stats_availableSize : Z;
  indexedCount : Z
}.

(** [BlobQueryOptions], of which the index layer reads [limit]. *)
Record BlobQueryOptions : Type := mkOptions {
  opt_limit : option Z
}.

(** The value written to an [index:] column:
    [typeof fieldValue === "object" ? JSON.stringify(fieldValue) : fieldValue]. *)
Definition index_value (fieldValue : JsValue) : JsValue :=
  if typeof_object fieldValue then
    match JSON_stringify fieldValue with
    | Some t => VStr t
    | None => VUndef
    end
  else fieldValue.

(** What [rowToIndexedMetadata] makes of the value of an [index:] column:
    text that starts and ends like an object or an array is parsed, and
    kept as it is when the parse throws. *)
Definition parse_if_json (v : JsValue) : JsValue :=
  match v with
  | VStr t =>
      if (startsWith "{" t && endsWith "}" t)
         || (startsWith "[" t && endsWith "]" t)
      then match JSON_parse t with
           | Some x => x
           | None => v
           end
      else v
  | _ => v
  end.

(** The body of the loop over [Object.entries(query)] in [searchBlobs]
    once the cell is found: [inr false] is [return false], [inr true]
    goes on to the next field, [inl] is a throw. *)
Definition field_matches (indexedValue value : JsValue) : Error + bool :=
  if typeof_object value && negb (strict_equal value VNull) then
    let is_given (x : JsValue) := negb (strict_equal x VUndef) in
    if is_given (get_prop value "$gt") && le indexedValue (get_prop value "$gt")
    then inr false
    else if is_given (get_prop value "$lt")
            && ge indexedValue (get_prop value "$lt")
    then inr false
    else if is_given (get_prop value "$eq")
            && negb (strict_equal indexedValue (get_prop value "$eq"))
    then inr false
    else if is_given (get_prop value "$ne")
            && strict_equal indexedValue (get_prop value "$ne")
    then inr false
    else if is_given (get_prop value "$in") then
      match includes (get_prop value "$in") indexedValue with
      | None => inl TypeError
      | Some b => inr b
      end
    else inr true
  else if negb (strict_equal indexedValue value) then inr false
  else inr true.

(** The callback of [rows.filter] in [searchBlobs]. *)
Fixpoint row_matches (query : list (string * JsValue)) (row : BigtableRow)
  : Error + bool :=
  match query with
  | [] => inr true
  | (field, value) :: rest =>
      let columnKey := "index:" +s+ field in
      match OMap.get columnKey (columns row) with
      | None => inr false
      | Some cell =>
          match field_matches (Bigtable.value cell) value with
          | inl e => inl e
          | inr false => inr false
          | inr true => row_matches rest row
          end
      end
  end.

(** [rows.filter(callback)], the callback being able to throw. *)
Fixpoint filter_rows (query : obj) (rows : list BigtableRow)
  : Error + list BigtableRow :=
  match rows with
  | [] => inr []
  | row :: r =>
      match row_matches query row with
      | inl e => inl e
      | inr b =>
          match filter_rows query r with
          | inl e => inl e
          | inr l => inr (if b then row :: l else l)
          end
      end
  end.

Section Index.

Context {Ext : Type}.

(** The blob byte store, a collaborator outside the two services:
    [blobstoreService.storeBlob] and [blobstoreService.updateBlobMetadata],
    on the state [Ext] of their own, with [Data] the payload type. *)
Variable Data : Type.
Variable blob_storeBlob :
  string -> Data -> JsValue -> obj -> Ext -> (Error + IndexedBlobMetadata) * Ext.
Variable blob_updateBlobMetadata :
  string -> obj -> Ext -> (Error + unit) * Ext.

(** Its other calls: [getBlob] (the metadata and the payload of a blob, or
    nothing), [deleteBlob] and [getStats]. *)
Variable blob_getBlob :
  string -> Ext -> (Error + option (IndexedBlobMetadata * Data)) * Ext.
Variable blob_deleteBlob : string -> Ext -> (Error + bool) * Ext.
Variable blob_getStats : Ext -> (Error + BlobStats) * Ext.

Definition initializeIndexTable : Bigtable.M Ext unit :=
  try_catch
    (getTable BLOB_INDEX_TABLE ;; ret tt)
    (fun _ =>
       createTable BLOB_INDEX_TABLE ["metadata"; "index"; "content"] ;;
       ret tt).

(** [{ value: v, timestamp: Date.now() }]. *)
Definition cell_now (v : JsValue) : Bigtable.M Ext BigtableCell :=
  t <- Date_now ;;
  ret (mkCell v t).

Definition indexBlobMetadata (metadata : IndexedBlobMetadata) : Bigtable.M Ext unit :=
  let rowKey := key metadata in
  ts <- Date_now ;;
  c1 <- cell_now (contentType metadata) ;;
  c2 <- cell_now (size metadata) ;;
  c3 <- cell_now (createdAt metadata) ;;
  c4 <- cell_now (or_else (checksum metadata) (VStr "")) ;;
  let columns0 : OMap.t BigtableCell :=
    [("metadata:contentType", c1); ("metadata:size", c2);
     ("metadata:createdAt", c3); ("metadata:checksum", c4)] in
  columns1 <-
    forEach
      (fun cols (e : string * JsValue) =>
         let (tagName, tagValue) := e in
         c <- cell_now tagValue ;;
         ret (OMap.set ("metadata:tag_" +s+ tagName) c cols))
      (tags metadata) columns0 ;;
  columns2 <-
    match indexedFields metadata with
    | Some fields =>
        forEach
          (fun cols (e : string * JsValue) =>
             let (fieldName, fieldValue) := e in
             c <- cell_now (index_value fieldValue) ;;
             ret (OMap.set ("index:" +s+ fieldName) c cols))
          fields columns1
    | None => ret columns1
    end ;;
  columns3 <-
    (let keywords :=
       match indexedFields metadata with
       | Some fields => get_prop (VObj fields) "keywords"
       | None => VUndef
       end in
     if truthy keywords then
       match keywords with
       | VArr l =>
           c <- cell_now (VStr (array_join "," l)) ;;
           ret (OMap.set "content:keywords" c columns2)
       | _ => ret columns2
       end
     else ret columns2) ;;
  upsertRow BLOB_INDEX_TABLE (mkRow rowKey columns3 (Some ts)).

(** [row.columns[k]?.value]. *)
Definition column_value (row : BigtableRow) (k : string) : JsValue :=
  match OMap.get k (columns row) with
  | Some cell => Bigtable.value cell
  | None => VUndef
  end.

Definition rowToIndexedMetadata (row : BigtableRow) : Bigtable.M Ext IndexedBlobMetadata :=
  let contentType :=
    or_else (column_value row "metadata:contentType")
            (VStr "application/octet-stream") in
  let size := Number_or (column_value row "metadata:size") 0 in
  createdAt <-
    (let n := value_of (ToNumber (column_value row "metadata:createdAt")) in
     if truthy n then ret n else now <- Date_now ;; ret (VNum now)) ;;
  let checksum := column_value row "metadata:checksum" in
  let tags :=
    fold_left
      (fun (acc : obj) (e : string * BigtableCell) =>
         let (column, cell) := e in
         if startsWith "metadata:tag_" column then
           let tagName :=
             substring_from (String.length "metadata:tag_") column in
           OMap.assign_key tagName (Bigtable.value cell) acc
         else acc)
      (columns row) OMap.empty in
  let indexedFields :=
    fold_left
      (fun (acc : obj) (e : string * BigtableCell) =>
         let (column, cell) := e in
         if startsWith "index:" column then
           let fieldName := substring_from (String.length "index:") column in
           OMap.assign_key fieldName (parse_if_json (Bigtable.value cell)) acc
         else acc)
      (columns row) OMap.empty in
  ret (mkMeta (Bigtable.rowKey row) contentType size createdAt
         checksum tags (Some indexedFields)).

(** [results.map(row => this.rowToIndexedMetadata(row))]. *)
Fixpoint map_rows (rows : list BigtableRow) : Bigtable.M Ext (list IndexedBlobMetadata) :=
  match rows with
  | [] => ret []
  | row :: r =>
      m <- rowToIndexedMetadata row ;;
      ms <- map_rows r ;;
      ret (m :: ms)
  end.

(** [options.limit || 100]. *)
Definition scan_limit (options : BlobQueryOptions) : Z :=
  match opt_limit options with
  | Some n => if truthy (VNum n) then n else 100
  | None => 100
  end.

Definition searchBlobs (query : obj) (options : BlobQueryOptions)
  : Bigtable.M Ext (list IndexedBlobMetadata) :=
  try_catch
    (rows <- Bigtable.query BLOB_INDEX_TABLE
               (mkQuery None None None (Some (scan_limit options)) None None) ;;
     results <- lift_result (filter_rows query rows) ;;
     map_rows results)
    (fun _ => ret []).

Definition storeBlob (key : string) (data : Data) (contentType : JsValue)
    (tags indexedFields : obj) : Bigtable.M Ext IndexedBlobMetadata :=
  (if Z.of_nat (String.length key) >? MAX_KEY_SIZE
   then throw KeyTooLong else ret tt) ;;
  metadata <- call_ext (blob_storeBlob key data contentType tags) ;;
  let indexedMetadata :=
    mkMeta (BlobIndex.key metadata) (BlobIndex.contentType metadata)
      (size metadata) (createdAt metadata) (checksum metadata)
      (BlobIndex.tags metadata) (Some indexedFields) in
  indexBlobMetadata indexedMetadata ;;
  ret indexedMetadata.

(** The result [null] is [None]. *)
Definition updateIndexedMetadata (key : string) (tags indexedFields : option obj)
  : Bigtable.M Ext (option IndexedBlobMetadata) :=
  try_catch
    (row <- getRow BLOB_INDEX_TABLE key ;;
     match row with
     | None => ret None
     | Some row =>
         existingMetadata <- rowToIndexedMetadata row ;;
         match tags with
         | Some t => call_ext (blob_updateBlobMetadata key t)
         | None => ret tt
         end ;;
         let spread (o : option obj) : obj :=
           match o with Some x => x | None => OMap.empty end in
         let updatedMetadata :=
           mkMeta (BlobIndex.key existingMetadata)
             (contentType existingMetadata) (size existingMetadata)
             (createdAt existingMetadata) (checksum existingMetadata)
             (match tags with
              | Some t => t
              | None => BlobIndex.tags existingMetadata
              end)
             (Some (OMap.assign
                      (spread (BlobIndex.indexedFields existingMetadata))
                      (spread indexedFields))) in
         indexBlobMetadata updatedMetadata ;;
         ret (Some updatedMetadata)
     end)
    (fun _ => ret None).

(** The result [null] is [None]; the blob store is asked outside any
    [try]. *)
Definition getBlob (key : string) : Bigtable.M Ext (option (IndexedBlobMetadata * Data)) :=
  blob <- call_ext (blob_getBlob key) ;;
  match blob with
  | None => ret None
  | Some (blob_metadata, blob_data) =>
      found <-
        try_catch
          (row <- getRow BLOB_INDEX_TABLE key ;;
           match row with
           | Some row =>
               indexedMetadata <- rowToIndexedMetadata row ;;
               ret (Some (indexedMetadata, blob_data))
           | None => ret None
           end)
          (fun _ => ret None) ;;
      match found with
      | Some r => ret (Some r)
      | None => ret (Some (blob_metadata, blob_data))
      end
  end.

Definition deleteBlob (key : string) : Bigtable.M Ext bool :=
  try_catch
    (deleteRow BLOB_INDEX_TABLE key ;;
     call_ext (blob_deleteBlob key))
    (fun _ => ret false).

Definition getStats : Bigtable.M Ext IndexStats :=
  blobStats <- call_ext blob_getStats ;;
  indexStats <-
    try_catch (getTableStats BLOB_INDEX_TABLE)
      (fun _ => ret (mkStats 0 0)) ;;
  ret (mkIndexStats (count blobStats) (totalSize blobStats)
         (availableSize blobStats) (rowCount indexStats)).

End Index.

End BlobIndex.

(* ------------------------------------------------------------------ *)
(** ** Definitions used by the statements *)
(* ------------------------------------------------------------------ *)

Module Aux.
Import Js Bigtable BlobIndex.

Section WithExt.
Context {Ext : Type}.

(** The world after one reading of the clock. *)
Definition tick (w : World Ext) : World Ext :=
  match ticks w with
  | [] => w
  | d :: r => mkWorld (tables w) (clock w + Z.of_N d) r (ext w)
  end.

(** The world with another [tables] map. *)
Definition with_tables (ts : OMap.t BigtableTable) (w : World Ext)
  : World Ext :=
  mkWorld ts (clock w) (ticks w) (ext w).

(** The row that a successful [upsertRow] stores, and the world it
    leaves. *)
Definition stored_row (row : BigtableRow) (ts : Z) : BigtableRow :=
  mkRow (rowKey row) (columns row) (Some ts).

Definition upserted (w : World Ext) (tableName : string)
    (table : BigtableTable) (row : BigtableRow) (ts : Z) : World Ext :=
  with_tables
    (OMap.set tableName
       (mkTable (name table)
          (OMap.set (rowKey row) (stored_row row ts) (rows table))
          (columnFamilies table))
       (tables w)) w.

End WithExt.

(** The first column, in enumeration order, whose family the table does
    not declare. *)
Definition first_invalid (table : BigtableTable) (cols : list string)
  : option string :=
  find (fun c => negb (includes_str (columnFamilies table) (family_of c))) cols.

(** The capacity test of [upsertRow]. *)
Definition over_capacity (table : BigtableTable) (row : BigtableRow) : bool :=
  (OMap.size (rows table) >=? MAX_TABLE_SIZE)
  && negb (OMap.has (rowKey row) (rows table)).

(** A key within the closed range from [s] to [e]. *)
Definition in_range (s e k : string) : bool :=
  negb (String.ltb k s) && negb (String.ltb e k).

(** The query that gives only the two bounds. *)
Definition range_query (s e : string) : BigtableQuery :=
  mkQuery None (Some s) (Some e) None None None.

(** The timestamp a stored row is said to have: the one the caller
    supplied or, without one, a time not before the call. *)
Definition timestamp_as_claimed (supplied : option Z) (time_of_call : Z)
    (stored : option Z) : Prop :=
  match supplied with
  | Some z => stored = Some z
  | None => exists t, stored = Some t /\ time_of_call <= t
  end.

(** The timestamp a stored row has: a supplied zero counts as none. *)
Definition timestamp_as_stored (supplied : option Z) (time_of_call : Z)
    (stored : option Z) : Prop :=
  match supplied with
  | Some z =>
      if z =? 0 then exists t, stored = Some t /\ time_of_call <= t
      else stored = Some z
  | None => exists t, stored = Some t /\ time_of_call <= t
  end.

(** *** The index layer *)

(** The values of the cells of a row, column by column. *)
Definition values_of (cols : OMap.t BigtableCell) : OMap.t JsValue :=
  map (fun e => (fst e, Bigtable.value (snd e))) cols.

(** [acc] after the assignments [acc[pre + name] = g(v)] for the entries
    [(name, v)] of [l], in order. *)
Definition set_all (pre : string) (g : JsValue -> JsValue)
    (l : list (string * JsValue)) (acc : OMap.t JsValue) : OMap.t JsValue :=
  fold_left (fun a e => OMap.set (pre +s+ fst e) (g (snd e)) a) l acc.

(** The cell values of the row that [indexBlobMetadata] builds. *)
Definition index_values (m : IndexedBlobMetadata) : OMap.t JsValue :=
  let v0 : OMap.t JsValue :=
    [("metadata:contentType", contentType m); ("metadata:size", size m);
     ("metadata:createdAt", createdAt m);
     ("metadata:checksum", or_else (checksum m) (VStr ""))] in
  let v1 := set_all "metadata:tag_" (fun v => v) (tags m) v0 in
  let v2 :=
    match indexedFields m with
    | Some fields => set_all "index:" index_value fields v1
    | None => v1
    end in
  match indexedFields m with
  | Some fields =>
      match get_prop (VObj fields) "keywords" with
      | VArr l =>
          if truthy (VArr l)
          then OMap.set "content:keywords" (VStr (array_join "," l)) v2
          else v2
      | _ => v2
      end
  | None => v2
  end.

(** The indexed fields that [rowToIndexedMetadata] reads off the cell
    values of a row. *)
Definition fields_of_values (vals : OMap.t JsValue) : obj :=
  fold_left
    (fun (acc : obj) (e : string * JsValue) =>
       if startsWith "index:" (fst e)
       then OMap.assign_key
              (substring_from (String.length "index:") (fst e))
              (parse_if_json (snd e)) acc
       else acc)
    vals OMap.empty.

(** [w'] is [w] after some readings of the clock: the tables and the
    collaborators are the same, the clock is not behind. *)
Definition later {Ext} (w w' : World Ext) : Prop :=
  tables w' = tables w /\ ext w' = ext w /\ clock w <= clock w'.

(** What [rowToIndexedMetadata] makes of a row: a record with the key
    of the row and the indexed fields of its [index:] columns. *)
Definition reconstructs (row : BigtableRow) (m' : IndexedBlobMetadata) : Prop :=
  key m' = rowKey row
  /\ indexedFields m' = Some (fields_of_values (values_of (columns row))).

(** [...o] for an object that may be missing: its own entries, none for
    [undefined]. *)
Definition spread (o : option obj) : obj :=
  match o with Some x => x | None => OMap.empty end.

(** The families of the index table. *)
Definition index_families : list string := ["metadata"; "index"; "content"].

(** The table declares the three families the index layer writes. *)
Definition index_table_ok (table : BigtableTable) : bool :=
  forallb (includes_str (columnFamilies table)) index_families.

(** [v] is a predicate object: an object or array, not null. *)
Definition is_predicate (v : JsValue) : bool :=
  typeof_object v && negb (strict_equal v VNull).

Definition is_given (x : JsValue) : bool := negb (strict_equal x VUndef).

(** The stated meaning of a match specification: equality for a scalar;
    for a predicate object every operator that is given, with [$gt]
    strictly greater, [$lt] strictly less, [$eq] equal, [$ne] not equal
    and [$in] membership. *)
Definition satisfies (indexedValue matchSpec : JsValue) : bool :=
  if is_predicate matchSpec then
    implb (is_given (get_prop matchSpec "$gt"))
          (gt indexedValue (get_prop matchSpec "$gt"))
    && implb (is_given (get_prop matchSpec "$lt"))
             (match lt indexedValue (get_prop matchSpec "$lt") with
              | Some r => r
              | None => false
              end)
    && implb (is_given (get_prop matchSpec "$eq"))
             (strict_equal indexedValue (get_prop matchSpec "$eq"))
    && implb (is_given (get_prop matchSpec "$ne"))
             (negb (strict_equal indexedValue (get_prop matchSpec "$ne")))
    && implb (is_given (get_prop matchSpec "$in"))
             (match includes (get_prop matchSpec "$in") indexedValue with
              | Some r => r
              | None => false
              end)
  else strict_equal indexedValue matchSpec.

(** What the filter of [searchBlobs] asks of a stored value: equality for
    a scalar; for a predicate object every operator that is given, where
    [$gt] turns down the value when [indexedValue <= bound] holds and
    [$lt] when [indexedValue >= bound] holds, [$eq] and [$ne] are as
    stated, and [$in] asks [bound.includes(indexedValue)] of an operand
    that has that method. *)
Definition passes (indexedValue matchSpec : JsValue) : bool :=
  if is_predicate matchSpec then
    implb (is_given (get_prop matchSpec "$gt"))
          (negb (le indexedValue (get_prop matchSpec "$gt")))
    && implb (is_given (get_prop matchSpec "$lt"))
             (negb (ge indexedValue (get_prop matchSpec "$lt")))
    && implb (is_given (get_prop matchSpec "$eq"))
             (strict_equal indexedValue (get_prop matchSpec "$eq"))
    && implb (is_given (get_prop matchSpec "$ne"))
             (negb (strict_equal indexedValue (get_prop matchSpec "$ne")))
    && implb (is_given (get_prop matchSpec "$in"))
             (match includes (get_prop matchSpec "$in") indexedValue with
              | Some r => r
              | None => false
              end)
  else strict_equal indexedValue matchSpec.

(** The rows that the filter keeps: every queried field has its [index:]
    column, and the value there passes the match specification. *)
Definition survives (query : obj) (row : BigtableRow) : bool :=
  forallb
    (fun e =>
       match OMap.get ("index:" +s+ fst e) (columns row) with
       | Some cell => passes (Bigtable.value cell) (snd e)
       | None => false
       end)
    query.

(** The bounds of [$gt] and [$lt] that are given compare with the stored
    value: neither side is NaN as a number, or both are texts. *)
Definition compares (indexedValue matchSpec : JsValue) : bool :=
  implb (is_predicate matchSpec && is_given (get_prop matchSpec "$gt"))
        (comparable (get_prop matchSpec "$gt") indexedValue)
  && implb (is_predicate matchSpec && is_given (get_prop matchSpec "$lt"))
           (comparable indexedValue (get_prop matchSpec "$lt")).

(** The rows that the scan of [searchBlobs] returns: the first
    [options.limit || 100] rows of the table (the first one for a
    negative limit). *)
Definition scanned (options : BlobQueryOptions) (table : BigtableTable)
  : list BigtableRow :=
  firstn (Z.to_nat (Z.max 1 (scan_limit options))) (OMap.values (rows table)).

(** The query of [searchBlobs] on the table store. *)
Definition scan_query (options : BlobQueryOptions) : BigtableQuery :=
  mkQuery None None None (Some (scan_limit options)) None None.

(** *** Well-formed stores *)

(** A stored row: it carries the key it is stored under and a timestamp,
    and every column is of a family that the table declares. *)
Definition row_ok (table : BigtableTable) (k : string) (row : BigtableRow)
  : Prop :=
  rowKey row = k
  /\ (exists ts, timestamp row = Some ts)
  /\ Forall (fun c => includes_str (columnFamilies table) (family_of c) = true)
        (OMap.keys (columns row)).

(** A table of the store: it carries the name it is stored under, has one
    row per key, at most [MAX_TABLE_SIZE] rows, and only rows that are
    [row_ok]. *)
Definition table_ok (n : string) (table : BigtableTable) : Prop :=
  name table = n
  /\ OMap.wf (rows table)
  /\ OMap.size (rows table) <= MAX_TABLE_SIZE
  /\ forall k row, In (k, row) (rows table) -> row_ok table k row.

Definition store_ok {Ext} (w : World Ext) : Prop :=
  OMap.wf (tables w)
  /\ forall n table, In (n, table) (tables w) -> table_ok n table.

(** The query that gives only a prefix. *)
Definition prefix_query (p : string) : BigtableQuery :=
  mkQuery (Some p) None None None None None.

(** [query] with its limit taken away. *)
Definition without_limit (q : BigtableQuery) : BigtableQuery :=
  mkQuery (prefix q) (startKey q) (endKey q) None
    (q_columnFamilies q) (q_columns q).

(** The test of [filterRowColumns] on one column name: the two filters
    let it through, and it is a name under which the assignment to
    [filteredColumns] makes a property. *)
Definition column_selected (q : BigtableQuery) (column : string) : bool :=
  match q_columnFamilies q with
  | Some fs => includes_str fs (family_of column)
  | None => true
  end
  && match q_columns q with
     | Some cs => includes_str cs column
     | None => true
     end
  && negb (String.eqb column "__proto__").

(** The query asks for a projection; and what a query returns for a
    stored row that passes the key tests: the row itself or, with a
    projection, the row cut down to the selected columns. *)
Definition projects (q : BigtableQuery) : bool :=
  given (q_columnFamilies q) || given (q_columns q).

Definition answer_for (q : BigtableQuery) (stored : BigtableRow)
  : BigtableRow :=
  if projects q then filterRowColumns stored q else stored.

(** The record that [storeBlob] indexes and returns: the metadata of the
    blob store with the supplied indexed fields. *)
Definition indexed_as (bm : IndexedBlobMetadata) (fields : obj)
  : IndexedBlobMetadata :=
  mkMeta (key bm) (contentType bm) (size bm) (createdAt bm) (checksum bm)
    (tags bm) (Some fields).

(** The tags that [rowToIndexedMetadata] reads off the cell values of a
    row. *)
Definition tags_of_values (vals : OMap.t JsValue) : obj :=
  fold_left
    (fun (acc : obj) (e : string * JsValue) =>
       if startsWith "metadata:tag_" (fst e)
       then OMap.assign_key
              (substring_from (String.length "metadata:tag_") (fst e))
              (snd e) acc
       else acc)
    vals OMap.empty.

(** Some cell of the table holds [undefined]; the number of cells of the
    table. *)
Definition has_undefined (table : BigtableTable) : bool :=
  existsb
    (fun row =>
       existsb (fun e => match Bigtable.value (snd e) with
                         | VUndef => true
                         | _ => false
                         end) (columns row))
    (OMap.values (rows table)).

Definition cell_count (table : BigtableTable) : Z :=
  fold_right (fun row n => Z.of_nat (List.length (columns row)) + n) 0
    (OMap.values (rows table)).

(** The world with another state of the collaborators. *)
Definition with_ext {Ext} (x : Ext) (w : World Ext) : World Ext :=
  mkWorld (tables w) (clock w) (ticks w) x.

(** The test of [rowToIndexedMetadata] for a text to parse, and the
    values that pass through the index unchanged without parsing:
    undefined, booleans, numbers, and texts that fail this test. *)
Definition looks_like_json (t : string) : bool :=
  (startsWith "{" t && endsWith "}" t) || (startsWith "[" t && endsWith "]" t).


(** A value that [JSON.stringify] writes and [JSON.parse] reads back as
    it was: null, a boolean, a number, a text, a list of such values, or
    an object of such values with one entry per name.  The numbers are
    the doubles other than NaN and the infinities. *)
Fixpoint json_value (v : JsValue) : Prop :=
  match v with
  | VUndef | VFloat FNaN | VFloat (FInf _) => False
  | VNull | VBool _ | VStr _ => True
  | VNum z => is_double (NInt z) = true
  | VFloat x => is_double (NFloat x) = true
  | VArr l =>
      (fix all (l : list JsValue) : Prop :=
         match l with
         | [] => True
         | x :: r => json_value x /\ all r
         end) l
  | VObj l =>
      NoDup (map fst l)
      /\ (fix all (l : list (string * JsValue)) : Prop :=
            match l with
            | [] => True
            | (_, x) :: r => json_value x /\ all r
            end) l
  end.

(** The JSON text of an element of a list, and the texts of the members
    of an object, as [JSON.stringify] writes them. *)
Definition json_text (v : JsValue) : string :=
  match JSON_stringify v with
  | Some t => t
  | None => "null"
  end.

Fixpoint members_text (l : list (string * JsValue)) : list string :=
  match l with
  | [] => []
  | (k, x) :: r =>
      match JSON_stringify x with
      | Some t => (quote k +s+ ":" +s+ t) :: members_text r
      | None => members_text r
      end
  end.

(** A number other than NaN and the infinities. *)
Definition finite (x : Num) : Prop :=
  match x with
  | NFloat FNaN | NFloat (FInf _) => False
  | _ => True
  end.

(** A text of decimal digits only, and the number that the digits make
    when they follow the digits of [acc]. *)
Fixpoint all_digits (t : string) : bool :=
  match t with
  | EmptyString => true
  | String c r =>
      match digit_of c with
      | Some _ => all_digits r
      | None => false
      end
  end.

Fixpoint number_of (t : string) (acc : Z) : Z :=
  match t with
  | EmptyString => acc
  | String c r =>
      match digit_of c with
      | Some d => number_of r (acc * 10 + d)
      | None => acc
      end
  end.

(** The text does not go on with a digit. *)
Definition no_digit_next (rest : string) : bool :=
  match rest with
  | EmptyString => true
  | String c _ => match digit_of c with Some _ => false | None => true end
  end.

(** What follows a value inside a JSON text: nothing, a comma or a
    closing bracket. *)
Definition after_value (rest : string) : bool :=
  match rest with
  | EmptyString => true
  | String c _ => Ascii.eqb c "," || Ascii.eqb c "]" || Ascii.eqb c "}"
  end.

(** A list or an object, the values that the index stores as JSON
    text. *)
Definition structured (v : JsValue) : bool :=
  match v with
  | VArr _ | VObj _ => true
  | _ => false
  end.

End Aux.

(* ------------------------------------------------------------------ *)
(** ** Concrete worlds and rows *)
(* ------------------------------------------------------------------ *)

Module Examples.
Import Js Bigtable.

(** A store with the single empty table [t] of family [f], at time 1000,
    the clock going forward by 5 before its next reading. *)
Definition w_small : World unit :=
  mkWorld [("t", mkTable "t" [] ["f"])] 1000 [5%N] tt.

Definition cell_one : BigtableCell := mkCell (VNum 1) 7.

(** Rows for [t]: with a timestamp, with the timestamp 0, without one,
    and with a column of a family that [t] does not declare. *)
Definition row_stamped : BigtableRow := mkRow "r" [("f:a", cell_one)] (Some 42).
Definition row_zero : BigtableRow := mkRow "r" [("f:a", cell_one)] (Some 0).
Definition row_unstamped : BigtableRow := mkRow "r" [("f:a", cell_one)] None.
Definition row_bad_family : BigtableRow :=
  mkRow "r" [("f:a", cell_one); ("g:b", cell_one)] (Some 42).

(** A table holding [MAX_TABLE_SIZE] rows, keyed by the decimal numbers
    from 0 on. *)
Definition full_rows : OMap.t BigtableRow :=
  map (fun n => let k := string_of_Z (Z.of_nat n) in
                (k, mkRow k [("f:a", cell_one)] (Some 1)))
      (seq 0 (Z.to_nat MAX_TABLE_SIZE)).

Definition full_table : BigtableTable := mkTable "big" full_rows ["f"].

Definition w_full : World unit := mkWorld [("big", full_table)] 1000 [] tt.

(** A row under a key that [full_table] has, one under a key that it has
    not, and one under a new key with an undeclared family. *)
Definition row_known : BigtableRow := mkRow "17" [("f:a", cell_one)] (Some 2).
Definition row_fresh : BigtableRow := mkRow "new" [("f:a", cell_one)] (Some 2).
Definition row_fresh_bad : BigtableRow :=
  mkRow "new" [("g:b", cell_one)] (Some 2).

(** A table with the keys a to e, in that order. *)
Definition keyed (k : string) : string * BigtableRow :=
  (k, mkRow k [("f:a", cell_one)] (Some 1)).

Definition w_letters : World unit :=
  mkWorld [("t", mkTable "t" (map keyed ["a"; "b"; "c"; "d"; "e"]) ["f"])]
    1000 [] tt.

(** The store after [new BigtableService()] and [new BlobIndexService()]
    at time 1000 with a clock that stands still, and after the indexing of
    three blobs. *)
Definition w_boot : World unit :=
  snd (Bigtable.constructor (mkWorld [] 1000 [] tt)).

Definition w_index : World unit := snd (BlobIndex.initializeIndexTable w_boot).

Definition meta (k : string) (fields : obj) : BlobIndex.IndexedBlobMetadata :=
  BlobIndex.mkMeta k (VStr "text/plain") (VNum 10) (VNum 900) VUndef
    [("team", VStr "x")] (Some fields).

Definition rated (k : string) (rating : Z) : BlobIndex.IndexedBlobMetadata :=
  meta k [("rating", VNum rating)].

Definition index_all (ms : list BlobIndex.IndexedBlobMetadata)
    (w : World unit) : World unit :=
  fold_left (fun w m => snd (BlobIndex.indexBlobMetadata m w)) ms w.

Definition w_rated_156 : World unit :=
  index_all [rated "a" 1; rated "b" 5; rated "c" 6] w_index.

Definition w_rated_246 : World unit :=
  index_all [rated "a" 2; rated "b" 4; rated "c" 6] w_index.

(** A blob with the indexed fields of the round trip, and one whose
    rating is text. *)
Definition meta_round : BlobIndex.IndexedBlobMetadata :=
  meta "doc1" [("rating", VNum 5); ("tags_list", VArr [VStr "a"; VStr "b"])].

Definition w_text_rating : World unit :=
  index_all [meta "a" [("rating", VStr "abc")]] w_index.

Definition w_round : World unit := index_all [meta_round] w_index.

(** The JSON text of the list of the texts a and b: an opening bracket,
    the two texts in double quotes with a comma between them, and a
    closing bracket. *)
Definition text_a_b : string :=
  String "[" (String dquote (String "a" (String dquote (String ","
    (String dquote (String "b" (String dquote (String "]" "")))))))).


Definition w_rated_2 : World unit := index_all [rated "a" 2] w_index.
Definition w_rated_24 : World unit := index_all [rated "b" 4] w_rated_2.

(** The query [{rating: {$gt: 3}}]. *)
Definition rating_above_3 : obj := [("rating", VObj [("$gt", VNum 3)])].

(** A blob byte store without state of its own: [storeBlob] returns the
    metadata of the blob, [updateBlobMetadata] returns. *)
Definition store_stub (key : string) (data : unit) (contentType : JsValue)
    (tags : obj) (x : unit) : (Error + BlobIndex.IndexedBlobMetadata) * unit :=
  (inr (BlobIndex.mkMeta key contentType (VNum 10) (VNum 900) VUndef tags None),
   x).

Definition update_stub (key : string) (tags : obj) (x : unit)
  : (Error + unit) * unit :=
  (inr tt, x).


Definition delete_stub (key : string) (x : unit) : (Error + bool) * unit :=
  (inr true, x).

Definition get_stub (key : string) (x : unit)
  : (Error + option (BlobIndex.IndexedBlobMetadata * unit)) * unit :=
  (inr None, x).

Definition stats_stub (x : unit) : (Error + BlobIndex.BlobStats) * unit :=
  (inr (BlobIndex.mkBlobStats 0 0 0), x).



(** A blob with a list of keywords, and one with a nested field. *)
Definition meta_keywords : BlobIndex.IndexedBlobMetadata :=
  meta "doc2" [("keywords", VArr [VStr "red"; VStr "blue"])].

Definition shape : JsValue :=
  VObj [("sides", VNum 4);
        ("ratio", VFloat (FFrac 5 1));
        ("names", VArr [VStr "a\b"; VNull; VBool true; VNum (-12)])].

Definition meta_nested : BlobIndex.IndexedBlobMetadata :=
  meta "doc3" [("shape", shape)].

Definition w_keywords : World unit := index_all [meta_keywords] w_index.
Definition w_nested : World unit := index_all [meta_nested] w_index.

(** What [storeBlob] returns for a plain-text blob with the indexed
    field [rating] when the blob store is [store_stub]. *)
Definition meta_of_stored (k : string) : BlobIndex.IndexedBlobMetadata :=
  BlobIndex.mkMeta k (VStr "text/plain") (VNum 10) (VNum 900) VUndef []
    (Some [("rating", VNum 5)]).

(** The query that gives only a limit, and the one that gives only
    families. *)
Definition limit_query (n : Z) : BigtableQuery :=
  mkQuery None None None (Some n) None None.

Definition family_query (fs : list string) : BigtableQuery :=
  mkQuery None None None None (Some fs) None.

End Examples.

(* ------------------------------------------------------------------ *)
(** ** Facts about ordered maps *)
(* ------------------------------------------------------------------ *)

Module OMapFacts.

Section Facts.
Context {V : Type}.
Implicit Types (m : OMap.t V) (k : string) (v : V).

Lemma get_set_same k v m : OMap.get k (OMap.set k v m) = Some v.
Proof.
  induction m as [|[k' v'] r IH]; simpl.
  - now rewrite String.eqb_refl.
  - destruct (String.eqb k k') eqn:E; simpl; rewrite E; auto.
Qed.

Lemma get_set_other k k' v m :
  k <> k' -> OMap.get k' (OMap.set k v m) = OMap.get k' m.
Proof.
  intros Hne. induction m as [|[k0 v0] r IH]; simpl.
  - destruct (String.eqb k' k) eqn:E; auto.
    apply String.eqb_eq in E. congruence.
  - destruct (String.eqb k k0) eqn:E; simpl.
    + apply String.eqb_eq in E. subst k0.
      destruct (String.eqb k' k) eqn:E'; auto.
      apply String.eqb_eq in E'. congruence.
    + now rewrite IH.
Qed.

Lemma get_None_keys k m : OMap.get k m = None <-> ~ In k (OMap.keys m).
Proof.
  induction m as [|[k' v'] r IH]; simpl.
  - tauto.
  - destruct (String.eqb k k') eqn:E.
    + apply String.eqb_eq in E. subst. split; [discriminate|].
      intros H. exfalso. apply H. now left.
    + apply String.eqb_neq in E. rewrite IH. split.
      * intros H [H1|H1]; [congruence|auto].
      * intros H H1. apply H. now right.
Qed.

(** Writing an existing key keeps the number of bindings; a new key adds
    one. *)
Lemma length_set k v m :
  List.length (OMap.set k v m)
  = if OMap.has k m then List.length m else S (List.length m).
Proof.
  unfold OMap.has.
  induction m as [|[k' v'] r IH]; simpl; auto.
  destruct (String.eqb k k') eqn:E; simpl; auto.
  rewrite IH. now destruct (OMap.get k r).
Qed.

Lemma keys_set k v m :
  OMap.keys (OMap.set k v m)
  = if OMap.has k m then OMap.keys m else OMap.keys m ++ [k].
Proof.
  unfold OMap.has, OMap.keys.
  induction m as [|[k' v'] r IH]; simpl; auto.
  destruct (String.eqb k k') eqn:E; simpl; auto.
  rewrite IH. now destruct (OMap.get k r).
Qed.

Lemma wf_set k v m : OMap.wf m -> OMap.wf (OMap.set k v m).
Proof.
  unfold OMap.wf. intros H. rewrite keys_set.
  destruct (OMap.has k m) eqn:E; auto.
  unfold OMap.has in E.
  destruct (OMap.get k m) eqn:G; [discriminate|].
  apply get_None_keys in G.
  apply NoDup_app; auto.
  - repeat constructor. simpl. tauto.
  - intros x Hx [<-|[]]. auto.
Qed.



End Facts.

End OMapFacts.

(* ------------------------------------------------------------------ *)
(** ** Facts about the table store *)
(* ------------------------------------------------------------------ *)

Module BigtableFacts.
Import Js Bigtable Bigtable.Notations Aux.

Section Facts.
Context {Ext : Type}.
Implicit Types (w : World Ext) (row : BigtableRow) (table : BigtableTable).

(** *** How each operation runs *)

Lemma Date_now_run w : Date_now w = (inr (clock (tick w)), tick w).
Proof.
  unfold Date_now, tick. destruct (ticks w); [|reflexivity].
  now destruct w.
Qed.

Lemma geb_false (a b : Z) : (a >=? b) = false <-> a < b.
Proof. rewrite Z.geb_leb. apply Z.leb_gt. Qed.

Lemma clock_tick w : clock w <= clock (tick w).
Proof. unfold tick. destruct (ticks w); simpl; lia. Qed.

Lemma tables_tick w : tables (tick w) = tables w.
Proof. unfold tick. now destruct (ticks w). Qed.

Lemma ext_tick w : ext (tick w) = ext w.
Proof. unfold tick. now destruct (ticks w). Qed.

Lemma getTable_run w tableName :
  getTable tableName w
  = match OMap.get tableName (tables w) with
    | Some table => (inr table, w)
    | None => (inl (NotFound tableName), w)
    end.
Proof.
  unfold getTable, bind, get_tables, throw, ret.
  now destruct (OMap.get tableName (tables w)).
Qed.

Lemma getRow_run w tableName k :
  getRow tableName k w
  = match OMap.get tableName (tables w) with
    | Some table => (inr (OMap.get k (rows table)), w)
    | None => (inl (NotFound tableName), w)
    end.
Proof.
  unfold getRow, bind. rewrite getTable_run.
  now destruct (OMap.get tableName (tables w)).
Qed.

Lemma validateColumnFamilies_run w tableName table cols :
  validateColumnFamilies tableName table cols w
  = match first_invalid table cols with
    | Some c => (inl (InvalidColumnFamily (family_of c) tableName), w)
    | None => (inr tt, w)
    end.
Proof.
  unfold first_invalid.
  induction cols as [|c r IH]; simpl; [reflexivity|].
  destruct (negb (includes_str (columnFamilies table) (family_of c)));
    [reflexivity | exact IH].
Qed.

(** The time that [row.timestamp || Date.now()] gives and the world after
    it: the clock is read only for a missing or zero timestamp. *)
Lemma timestamp_or_now_run w (t : option Z) :
  timestamp_or_now t w
  = match t with
    | Some z => if z =? 0 then (inr (clock (tick w)), tick w) else (inr z, w)
    | None => (inr (clock (tick w)), tick w)
    end.
Proof.
  unfold timestamp_or_now. destruct t as [z|]; simpl.
  - destruct (z =? 0); simpl; [apply Date_now_run | reflexivity].
  - apply Date_now_run.
Qed.

Lemma upsertRow_run w tableName row :
  upsertRow tableName row w
  = match OMap.get tableName (tables w) with
    | None => (inl (NotFound tableName), w)
    | Some table =>
        if over_capacity table row
        then (inl (CapacityExceeded tableName), w)
        else
          match first_invalid table (OMap.keys (columns row)) with
          | Some c => (inl (InvalidColumnFamily (family_of c) tableName), w)
          | None =>
              match timestamp row with
              | Some z =>
                  if z =? 0
                  then (inr tt,
                        upserted (tick w) tableName table row (clock (tick w)))
                  else (inr tt, upserted w tableName table row z)
              | None =>
                  (inr tt,
                   upserted (tick w) tableName table row (clock (tick w)))
              end
          end
    end.
Proof.
  unfold upsertRow, bind at 1. rewrite getTable_run.
  destruct (OMap.get tableName (tables w)) as [table|]; [|reflexivity].
  unfold bind at 1. fold (over_capacity table row).
  destruct (over_capacity table row); [reflexivity|].
  unfold ret at 1. unfold bind at 1. rewrite validateColumnFamilies_run.
  destruct (first_invalid table (OMap.keys (columns row))); [reflexivity|].
  unfold bind at 1. rewrite timestamp_or_now_run.
  unfold rows_set, bind, get_tables, put_tables, upserted, with_tables,
    stored_row.
  destruct (timestamp row) as [z|]; [destruct (z =? 0)|]; reflexivity.
Qed.

(** A successful [upsertRow] stores [stored_row row ts] for some [ts]
    under the key of [row]. *)
Lemma upsertRow_success w tableName row w' :
  upsertRow tableName row w = (inr tt, w') ->
  exists table ts,
    OMap.get tableName (tables w) = Some table
    /\ over_capacity table row = false
    /\ first_invalid table (OMap.keys (columns row)) = None
    /\ (match timestamp row with
        | Some z =>
            if z =? 0 then ts = clock (tick w) /\ w' = upserted (tick w) tableName table row ts
            else ts = z /\ w' = upserted w tableName table row ts
        | None => ts = clock (tick w) /\ w' = upserted (tick w) tableName table row ts
        end).
Proof.
  rewrite upsertRow_run.
  destruct (OMap.get tableName (tables w)) as [table|]; [|discriminate].
  destruct (over_capacity table row) eqn:Hcap; [discriminate|].
  destruct (first_invalid table (OMap.keys (columns row))) eqn:Hinv;
    [discriminate|].
  destruct (timestamp row) as [z|]; [destruct (z =? 0) eqn:Hz|];
    intros [= <-]; eexists table, _; repeat split; auto.
Qed.

Lemma getRow_upserted w tableName table row ts :
  getRow tableName (rowKey row) (upserted w tableName table row ts)
  = (inr (Some (stored_row row ts)), upserted w tableName table row ts).
Proof.
  rewrite getRow_run. unfold upserted at 1, with_tables. simpl.
  rewrite OMapFacts.get_set_same. simpl.
  now rewrite OMapFacts.get_set_same.
Qed.


End Facts.

End BigtableFacts.

Module BigtableClaims.
Import Js Bigtable Bigtable.Notations Aux BigtableFacts.

Section Claims.
Context {Ext : Type}.
Implicit Types (w : World Ext) (row : BigtableRow) (table : BigtableTable).

(** C1, amended.  After a successful [upsertRow tableName row], [getRow]
    under the key of [row] returns a row with the key and exactly the
    columns of [row], whatever was stored under that key before, and with
    the timestamp of [row] when that is not zero; for a missing or zero
    timestamp it is a reading of the clock, not before the time of the
    call. *)
Theorem upsertRow_then_getRow w tableName row w' :
  upsertRow tableName row w = (inr tt, w') ->
  exists stored,
    getRow tableName (rowKey row) w' = (inr (Some stored), w')
    /\ rowKey stored = rowKey row
    /\ columns stored = columns row
    /\ timestamp_as_stored (timestamp row) (clock w) (timestamp stored).
Proof.
  intros H. apply upsertRow_success in H.
  destruct H as (table & ts & _ & _ & _ & H).
  exists (stored_row row ts).
  assert (Hget : forall w0, w' = upserted w0 tableName table row ts ->
            getRow tableName (rowKey row) w'
            = (inr (Some (stored_row row ts)), w')).
  { intros w0 ->. apply getRow_upserted. }
  unfold timestamp_as_stored.
  destruct (timestamp row) as [z|]; [destruct (z =? 0)|];
    destruct H as [-> Hw]; (split; [eapply Hget; exact Hw|]);
    repeat split; simpl; try reflexivity;
    eexists; (split; [reflexivity | apply clock_tick]).
Qed.

(** C10.  A successful [upsertRow] of a row whose timestamp is 0 stores
    the reading of the clock at the write; whatever the row, the stored
    timestamp is a non-zero timestamp of the caller or that reading. *)
Theorem upsertRow_falsy_timestamp w tableName row w' :
  upsertRow tableName row w = (inr tt, w') ->
  exists stored now,
    getRow tableName (rowKey row) w' = (inr (Some stored), w')
    /\ fst (Date_now w) = inr now
    /\ (timestamp row = Some 0 -> timestamp stored = Some now)
    /\ ((exists z, timestamp row = Some z /\ z <> 0
                   /\ timestamp stored = Some z)
        \/ timestamp stored = Some now).
Proof.
  intros H. apply upsertRow_success in H.
  destruct H as (table & ts & _ & _ & _ & H).
  exists (stored_row row ts), (clock (tick w)).
  rewrite Date_now_run. simpl.
  destruct (timestamp row) as [z|] eqn:Hts; [destruct (z =? 0) eqn:Hz|];
    destruct H as [-> ->]; (split; [apply getRow_upserted|]);
    (split; [reflexivity|]); split; auto; try discriminate.
  - intros [= ->]. discriminate.
  - left. exists z. repeat split. now apply Z.eqb_neq.
Qed.

(** C2.  In a table that holds the maximum number of rows, [upsertRow] of
    a row under a new key throws CapacityExceeded and leaves the world,
    and so the row count, as it was; under a key that the table has, it
    never throws CapacityExceeded, and with declared families only it
    succeeds and leaves the row count as it was. *)
Theorem upsertRow_at_capacity w tableName table row :
  OMap.get tableName (tables w) = Some table ->
  MAX_TABLE_SIZE <= OMap.size (rows table) ->
  (OMap.has (rowKey row) (rows table) = false ->
   upsertRow tableName row w = (inl (CapacityExceeded tableName), w))
  /\ (OMap.has (rowKey row) (rows table) = true ->
      (forall e w' name,
          upsertRow tableName row w = (inl e, w') ->
          e <> CapacityExceeded name)
      /\ (first_invalid table (OMap.keys (columns row)) = None ->
          exists w' table',
            upsertRow tableName row w = (inr tt, w')
            /\ OMap.get tableName (tables w') = Some table'
            /\ OMap.size (rows table') = OMap.size (rows table))).
Proof.
  intros Hget Hsize. rewrite upsertRow_run, Hget. unfold over_capacity.
  assert (Hge : (OMap.size (rows table) >=? MAX_TABLE_SIZE) = true)
    by (apply Z.geb_le; exact Hsize).
  rewrite Hge. simpl. split; intros Hhas; rewrite Hhas; simpl; [reflexivity|].
  split.
  - intros e w' name.
    destruct (first_invalid table (OMap.keys (columns row)));
      [intros [= <- _]; discriminate|].
    destruct (timestamp row) as [z|]; [destruct (z =? 0)|]; discriminate.
  - intros ->.
    assert (Hlen : forall ts,
               OMap.size (OMap.set (rowKey row) (stored_row row ts) (rows table))
               = OMap.size (rows table)).
    { intros ts. unfold OMap.size. rewrite OMapFacts.length_set.
      now rewrite Hhas. }
    destruct (timestamp row) as [z|]; [destruct (z =? 0)|];
      eexists _, _; (split; [reflexivity|]); unfold upserted, with_tables;
      simpl; rewrite OMapFacts.get_set_same; (split; [reflexivity|]);
      simpl; apply Hlen.
Qed.

(** C3, amended.  [upsertRow] of a row with a column whose family the
    table does not declare throws and leaves the world as it was, so that
    nothing of the row is stored and the row already under its key stays:
    it throws CapacityExceeded when the table is full and the key is new,
    and otherwise InvalidColumnFamily, naming the family of the first
    column of the row whose family the table does not declare. *)
Theorem upsertRow_invalid_family w tableName table row column :
  OMap.get tableName (tables w) = Some table ->
  In column (OMap.keys (columns row)) ->
  includes_str (columnFamilies table) (family_of column) = false ->
  exists e,
    upsertRow tableName row w = (inl e, w)
    /\ (if over_capacity table row then e = CapacityExceeded tableName
        else exists c,
            first_invalid table (OMap.keys (columns row)) = Some c
            /\ In c (OMap.keys (columns row))
            /\ includes_str (columnFamilies table) (family_of c) = false
            /\ e = InvalidColumnFamily (family_of c) tableName)
    /\ getRow tableName (rowKey row) w
       = (inr (OMap.get (rowKey row) (rows table)), w).
Proof.
  intros Hget Hin Hbad. rewrite upsertRow_run, getRow_run, Hget.
  destruct (over_capacity table row).
  - eexists. repeat split.
  - destruct (first_invalid table (OMap.keys (columns row))) as [c|] eqn:Hf.
    + assert (Hf' := Hf). unfold first_invalid in Hf'.
      apply find_some in Hf'.
      destruct Hf' as [Hc Hneg]. apply negb_true_iff in Hneg.
      eexists. split; [reflexivity|]. split; [|reflexivity].
      exists c. auto.
    + unfold first_invalid in Hf.
      apply (find_none _ _ Hf) in Hin. rewrite Hbad in Hin. discriminate.
Qed.

(** The loop of [query] for a query that gives only a start key and a
    non-empty end key: it appends the rows whose keys are in the closed
    range. *)
Lemma query_loop_range s e entries acc :
  e <> "" ->
  query_loop (range_query s e) entries acc
  = acc ++ map snd (filter (fun kv => in_range s e (fst kv)) entries).
Proof.
  intros He. revert acc.
  assert (Hskip : forall k,
             skipped_by_key (range_query s e) k = negb (in_range s e k)).
  { intros k. unfold skipped_by_key, in_range, range_query. simpl.
    assert (Ht : negb (String.eqb e "") = true)
      by (apply negb_true_iff, String.eqb_neq; exact He).
    rewrite Ht. simpl.
    destruct (String.eqb s "") eqn:Hs; simpl.
    - apply String.eqb_eq in Hs. subst s.
      assert (Hk : String.ltb k "" = false).
      { unfold String.ltb. now destruct k. }
      rewrite Hk. simpl. now rewrite negb_involutive.
    - rewrite negb_andb, !negb_involutive. reflexivity. }
  induction entries as [|[k r] rest IH]; intros acc; simpl.
  - now rewrite app_nil_r.
  - rewrite Hskip. destruct (in_range s e k); simpl.
    + unfold limit_reached. simpl. rewrite IH. now rewrite <- app_assoc.
    + apply IH.
Qed.

(** C4, amended.  For a start key and a non-empty end key, [query]
    returns, in the order of the table, exactly the rows whose key is
    neither below the start key nor above the end key; over the keys a,
    b, c, d, e, the bounds b and d give the rows under b, c and d. *)
Theorem query_range_inclusive :
  (forall w tableName table s e,
      OMap.get tableName (tables w) = Some table ->
      e <> "" ->
      query tableName (range_query s e) w
      = (inr (map snd (filter (fun kv => in_range s e (fst kv)) (rows table))),
         w))
  /\ (forall w tableName table ra rb rc rd re,
         OMap.get tableName (tables w) = Some table ->
         rows table = [("a", ra); ("b", rb); ("c", rc); ("d", rd); ("e", re)] ->
         query tableName (range_query "b" "d") w = (inr [rb; rc; rd], w)).
Proof.
  assert (G : forall w tableName table s e,
             OMap.get tableName (tables w) = Some table ->
             e <> "" ->
             query tableName (range_query s e) w
             = (inr (map snd (filter (fun kv => in_range s e (fst kv))
                                (rows table))), w)).
  { intros w tableName table s e Hget He.
    unfold query, bind. rewrite getTable_run, Hget. unfold ret.
    now rewrite query_loop_range. }
  split; [exact G|].
  intros w tableName table ra rb rc rd re Hget Hrows.
  rewrite (G w tableName table) by (auto; discriminate).
  rewrite Hrows. reflexivity.
Qed.

End Claims.

(** *** The claims at concrete inputs *)

Import Examples.

Lemma upsertRow_then_getRow_witness :
  exists stored,
    getRow "t" "r" (upserted w_small "t" (mkTable "t" [] ["f"]) row_stamped 42)
    = (inr (Some stored),
       upserted w_small "t" (mkTable "t" [] ["f"]) row_stamped 42)
    /\ rowKey stored = "r"
    /\ columns stored = [("f:a", cell_one)]
    /\ timestamp_as_stored (Some 42) 1000 (timestamp stored).
Proof.
  apply (upsertRow_then_getRow w_small "t" row_stamped). reflexivity.
Defined.

(** C1 as stated fails for a supplied timestamp 0: the row is stored
    with the reading of the clock, 1005, and not with the 0 that the
    caller supplied. *)
Lemma upsertRow_zero_timestamp_replaced :
  exists w' stored,
    upsertRow "t" row_zero w_small = (inr tt, w')
    /\ getRow "t" (rowKey row_zero) w' = (inr (Some stored), w')
    /\ timestamp stored = Some 1005
    /\ ~ timestamp_as_claimed (timestamp row_zero) (clock w_small)
         (timestamp stored).
Proof.
  eexists _, _. split; [reflexivity|]. split; [reflexivity|].
  split; [reflexivity|]. simpl. discriminate.
Defined.

Lemma upsertRow_falsy_timestamp_witness :
  exists stored now,
    getRow "t" "r" (upserted (tick w_small) "t" (mkTable "t" [] ["f"]) row_zero 1005)
    = (inr (Some stored),
       upserted (tick w_small) "t" (mkTable "t" [] ["f"]) row_zero 1005)
    /\ fst (Date_now w_small) = inr now
    /\ (timestamp row_zero = Some 0 -> timestamp stored = Some now)
    /\ ((exists z, timestamp row_zero = Some z /\ z <> 0
                   /\ timestamp stored = Some z)
        \/ timestamp stored = Some now).
Proof.
  apply (upsertRow_falsy_timestamp w_small "t" row_zero). reflexivity.
Defined.

(** The full table: its size, and which of the example keys it has. *)
Lemma full_table_size : MAX_TABLE_SIZE <= OMap.size (rows full_table).
Proof. vm_compute. discriminate. Qed.

Lemma full_table_has_not_new : OMap.has "new" (rows full_table) = false.
Proof. vm_compute. reflexivity. Qed.

Lemma full_table_has_17 : OMap.has "17" (rows full_table) = true.
Proof. vm_compute. reflexivity. Qed.

Lemma upsertRow_at_capacity_witness :
  upsertRow "big" row_fresh w_full = (inl (CapacityExceeded "big"), w_full)
  /\ exists w' table',
      upsertRow "big" row_known w_full = (inr tt, w')
      /\ OMap.get "big" (tables w') = Some table'
      /\ OMap.size (rows table') = OMap.size (rows full_table).
Proof.
  split.
  - exact (proj1 (upsertRow_at_capacity w_full "big" full_table row_fresh
                    eq_refl full_table_size) full_table_has_not_new).
  - exact (proj2 (proj2 (upsertRow_at_capacity w_full "big" full_table
                           row_known eq_refl full_table_size)
                    full_table_has_17) eq_refl).
Defined.

Lemma upsertRow_invalid_family_witness :
  exists e,
    upsertRow "t" row_bad_family w_small = (inl e, w_small)
    /\ (if over_capacity (mkTable "t" [] ["f"]) row_bad_family
        then e = CapacityExceeded "t"
        else exists c,
            first_invalid (mkTable "t" [] ["f"])
              (OMap.keys (columns row_bad_family)) = Some c
            /\ In c (OMap.keys (columns row_bad_family))
            /\ includes_str ["f"] (family_of c) = false
            /\ e = InvalidColumnFamily (family_of c) "t")
    /\ getRow "t" "r" w_small = (inr None, w_small).
Proof.
  apply (upsertRow_invalid_family w_small "t" (mkTable "t" [] ["f"])
           row_bad_family "g:b" eq_refl).
  - simpl. auto.
  - reflexivity.
Defined.

(** C3 as stated fails for a full table and a new key: the call throws
    CapacityExceeded, not InvalidColumnFamily, although the family [g] of
    the column of the row is not declared. *)
Lemma upsertRow_full_table_invalid_family :
  In "g:b" (OMap.keys (columns row_fresh_bad))
  /\ includes_str (columnFamilies full_table) (family_of "g:b") = false
  /\ upsertRow "big" row_fresh_bad w_full
     = (inl (CapacityExceeded "big"), w_full)
  /\ forall f, CapacityExceeded "big" <> InvalidColumnFamily f "big".
Proof.
  split; [simpl; auto|]. split; [reflexivity|]. split; [|discriminate].
  rewrite upsertRow_run.
  change (OMap.get "big" (tables w_full)) with (Some full_table).
  cbv iota beta.
  assert (H : over_capacity full_table row_fresh_bad = true).
  { unfold over_capacity. change (rowKey row_fresh_bad) with "new".
    rewrite full_table_has_not_new.
    apply andb_true_intro. split; [|reflexivity].
    apply Z.geb_le. exact full_table_size. }
  rewrite H. reflexivity.
Defined.

Lemma query_range_inclusive_witness :
  query "t" (range_query "b" "d") w_letters
  = (inr (map snd (map keyed ["b"; "c"; "d"])), w_letters).
Proof.
  apply (proj1 query_range_inclusive w_letters "t"
           (mkTable "t" (map keyed ["a"; "b"; "c"; "d"; "e"]) ["f"])
           "b" "d" eq_refl).
  discriminate.
Defined.

(** C4 as stated fails for an empty end key: the key [c] is above the end
    key, and the row under it is returned all the same. *)
Lemma query_empty_endKey_unbounded :
  String.ltb "" "c" = true
  /\ in_range "b" "" "c" = false
  /\ exists r,
      OMap.get "c" (map keyed ["a"; "b"; "c"; "d"; "e"]) = Some r
      /\ query "t" (range_query "b" "") w_letters
         = (inr (map snd (map keyed ["b"; "c"; "d"; "e"])), w_letters)
      /\ In r (map snd (map keyed ["b"; "c"; "d"; "e"])).
Proof.
  split; [reflexivity|]. split; [reflexivity|].
  eexists. split; [reflexivity|]. split; [reflexivity|].
  simpl. auto.
Defined.

End BigtableClaims.

(* ------------------------------------------------------------------ *)
(** ** Facts about the index layer *)
(* ------------------------------------------------------------------ *)

Module BlobIndexFacts.
Import Js Bigtable Bigtable.Notations BlobIndex Aux BigtableFacts.

(** *** Strings *)

Lemma prefix_append p s : String.prefix p (p +s+ s) = true.
Proof.
  induction p as [|c p IH]; simpl.
  - now destruct s.
  - destruct (ascii_dec c c); [exact IH | congruence].
Qed.

Lemma substring_from_append p s :
  substring_from (String.length p) (p +s+ s) = s.
Proof. induction p as [|c p IH]; simpl; auto. Qed.

Lemma startsWith_split p c :
  startsWith p c = true -> c = p +s+ substring_from (String.length p) c.
Proof.
  unfold startsWith. revert c.
  induction p as [|a p IH]; intros c; simpl.
  - now destruct c.
  - destruct c as [|b c]; simpl; [discriminate|].
    destruct (ascii_dec a b); [|discriminate].
    intros H. subst b. f_equal. auto.
Qed.

Lemma append_inj p a b : p +s+ a = p +s+ b -> a = b.
Proof. induction p; simpl; intros H; [auto | injection H; auto]. Qed.

(** *** Cell values *)

Lemma values_of_set k c cols :
  values_of (OMap.set k c cols) = OMap.set k (Bigtable.value c) (values_of cols).
Proof.
  induction cols as [|[k' c'] r IH]; simpl; auto.
  destruct (String.eqb k k'); simpl; auto. now rewrite IH.
Qed.

Lemma get_values_of k cols :
  OMap.get k (values_of cols) = option_map Bigtable.value (OMap.get k cols).
Proof.
  induction cols as [|[k' c'] r IH]; simpl; auto.
  now destruct (String.eqb k k').
Qed.

Lemma keys_values_of cols : OMap.keys (values_of cols) = OMap.keys cols.
Proof.
  unfold OMap.keys, values_of. rewrite map_map. reflexivity.
Qed.

(** *** The cell values of an index row *)

Lemma get_set_all_prefix pre g l acc f :
  OMap.wf l ->
  OMap.get (pre +s+ f) (set_all pre g l acc)
  = match OMap.get f l with
    | Some v => Some (g v)
    | None => OMap.get (pre +s+ f) acc
    end.
Proof.
  unfold set_all, OMap.wf, OMap.keys.
  revert acc. induction l as [|[n v] r IH]; intros acc Hnd; simpl; auto.
  inversion Hnd as [|? ? Hnotin Hnd']; subst.
  rewrite IH by assumption.
  destruct (String.eqb f n) eqn:E.
  - apply String.eqb_eq in E. subst n.
    assert (G : OMap.get f r = None)
      by (apply OMapFacts.get_None_keys; exact Hnotin).
    rewrite G. apply OMapFacts.get_set_same.
  - destruct (OMap.get f r); auto.
    apply OMapFacts.get_set_other. intros H. apply append_inj in H.
    apply String.eqb_neq in E. congruence.
Qed.

Lemma get_set_all_other pre g l acc k :
  (forall n, k <> pre +s+ n) ->
  OMap.get k (set_all pre g l acc) = OMap.get k acc.
Proof.
  unfold set_all. intros Hk. revert acc.
  induction l as [|[n v] r IH]; intros acc; simpl; auto.
  rewrite IH. apply OMapFacts.get_set_other. intros H. now apply (Hk n).
Qed.

Lemma Forall_keys_set {V} (P : string -> Prop) k (v : V) m :
  P k -> Forall P (OMap.keys m) -> Forall P (OMap.keys (OMap.set k v m)).
Proof.
  intros Hk Hm. rewrite OMapFacts.keys_set.
  destruct (OMap.has k m); auto.
  apply Forall_app. auto.
Qed.

Lemma Forall_keys_set_all (P : string -> Prop) pre g l acc :
  (forall n, P (pre +s+ n)) ->
  Forall P (OMap.keys acc) -> Forall P (OMap.keys (set_all pre g l acc)).
Proof.
  unfold set_all. intros Hp. revert acc.
  induction l as [|[n v] r IH]; intros acc Hacc; simpl; auto.
  apply IH. apply Forall_keys_set; auto.
Qed.

Lemma wf_set_all pre g l acc : OMap.wf acc -> OMap.wf (set_all pre g l acc).
Proof.
  unfold set_all. revert acc.
  induction l as [|[n v] r IH]; intros acc Hacc; simpl; auto.
  apply IH. now apply OMapFacts.wf_set.
Qed.

(** Every column that [indexBlobMetadata] writes is of one of the three
    families of the index table. *)
Lemma index_values_families m :
  Forall (fun k => In (family_of k) index_families)
         (OMap.keys (index_values m)).
Proof.
  unfold index_values.
  set (v0 := [("metadata:contentType", contentType m); _; _; _]).
  assert (H0 : Forall (fun k => In (family_of k) index_families)
                 (OMap.keys v0)).
  { unfold v0. simpl. repeat constructor; simpl; auto. }
  assert (H1 : Forall (fun k => In (family_of k) index_families)
                 (OMap.keys (set_all "metadata:tag_" (fun v => v) (tags m) v0))).
  { apply Forall_keys_set_all; auto. intros n. simpl. auto. }
  destruct (indexedFields m) as [fields|]; auto.
  assert (H2 : Forall (fun k => In (family_of k) index_families)
                 (OMap.keys (set_all "index:" index_value fields
                    (set_all "metadata:tag_" (fun v => v) (tags m) v0)))).
  { apply Forall_keys_set_all; auto. intros n. simpl. auto. }
  destruct (get_prop (VObj fields) "keywords"); auto.
  simpl truthy. cbv iota. apply Forall_keys_set; auto. simpl. auto.
Qed.

Lemma index_values_wf m : OMap.wf (index_values m).
Proof.
  unfold index_values.
  set (v0 := [("metadata:contentType", contentType m); _; _; _]).
  assert (H0 : OMap.wf v0).
  { unfold v0, OMap.wf. simpl.
    repeat constructor; simpl; intuition discriminate. }
  assert (H1 := wf_set_all "metadata:tag_" (fun v => v) (tags m) v0 H0).
  destruct (indexedFields m) as [fields|]; auto.
  assert (H2 := wf_set_all "index:" index_value fields _ H1).
  destruct (get_prop (VObj fields) "keywords"); auto.
  simpl truthy. cbv iota. now apply OMapFacts.wf_set.
Qed.

(** The [index:] columns hold the indexed fields, each as [index_value]
    writes it, and nothing else. *)
Lemma get_index_values m f :
  match indexedFields m with Some fields => OMap.wf fields | None => True end ->
  OMap.get ("index:" +s+ f) (index_values m)
  = match indexedFields m with
    | Some fields => option_map index_value (OMap.get f fields)
    | None => None
    end.
Proof.
  unfold index_values.
  set (v0 := [("metadata:contentType", contentType m); _; _; _]).
  assert (H1 : OMap.get ("index:" +s+ f)
                 (set_all "metadata:tag_" (fun v => v) (tags m) v0) = None).
  { rewrite get_set_all_other; [reflexivity|].
    intros n H. simpl in H. discriminate. }
  destruct (indexedFields m) as [fields|]; intros Hwf; [|exact H1].
  assert (H2 : OMap.get ("index:" +s+ f)
                 (set_all "index:" index_value fields
                    (set_all "metadata:tag_" (fun v => v) (tags m) v0))
               = option_map index_value (OMap.get f fields)).
  { rewrite get_set_all_prefix by assumption. rewrite H1.
    now destruct (OMap.get f fields). }
  destruct (get_prop (VObj fields) "keywords"); auto.
  simpl truthy. cbv iota. rewrite OMapFacts.get_set_other; auto.
  intros H. simpl in H. discriminate.
Qed.

(** A table that declares the three families accepts every column of an
    index row. *)
Lemma first_invalid_index_values table m cols :
  index_table_ok table = true ->
  values_of cols = index_values m ->
  first_invalid table (OMap.keys cols) = None.
Proof.
  intros Hok Hv. unfold first_invalid.
  rewrite <- keys_values_of, Hv.
  generalize (OMap.keys (index_values m)) (index_values_families m).
  intros ks. induction ks as [|k ks IH]; intros Hf; simpl; auto.
  inversion Hf as [|? ? Hk Hks]; subst.
  assert (E : includes_str (columnFamilies table) (family_of k) = true).
  { unfold index_table_ok in Hok. rewrite forallb_forall in Hok. auto. }
  rewrite E. simpl. auto.
Qed.

(** An assignment by name: the name [__proto__] is never bound by it,
    any other name is bound as [OMap.set] binds it. *)
Lemma get_assign_key_proto {V} k (v : V) (m : OMap.t V) :
  OMap.get "__proto__" (OMap.assign_key k v m) = OMap.get "__proto__" m.
Proof.
  unfold OMap.assign_key. destruct (String.eqb k "__proto__") eqn:E; auto.
  apply OMapFacts.get_set_other. intros H. subst k. discriminate E.
Qed.

Lemma assign_key_set {V} k (v : V) (m : OMap.t V) :
  k <> "__proto__" -> OMap.assign_key k v m = OMap.set k v m.
Proof.
  intros H. unfold OMap.assign_key.
  apply String.eqb_neq in H. now rewrite H.
Qed.

Lemma wf_assign_key {V} k (v : V) (m : OMap.t V) :
  OMap.wf m -> OMap.wf (OMap.assign_key k v m).
Proof.
  intros H. unfold OMap.assign_key.
  destruct (String.eqb k "__proto__"); [exact H|].
  now apply OMapFacts.wf_set.
Qed.

(** What a loop of assignments [acc[name] = g(v)], over the entries
    [pre + name] of [vals], leaves under the name [f]. *)
Lemma get_assign_fold pre (g : JsValue -> JsValue) vals (acc : obj) f :
  OMap.wf vals ->
  OMap.get f
    (fold_left
       (fun (acc : obj) (e : string * JsValue) =>
          if startsWith pre (fst e)
          then OMap.assign_key (substring_from (String.length pre) (fst e))
                 (g (snd e)) acc
          else acc)
       vals acc)
  = if String.eqb f "__proto__" then OMap.get f acc
    else match OMap.get (pre +s+ f) vals with
         | Some v => Some (g v)
         | None => OMap.get f acc
         end.
Proof.
  unfold OMap.wf, OMap.keys.
  revert acc. induction vals as [|[c v] r IH]; intros acc Hnd.
  - cbn [fold_left OMap.get]. now destruct (String.eqb f "__proto__").
  - cbn [fold_left fst snd map] in *.
    inversion Hnd as [|? ? Hnotin Hnd']; subst.
    rewrite IH by assumption. cbn [OMap.get].
    destruct (String.eqb f "__proto__") eqn:P.
    + apply String.eqb_eq in P. subst f.
      destruct (startsWith pre c); auto. apply get_assign_key_proto.
    + apply String.eqb_neq in P.
      destruct (String.eqb (pre +s+ f) c) eqn:E.
      * apply String.eqb_eq in E. subst c.
        assert (G : OMap.get (pre +s+ f) r = None)
          by (apply OMapFacts.get_None_keys; exact Hnotin).
        rewrite G.
        unfold startsWith. rewrite prefix_append, substring_from_append.
        rewrite assign_key_set by exact P.
        apply OMapFacts.get_set_same.
      * destruct (OMap.get (pre +s+ f) r); auto.
        destruct (startsWith pre c) eqn:S; auto.
        unfold OMap.assign_key.
        destruct (String.eqb (substring_from (String.length pre) c)
                    "__proto__"); auto.
        apply OMapFacts.get_set_other. intros H.
        apply startsWith_split in S. apply String.eqb_neq in E.
        apply E. rewrite S. now rewrite H.
Qed.

(** The indexed fields read off a row: the field [f] is the parsed value
    of the column [index:f], and there is no field [__proto__]. *)
Lemma get_fields_of_values vals f :
  OMap.wf vals ->
  OMap.get f (fields_of_values vals)
  = if String.eqb f "__proto__" then None
    else option_map parse_if_json (OMap.get ("index:" +s+ f) vals).
Proof.
  intros H. unfold fields_of_values.
  rewrite (get_assign_fold "index:" parse_if_json) by assumption.
  destruct (String.eqb f "__proto__"); [reflexivity|].
  now destruct (OMap.get ("index:" +s+ f) vals).
Qed.

(** The tags read off a row: the tag [t] is the value of the column
    [metadata:tag_t], and there is no tag [__proto__]. *)
Lemma get_tags_of_values vals t :
  OMap.wf vals ->
  OMap.get t (tags_of_values vals)
  = if String.eqb t "__proto__" then None
    else OMap.get ("metadata:tag_" +s+ t) vals.
Proof.
  intros H. unfold tags_of_values.
  rewrite (get_assign_fold "metadata:tag_" (fun v => v)) by assumption.
  destruct (String.eqb t "__proto__"); [reflexivity|].
  now destruct (OMap.get ("metadata:tag_" +s+ t) vals).
Qed.

Section Facts.
Context {Ext : Type}.
Implicit Types (w : World Ext) (row : BigtableRow) (m : IndexedBlobMetadata).

(** *** Running the monad *)

Lemma bind_run {A B} (c : Bigtable.M Ext A) (f : A -> Bigtable.M Ext B) w a w' :
  c w = (inr a, w') -> bind c f w = f a w'.
Proof. unfold bind. now intros ->. Qed.

Lemma bind_throw {A B} (c : Bigtable.M Ext A) (f : A -> Bigtable.M Ext B) w e w' :
  c w = (inl e, w') -> bind c f w = (inl e, w').
Proof. unfold bind. now intros ->. Qed.

Lemma later_refl w : later w w.
Proof. unfold later. repeat split. lia. Qed.

Lemma later_trans w1 w2 w3 : later w1 w2 -> later w2 w3 -> later w1 w3.
Proof.
  unfold later. intros (H1 & H2 & H3) (H4 & H5 & H6).
  repeat split; try congruence. lia.
Qed.

Lemma later_tick w : later w (tick w).
Proof.
  unfold later. split; [apply tables_tick|].
  split; [apply ext_tick | apply clock_tick].
Qed.

Lemma cell_now_run v w :
  cell_now v w = (inr (mkCell v (clock (tick w))), tick w).
Proof. unfold cell_now, bind. now rewrite Date_now_run. Qed.

(** The loops of [indexBlobMetadata] over tags and over indexed fields:
    they never throw, only read the clock, and their cell values are
    those of [set_all]. *)
Lemma forEach_cells pre g (l : list (string * JsValue)) cols w :
  exists cols' w',
    forEach
      (fun cols (e : string * JsValue) =>
         let (n, v) := e in
         c <- cell_now (g v) ;;
         ret (OMap.set (pre +s+ n) c cols))
      l cols w = (inr cols', w')
    /\ values_of cols' = set_all pre g l (values_of cols)
    /\ later w w'.
Proof.
  revert cols w. induction l as [|[n v] r IH]; intros cols w; simpl.
  - exists cols, w. repeat split. apply later_refl.
  - unfold bind at 1. unfold bind at 1. rewrite cell_now_run. unfold ret at 1.
    destruct (IH (OMap.set (pre +s+ n) (mkCell (g v) (clock (tick w))) cols)
                 (tick w)) as (cols' & w' & Hrun & Hvals & Hlater).
    exists cols', w'. split; [exact Hrun|]. split.
    + rewrite Hvals, values_of_set. reflexivity.
    + eapply later_trans; [apply later_tick | exact Hlater].
Qed.


(** [indexBlobMetadata] reads the clock, builds a row with the key of the
    metadata and the cell values [index_values], and upserts it. *)
Lemma indexBlobMetadata_run m w :
  exists row w1,
    indexBlobMetadata m w = upsertRow BLOB_INDEX_TABLE row w1
    /\ later w w1
    /\ rowKey row = key m
    /\ values_of (columns row) = index_values m
    /\ timestamp row = Some (clock (tick w)).
Proof.
  unfold indexBlobMetadata.
  rewrite (bind_run _ _ _ _ _ (Date_now_run w)).
  do 4 rewrite (bind_run _ _ _ _ _ (cell_now_run _ _)).
  set (w4 := tick (tick (tick (tick (tick w))))).
  assert (L4 : later w w4).
  { unfold w4. repeat (eapply later_trans; [|apply later_tick]).
    apply later_refl. }
  match goal with
  | |- context [forEach ?f (tags m) ?c0] =>
      destruct (forEach_cells "metadata:tag_" (fun v => v) (tags m) c0 w4)
        as (cols1 & w5 & R1 & V1 & L5)
  end.
  rewrite (bind_run _ _ _ _ _ R1).
  assert (L : later w w5) by (eapply later_trans; eassumption).
  unfold index_values.
  destruct (indexedFields m) as [fields|].
  - destruct (forEach_cells "index:" index_value fields cols1 w5)
      as (cols2 & w6 & R2 & V2 & L6).
    rewrite (bind_run _ _ _ _ _ R2).
    assert (L' : later w w6) by (eapply later_trans; eassumption).
    (* no [content:keywords] column: the row is the one built so far *)
    assert (Hplain :
      exists row w1,
        (columns3 <- ret cols2 ;;
         upsertRow BLOB_INDEX_TABLE
           (mkRow (key m) columns3 (Some (clock (tick w))))) w6
        = upsertRow BLOB_INDEX_TABLE row w1
        /\ later w w1 /\ rowKey row = key m
        /\ values_of (columns row)
           = set_all "index:" index_value fields
               (set_all "metadata:tag_" (fun v => v) (tags m)
                  [("metadata:contentType", contentType m);
                   ("metadata:size", size m);
                   ("metadata:createdAt", createdAt m);
                   ("metadata:checksum", or_else (checksum m) (VStr ""))])
        /\ timestamp row = Some (clock (tick w))).
    { eexists _, w6. unfold bind, ret. split; [reflexivity|].
      split; [exact L'|]. split; [reflexivity|]. split; [|reflexivity].
      simpl columns. now rewrite V2, V1. }
    destruct (get_prop (VObj fields) "keywords") as [| |b|z|t|l|o|x] eqn:K;
      simpl truthy; cbv iota; try exact Hplain.
    + destruct b; exact Hplain.
    + destruct (negb (z =? 0)); exact Hplain.
    + destruct (negb (String.eqb t "")); exact Hplain.
    + rewrite (bind_run _ _ _ _ _
                 (bind_run _ _ _ _ _ (cell_now_run _ _))).
      eexists _, (tick w6). split; [reflexivity|].
      split; [eapply later_trans; [exact L' | apply later_tick]|].
      split; [reflexivity|]. split; [|reflexivity].
      simpl columns. now rewrite values_of_set, V2, V1.
    + destruct x; exact Hplain.
  - unfold ret at 1. unfold bind at 1. simpl truthy. cbv iota.
    unfold bind at 1, ret at 1.
    eexists _, w5. split; [reflexivity|].
    split; [exact L|].
    split; [reflexivity|]. split; [|reflexivity].
    simpl columns. now rewrite V1.
Qed.


(** An index row is accepted by a table that declares the three
    families and has room for it: the call returns, and the world is the
    one in which [upsertRow] has stored the row. *)
Lemma indexBlobMetadata_success m w table :
  OMap.get BLOB_INDEX_TABLE (tables w) = Some table ->
  index_table_ok table = true ->
  OMap.size (rows table) < MAX_TABLE_SIZE
  \/ OMap.has (key m) (rows table) = true ->
  exists row w1 ts,
    indexBlobMetadata m w
    = (inr tt, upserted w1 BLOB_INDEX_TABLE table row ts)
    /\ later w w1
    /\ rowKey row = key m
    /\ values_of (columns row) = index_values m.
Proof.
  intros Hget Hok Hroom.
  destruct (indexBlobMetadata_run m w)
    as (row & w1 & Hrun & Hl & Hkey & Hvals & Hts).
  rewrite Hrun, upsertRow_run.
  destruct Hl as (Ht & He & Hc). rewrite Ht, Hget.
  assert (Hcap : over_capacity table row = false).
  { unfold over_capacity. rewrite Hkey. destruct Hroom as [H|H].
    - assert (E : (OMap.size (rows table) >=? MAX_TABLE_SIZE) = false)
        by (apply geb_false; lia).
      now rewrite E.
    - rewrite H. apply andb_false_r. }
  rewrite Hcap, (first_invalid_index_values table m) by assumption.
  rewrite Hts.
  destruct (clock (tick w) =? 0).
  - exists row, (tick w1), (clock (tick w1)). split; [reflexivity|].
    split; [|auto].
    eapply later_trans; [|apply later_tick]. repeat split; auto.
  - exists row, w1, (clock (tick w)). split; [reflexivity|].
    repeat split; auto.
Qed.

(** The two loops of [rowToIndexedMetadata] see only the cell values. *)
Lemma fields_fold_values cols (acc : obj) :
  fold_left
    (fun (acc : obj) (e : string * BigtableCell) =>
       let (column, cell) := e in
       if startsWith "index:" column then
         let fieldName := substring_from (String.length "index:") column in
         OMap.assign_key fieldName (parse_if_json (Bigtable.value cell)) acc
       else acc)
    cols acc
  = fold_left
      (fun (acc : obj) (e : string * JsValue) =>
         if startsWith "index:" (fst e)
         then OMap.assign_key
                (substring_from (String.length "index:") (fst e))
                (parse_if_json (snd e)) acc
         else acc)
      (values_of cols) acc.
Proof.
  revert acc. induction cols as [|[c v] r IH]; intros acc; [reflexivity|].
  cbn [fold_left values_of map fst snd]. apply IH.
Qed.

(** [rowToIndexedMetadata] never throws; it keeps the key of the row and
    reads the indexed fields off its [index:] columns. *)
Lemma rowToIndexedMetadata_run row w :
  exists m' w',
    rowToIndexedMetadata row w = (inr m', w')
    /\ later w w'
    /\ key m' = rowKey row
    /\ indexedFields m'
       = Some (fields_of_values (values_of (columns row))).
Proof.
  unfold rowToIndexedMetadata, fields_of_values.
  rewrite fields_fold_values.
  cbv zeta.
  destruct (truthy (value_of (ToNumber (column_value row "metadata:createdAt")))).
  - unfold bind, ret. eexists _, w. repeat split. apply later_refl.
  - unfold bind at 1. rewrite (bind_run _ _ _ _ _ (Date_now_run w)).
    unfold ret.
    eexists _, (tick w). repeat split; apply later_tick.
Qed.

Lemma map_rows_run rs w :
  exists ms w',
    map_rows rs w = (inr ms, w') /\ later w w' /\ Forall2 reconstructs rs ms.
Proof.
  revert w. induction rs as [|r rs IH]; intros w.
  - exists [], w. repeat split; [apply later_refl | constructor].
  - destruct (rowToIndexedMetadata_run r w) as (m' & w1 & R & L & K & F).
    destruct (IH w1) as (ms & w2 & R2 & L2 & F2).
    exists (m' :: ms), w2. cbn [map_rows].
    rewrite (bind_run _ _ _ _ _ R), (bind_run _ _ _ _ _ R2).
    unfold ret. split; [reflexivity|].
    split; [eapply later_trans; eauto|].
    constructor; [split; assumption | assumption].
Qed.

(** *** The scan of [searchBlobs] *)

Lemma scan_limit_nonzero options : scan_limit options <> 0.
Proof.
  unfold scan_limit. destruct (opt_limit options) as [n|]; [|discriminate].
  simpl. destruct (n =? 0) eqn:E; simpl; [discriminate|].
  now apply Z.eqb_neq.
Qed.

Lemma query_loop_limit_pos n entries acc :
  0 < n ->
  Z.of_nat (List.length acc) < n ->
  query_loop (mkQuery None None None (Some n) None None) entries acc
  = acc ++ firstn (Z.to_nat n - List.length acc) (OMap.values entries).
Proof.
  intros Hn. revert acc.
  induction entries as [|[k row] rest IH]; intros acc Hacc.
  - cbn [query_loop OMap.values map]. rewrite firstn_nil.
    now rewrite app_nil_r.
  - cbn [query_loop OMap.values map snd].
    change (skipped_by_key (mkQuery None None None (Some n) None None) k)
      with false.
    cbv iota. cbn [given q_columnFamilies q_columns orb].
    unfold limit_reached. cbn [limit truthy].
    assert (Hnz : negb (n =? 0) = true)
      by (apply negb_true_iff, Z.eqb_neq; lia).
    rewrite Hnz. cbn [andb].
    rewrite length_app. cbn [List.length].
    destruct (Z.of_nat (List.length acc + 1) >=? n) eqn:E.
    + apply Z.geb_le in E.
      replace (Z.to_nat n - List.length acc)%nat with 1%nat by lia.
      cbn [firstn]. reflexivity.
    + apply geb_false in E.
      rewrite IH by (rewrite length_app; cbn [List.length]; lia).
      rewrite length_app. cbn [List.length].
      replace (Z.to_nat n - List.length acc)%nat
        with (S (Z.to_nat n - (List.length acc + 1)))%nat by lia.
      cbn [firstn]. now rewrite <- app_assoc.
Qed.

Lemma query_loop_limit_neg n entries :
  n < 0 ->
  query_loop (mkQuery None None None (Some n) None None) entries []
  = firstn 1 (OMap.values entries).
Proof.
  intros Hn. destruct entries as [|[k row] rest]; [reflexivity|].
  cbn [query_loop OMap.values map snd].
  change (skipped_by_key (mkQuery None None None (Some n) None None) k)
    with false.
  cbv iota. cbn [given q_columnFamilies q_columns orb].
  unfold limit_reached. cbn [limit truthy app List.length].
  assert (Hnz : negb (n =? 0) = true)
    by (apply negb_true_iff, Z.eqb_neq; lia).
  assert (E : (Z.of_nat 1 >=? n) = true) by (apply Z.geb_le; lia).
  rewrite Hnz, E. reflexivity.
Qed.

(** The scan returns the first rows of the table, up to the limit, before
    any field of the query is looked at. *)
Lemma scan_run options w table :
  OMap.get BLOB_INDEX_TABLE (tables w) = Some table ->
  Bigtable.query BLOB_INDEX_TABLE (scan_query options) w
  = (inr (scanned options table), w).
Proof.
  intros Hget. unfold Bigtable.query, bind. rewrite getTable_run, Hget.
  unfold ret, scanned, scan_query. f_equal. f_equal.
  assert (Hnz := scan_limit_nonzero options).
  destruct (Z.ltb_spec 0 (scan_limit options)) as [Hp|Hp].
  - rewrite query_loop_limit_pos by (simpl; lia).
    cbn [app List.length]. f_equal. lia.
  - rewrite query_loop_limit_neg by lia.
    f_equal. lia.
Qed.

Lemma searchBlobs_run query options w :
  searchBlobs query options w
  = match OMap.get BLOB_INDEX_TABLE (tables w) with
    | None => (inr [], w)
    | Some table =>
        match filter_rows query (scanned options table) with
        | inl _ => (inr [], w)
        | inr results => map_rows results w
        end
    end.
Proof.
  unfold searchBlobs, try_catch.
  fold (scan_query options).
  destruct (OMap.get BLOB_INDEX_TABLE (tables w)) as [table|] eqn:Hget.
  - rewrite (bind_run _ _ _ _ _ (scan_run options w table Hget)).
    unfold lift_result.
    destruct (filter_rows query (scanned options table)) as [e|results].
    + unfold bind. reflexivity.
    + unfold bind at 1.
      destruct (map_rows_run results w) as (ms & w' & R & _ & _).
      now rewrite R.
  - unfold Bigtable.query. unfold bind at 1. unfold bind at 1.
    rewrite getTable_run, Hget. reflexivity.
Qed.


(** A successful [indexBlobMetadata] writes one row into the index table,
    under the key of the metadata, with the cell values [index_values]. *)
Lemma indexBlobMetadata_step m w w' table :
  OMap.get BLOB_INDEX_TABLE (tables w) = Some table ->
  indexBlobMetadata m w = (inr tt, w') ->
  exists row,
    tables w'
    = OMap.set BLOB_INDEX_TABLE
        (mkTable (name table) (OMap.set (key m) row (rows table))
           (columnFamilies table))
        (tables w)
    /\ ext w' = ext w
    /\ rowKey row = key m
    /\ values_of (columns row) = index_values m.
Proof.
  intros Hget Hrun.
  destruct (indexBlobMetadata_run m w)
    as (row & w1 & Hrun1 & (Ht & He & Hc) & Hkey & Hvals & Hts).
  rewrite Hrun1 in Hrun. apply upsertRow_success in Hrun.
  destruct Hrun as (table' & ts & Hget' & _ & _ & Hw).
  rewrite Ht, Hget in Hget'. injection Hget' as <-.
  exists (stored_row row ts).
  assert (G : forall w0, tables w0 = tables w -> ext w0 = ext w ->
              w' = upserted w0 BLOB_INDEX_TABLE table row ts ->
              tables w'
              = OMap.set BLOB_INDEX_TABLE
                  (mkTable (name table)
                     (OMap.set (key m) (stored_row row ts) (rows table))
                     (columnFamilies table)) (tables w)
              /\ ext w' = ext w).
  { intros w0 H1 H2 ->. unfold upserted, with_tables. simpl.
    rewrite Hkey, H1. auto. }
  assert (G' : tables w'
               = OMap.set BLOB_INDEX_TABLE
                   (mkTable (name table)
                      (OMap.set (key m) (stored_row row ts) (rows table))
                      (columnFamilies table)) (tables w)
               /\ ext w' = ext w).
  { rewrite Hts in Hw. destruct (clock (tick w) =? 0); destruct Hw as [_ Hw].
    - apply (G (tick w1)); auto.
      + now rewrite tables_tick.
      + now rewrite ext_tick.
    - apply (G w1); auto. }
  destruct G' as [G1 G2]. repeat split; auto.
Qed.

(** The row that [getRow] finds after a successful [indexBlobMetadata]. *)
Lemma getRow_after_index m w w' :
  indexBlobMetadata m w = (inr tt, w') ->
  exists row,
    getRow BLOB_INDEX_TABLE (key m) w' = (inr (Some row), w')
    /\ rowKey row = key m
    /\ values_of (columns row) = index_values m.
Proof.
  intros Hrun.
  destruct (OMap.get BLOB_INDEX_TABLE (tables w)) as [table|] eqn:Hget.
  - destruct (indexBlobMetadata_step m w w' table Hget Hrun)
      as (row & Ht & _ & Hkey & Hvals).
    exists row. rewrite getRow_run, Ht, OMapFacts.get_set_same. simpl.
    now rewrite OMapFacts.get_set_same.
  - destruct (indexBlobMetadata_run m w)
      as (row & w1 & Hrun1 & (Ht & _) & _).
    rewrite Hrun1, upsertRow_run, Ht, Hget in Hrun. discriminate.
Qed.

End Facts.

End BlobIndexFacts.

(* ------------------------------------------------------------------ *)
(** ** The index layer: round trip, search, update *)
(* ------------------------------------------------------------------ *)

Module BlobIndexClaims.
Import Js Bigtable Bigtable.Notations BlobIndex Aux BigtableFacts
  BlobIndexFacts.

Section Claims.
Context {Ext : Type}.
Implicit Types (w : World Ext) (row : BigtableRow) (m : IndexedBlobMetadata).

(** C5.  For metadata whose indexed fields are [rating: 5] and
    [tags_list: ["a","b"]], once [indexBlobMetadata] has stored the index
    row, the column [index:rating] of that row holds the number 5 as it
    is and the column [index:tags_list] holds the JSON text of the list,
    and [rowToIndexedMetadata] of the row gives indexed fields in which
    [rating] is the number 5 and [tags_list] is the list of the texts a
    and b. *)
Theorem index_roundtrip m w w' :
  indexedFields m
  = Some [("rating", VNum 5); ("tags_list", VArr [VStr "a"; VStr "b"])] ->
  indexBlobMetadata m w = (inr tt, w') ->
  exists row c1 c2 m' w'' fields,
    getRow BLOB_INDEX_TABLE (key m) w' = (inr (Some row), w')
    /\ OMap.get "index:rating" (columns row) = Some c1
    /\ Bigtable.value c1 = VNum 5
    /\ OMap.get "index:tags_list" (columns row) = Some c2
    /\ Bigtable.value c2 = VStr Examples.text_a_b
    /\ rowToIndexedMetadata row w' = (inr m', w'')
    /\ indexedFields m' = Some fields
    /\ OMap.get "rating" fields = Some (VNum 5)
    /\ OMap.get "tags_list" fields = Some (VArr [VStr "a"; VStr "b"]).
Proof.
  intros Hf Hrun.
  destruct (getRow_after_index m w w' Hrun) as (row & Hget & _ & Hvals).
  destruct (rowToIndexedMetadata_run row w') as (m' & w'' & R & _ & _ & F).
  assert (Hwf : match indexedFields m with
                | Some fields => OMap.wf fields
                | None => True
                end).
  { rewrite Hf. unfold OMap.wf. simpl.
    repeat constructor; simpl; intuition discriminate. }
  assert (C1 : exists c1,
             OMap.get "index:rating" (columns row) = Some c1
             /\ Bigtable.value c1 = VNum 5).
  { pose proof (get_values_of ("index:" +s+ "rating") (columns row)) as H.
    rewrite Hvals, (get_index_values m "rating" Hwf), Hf in H.
    change ("index:" +s+ "rating") with "index:rating" in H.
    destruct (OMap.get "index:rating" (columns row)) as [c|];
      [|discriminate H].
    exists c. split; [reflexivity|]. now injection H. }
  assert (C2 : exists c2,
             OMap.get "index:tags_list" (columns row) = Some c2
             /\ Bigtable.value c2 = VStr Examples.text_a_b).
  { pose proof (get_values_of ("index:" +s+ "tags_list") (columns row)) as H.
    rewrite Hvals, (get_index_values m "tags_list" Hwf), Hf in H.
    change ("index:" +s+ "tags_list") with "index:tags_list" in H.
    destruct (OMap.get "index:tags_list" (columns row)) as [c|];
      [|discriminate H].
    exists c. split; [reflexivity|]. now injection H. }
  destruct C1 as (c1 & G1 & V1). destruct C2 as (c2 & G2 & V2).
  exists row, c1, c2, m', w'', (fields_of_values (values_of (columns row))).
  split; [exact Hget|]. split; [exact G1|].
  split; [exact V1|]. split; [exact G2|].
  split; [exact V2|].
  split; [exact R|]. split; [exact F|].
  rewrite Hvals.
  split.
  - rewrite get_fields_of_values by apply index_values_wf.
    rewrite (get_index_values m "rating" Hwf), Hf. reflexivity.
  - rewrite get_fields_of_values by apply index_values_wf.
    rewrite (get_index_values m "tags_list" Hwf), Hf. reflexivity.
Qed.

(** C9.  [searchBlobs] always returns a list: it never throws.  When the
    scan of the table store throws, and so when the index table is
    absent, the list is empty. *)
Theorem searchBlobs_never_raises query options w :
  (exists l w', searchBlobs query options w = (inr l, w'))
  /\ (forall e w1,
         Bigtable.query BLOB_INDEX_TABLE (scan_query options) w = (inl e, w1) ->
         searchBlobs query options w = (inr [], w1))
  /\ (OMap.get BLOB_INDEX_TABLE (tables w) = None ->
      searchBlobs query options w = (inr [], w)).
Proof.
  split; [|split].
  - unfold searchBlobs, try_catch.
    match goal with
    | |- context [match ?c w with _ => _ end] =>
        destruct (c w) as [[e|l] w']
    end; eexists _, _; reflexivity.
  - intros e w1 H. unfold searchBlobs, try_catch.
    fold (scan_query options). now rewrite (bind_throw _ _ _ _ _ H).
  - intros H. rewrite searchBlobs_run. now rewrite H.
Qed.


(** Whether [c.includes(x)] throws depends on [c] alone. *)
Lemma includes_None c x y : includes c x = None -> includes c y = None.
Proof. now destruct c. Qed.

(** The loop body of the filter decides [passes]; when it throws, no
    stored value passes the match specification. *)
Lemma field_matches_passes indexedValue matchSpec :
  match field_matches indexedValue matchSpec with
  | inr b => b = passes indexedValue matchSpec
  | inl _ => forall x, passes x matchSpec = false
  end.
Proof.
  unfold field_matches, passes.
  fold (is_predicate matchSpec).
  destruct (is_predicate matchSpec); [|now destruct (strict_equal _ _)].
  cbv zeta.
  fold (is_given (get_prop matchSpec "$gt")).
  fold (is_given (get_prop matchSpec "$lt")).
  fold (is_given (get_prop matchSpec "$eq")).
  fold (is_given (get_prop matchSpec "$ne")).
  fold (is_given (get_prop matchSpec "$in")).
  destruct (is_given (get_prop matchSpec "$gt"));
    [destruct (le indexedValue (get_prop matchSpec "$gt"))|];
    cbn [implb andb negb]; try reflexivity;
    (destruct (is_given (get_prop matchSpec "$lt"));
     [destruct (ge indexedValue (get_prop matchSpec "$lt"))|];
     cbn [implb andb negb]; try reflexivity;
     (destruct (is_given (get_prop matchSpec "$eq"));
      [destruct (strict_equal indexedValue (get_prop matchSpec "$eq"))|];
      cbn [implb andb negb]; try reflexivity;
      (destruct (is_given (get_prop matchSpec "$ne"));
       [destruct (strict_equal indexedValue (get_prop matchSpec "$ne"))|];
       cbn [implb andb negb]; try reflexivity;
       (destruct (is_given (get_prop matchSpec "$in"));
        cbn [implb andb negb]; try reflexivity;
        (destruct (includes (get_prop matchSpec "$in") indexedValue) eqn:I;
         [reflexivity|];
         intros x; rewrite (includes_None _ _ x I);
         cbn [implb andb]; rewrite ?andb_false_r; reflexivity))))).
Qed.

Lemma row_matches_survives query row :
  match row_matches query row with
  | inr b => b = survives query row
  | inl _ => forall row', survives query row' = false
  end.
Proof.
  unfold survives.
  induction query as [|[field spec] rest IH]; [reflexivity|].
  cbn [forallb row_matches fst snd].
  destruct (OMap.get ("index:" +s+ field) (columns row)) as [cell|];
    [|reflexivity].
  pose proof (field_matches_passes (Bigtable.value cell) spec) as H.
  destruct (field_matches (Bigtable.value cell) spec) as [e|[|]].
  - intros row'.
    destruct (OMap.get ("index:" +s+ field) (columns row')); [|reflexivity].
    now rewrite H.
  - rewrite <- H. cbn [andb].
    destruct (row_matches rest row); [|exact IH].
    intros row'. rewrite IH. apply andb_false_r.
  - now rewrite <- H.
Qed.

Lemma filter_none {A} (f : A -> bool) l :
  (forall x, f x = false) -> filter f l = [].
Proof.
  intros H. induction l as [|a l IH]; [reflexivity|].
  cbn [filter]. now rewrite H.
Qed.

Lemma filter_rows_survives query rows :
  match filter_rows query rows with
  | inr l => l = filter (survives query) rows
  | inl _ => forall row, survives query row = false
  end.
Proof.
  induction rows as [|row r IH]; [reflexivity|].
  cbn [filter_rows filter].
  pose proof (row_matches_survives query row) as H.
  destruct (row_matches query row) as [e|b]; [exact H|].
  destruct (filter_rows query r) as [e|l]; [exact IH|].
  rewrite <- H, IH. reflexivity.
Qed.

Lemma survives_iff query row :
  survives query row = true
  <-> forall field matchSpec,
      In (field, matchSpec) query ->
      exists cell,
        OMap.get ("index:" +s+ field) (columns row) = Some cell
        /\ passes (Bigtable.value cell) matchSpec = true.
Proof.
  unfold survives. rewrite forallb_forall. split.
  - intros H field spec Hin. specialize (H _ Hin). cbn [fst snd] in H.
    destruct (OMap.get ("index:" +s+ field) (columns row)) as [cell|];
      [|discriminate].
    now exists cell.
  - intros H [field spec] Hin. cbn [fst snd].
    destruct (H _ _ Hin) as (cell & -> & Hs). exact Hs.
Qed.

(** The filter and the stated meaning of a match specification: what
    satisfies the specification passes, and the two agree when the given
    bounds compare with the stored value. *)
Lemma passes_satisfies indexedValue matchSpec :
  (satisfies indexedValue matchSpec = true ->
   passes indexedValue matchSpec = true)
  /\ (compares indexedValue matchSpec = true ->
      passes indexedValue matchSpec = satisfies indexedValue matchSpec).
Proof.
  unfold satisfies, passes, compares, le, ge, gt, comparable.
  destruct (is_predicate matchSpec); [|tauto].
  cbn [andb].
  destruct (is_given (get_prop matchSpec "$gt"));
    destruct (is_given (get_prop matchSpec "$lt"));
    cbn [implb andb];
    try destruct (lt (get_prop matchSpec "$gt") indexedValue) as [[|]|];
    try destruct (lt indexedValue (get_prop matchSpec "$lt")) as [[|]|];
    cbn [implb andb negb]; split; auto; discriminate.
Qed.

(** The operators on their own. *)
Lemma passes_bound indexedValue bound :
  is_given bound = true ->
  passes indexedValue (VObj [("$gt", bound)])
  = negb (le indexedValue bound)
  /\ passes indexedValue (VObj [("$lt", bound)])
     = negb (ge indexedValue bound).
Proof.
  intros H. unfold passes. cbn. fold (is_given bound). rewrite H.
  cbn [implb]. now rewrite !andb_true_r.
Qed.

Lemma passes_order (a b : Z) (s t : string) :
  passes (VNum a) (VObj [("$gt", VNum b)]) = (b <? a)
  /\ passes (VNum a) (VObj [("$lt", VNum b)]) = (a <? b)
  /\ passes (VStr s) (VObj [("$gt", VStr t)]) = String.ltb t s
  /\ passes (VStr s) (VObj [("$lt", VStr t)]) = String.ltb s t.
Proof.
  repeat split; unfold passes; cbn; rewrite ?andb_true_r.
  - unfold le, lt, Z.ltb. cbn. now destruct (b ?= a).
  - unfold ge, lt, Z.ltb. cbn. now destruct (a ?= b).
  - now destruct (String.ltb t s).
  - now destruct (String.ltb s t).
Qed.


(** The column [index:f] of an index row holds the indexed field [f] as
    [index_value] writes it. *)
Lemma index_column m row fields f v :
  values_of (columns row) = index_values m ->
  indexedFields m = Some fields ->
  OMap.wf fields ->
  OMap.get f fields = Some v ->
  exists cell,
    OMap.get ("index:" +s+ f) (columns row) = Some cell
    /\ Bigtable.value cell = index_value v.
Proof.
  intros Hvals Hf Hwf Hget.
  assert (H := get_values_of ("index:" +s+ f) (columns row)).
  rewrite Hvals, get_index_values in H by (now rewrite Hf).
  rewrite Hf, Hget in H.
  destruct (OMap.get ("index:" +s+ f) (columns row)) as [cell|];
    cbn [option_map] in H; [|discriminate].
  exists cell. split; [reflexivity|]. congruence.
Qed.

(** The indexed fields read back from an index row: each field of the
    metadata, written by [index_value] and parsed by [parse_if_json],
    but for a field named [__proto__], which does not come back. *)
Lemma reconstructed_fields m row fields m' :
  values_of (columns row) = index_values m ->
  indexedFields m = Some fields ->
  OMap.wf fields ->
  reconstructs row m' ->
  exists fields',
    indexedFields m' = Some fields'
    /\ forall f,
        OMap.get f fields'
        = if String.eqb f "__proto__" then None
          else option_map (fun v => parse_if_json (index_value v))
                 (OMap.get f fields).
Proof.
  intros Hvals Hf Hwf [_ Hrec].
  eexists. split; [exact Hrec|]. intros f.
  rewrite Hvals, get_fields_of_values by apply index_values_wf.
  rewrite get_index_values by (now rewrite Hf).
  rewrite Hf. destruct (String.eqb f "__proto__"); [reflexivity|].
  now destruct (OMap.get f fields).
Qed.

Lemma wf_singleton {V} k (v : V) : OMap.wf [(k, v)].
Proof. unfold OMap.wf. simpl. repeat constructor. simpl. tauto. Qed.

(** The search for a rating above 3 among three blobs indexed, in this
    order, with the ratings 2, 4 and 6 into an empty index table. *)
Lemma search_rated_246 w0 table m1 m2 m3 w1 w2 w3 options :
  OMap.get BLOB_INDEX_TABLE (tables w0) = Some table ->
  rows table = [] ->
  indexedFields m1 = Some [("rating", VNum 2)] ->
  indexedFields m2 = Some [("rating", VNum 4)] ->
  indexedFields m3 = Some [("rating", VNum 6)] ->
  key m1 <> key m2 -> key m1 <> key m3 -> key m2 <> key m3 ->
  indexBlobMetadata m1 w0 = (inr tt, w1) ->
  indexBlobMetadata m2 w1 = (inr tt, w2) ->
  indexBlobMetadata m3 w2 = (inr tt, w3) ->
  3 <= scan_limit options ->
  exists x y w' fx fy,
    searchBlobs [("rating", VObj [("$gt", VNum 3)])] options w3
    = (inr [x; y], w')
    /\ key x = key m2 /\ key y = key m3
    /\ indexedFields x = Some fx /\ OMap.get "rating" fx = Some (VNum 4)
    /\ indexedFields y = Some fy /\ OMap.get "rating" fy = Some (VNum 6).
Proof.
  intros Hget Hrows F1 F2 F3 N12 N13 N23 R1 R2 R3 Hlim.
  destruct (indexBlobMetadata_step m1 w0 w1 table Hget R1)
    as (r1 & T1 & _ & K1 & V1).
  assert (G1 := OMapFacts.get_set_same BLOB_INDEX_TABLE
                  (mkTable (name table) (OMap.set (key m1) r1 (rows table))
                     (columnFamilies table)) (tables w0)).
  rewrite <- T1 in G1.
  destruct (indexBlobMetadata_step m2 w1 w2 _ G1 R2)
    as (r2 & T2 & _ & K2 & V2).
  match type of T2 with
  | _ = OMap.set _ ?t _ =>
      assert (G2 := OMapFacts.get_set_same BLOB_INDEX_TABLE t (tables w1))
  end.
  rewrite <- T2 in G2.
  destruct (indexBlobMetadata_step m3 w2 w3 _ G2 R3)
    as (r3 & T3 & _ & K3 & V3).
  match type of T3 with
  | _ = OMap.set _ ?t _ =>
      assert (G3 := OMapFacts.get_set_same BLOB_INDEX_TABLE t (tables w2))
  end.
  rewrite <- T3 in G3. cbn [rows name columnFamilies] in G3.
  rewrite Hrows in G3. cbn [OMap.set] in G3.
  assert (E21 : String.eqb (key m2) (key m1) = false)
    by (apply String.eqb_neq; congruence).
  assert (E31 : String.eqb (key m3) (key m1) = false)
    by (apply String.eqb_neq; congruence).
  assert (E32 : String.eqb (key m3) (key m2) = false)
    by (apply String.eqb_neq; congruence).
  rewrite E21 in G3. cbn [OMap.set] in G3. rewrite E31, E32 in G3.
  rewrite searchBlobs_run, G3.
  assert (Hscan : forall t,
             rows t = [(key m1, r1); (key m2, r2); (key m3, r3)] ->
             scanned options t = [r1; r2; r3]).
  { intros t Ht. unfold scanned. rewrite Ht. apply firstn_all2.
    simpl. lia. }
  erewrite Hscan by reflexivity.
  destruct (index_column m1 r1 _ "rating" _ V1 F1 (wf_singleton _ _) eq_refl)
    as (c1 & C1 & X1).
  destruct (index_column m2 r2 _ "rating" _ V2 F2 (wf_singleton _ _) eq_refl)
    as (c2 & C2 & X2).
  destruct (index_column m3 r3 _ "rating" _ V3 F3 (wf_singleton _ _) eq_refl)
    as (c3 & C3 & X3).
  cbn [filter_rows row_matches]. rewrite C1, C2, C3, X1, X2, X3.
  change (field_matches (index_value (VNum 2)) (VObj [("$gt", VNum 3)]))
    with (@inr Error bool false).
  change (field_matches (index_value (VNum 4)) (VObj [("$gt", VNum 3)]))
    with (@inr Error bool true).
  change (field_matches (index_value (VNum 6)) (VObj [("$gt", VNum 3)]))
    with (@inr Error bool true).
  cbv iota.
  destruct (map_rows_run [r2; r3] w3) as (ms & w' & R & _ & FA).
  inversion FA as [|? x ? ms' Hx FA']; subst.
  inversion FA' as [|? y ? ms'' Hy FA'']; subst.
  inversion FA''; subst.
  destruct (reconstructed_fields m2 r2 _ x V2 F2 (wf_singleton _ _) Hx)
    as (fx & Fx & Gx).
  destruct (reconstructed_fields m3 r3 _ y V3 F3 (wf_singleton _ _) Hy)
    as (fy & Fy & Gy).
  exists x, y, w', fx, fy. split; [exact R|].
  destruct Hx as [Kx _]. destruct Hy as [Ky _].
  split; [congruence|]. split; [congruence|].
  split; [exact Fx|]. split; [rewrite Gx; reflexivity|].
  split; [exact Fy|]. rewrite Gy. reflexivity.
Qed.


(** C6, amended.  [searchBlobs] returns, in scan order, what
    [rowToIndexedMetadata] makes of the scanned rows that the filter
    keeps, and a row is kept exactly when it has an [index:] column for
    every field of the query and the value there passes the match
    specification of the field: equality for a scalar, every given
    operator for a predicate object.  [$gt] turns a value down when
    [value <= bound] holds and [$lt] when [value >= bound] holds; so a
    value that satisfies the specification as stated passes, the two are
    the same when the bounds compare with the value (on integers and on
    texts [$gt] is strictly greater and [$lt] strictly less), and a value
    that does not compare with a bound passes it.  After indexing blobs
    with the ratings 2, 4 and 6, the search for a rating above 3 returns
    the blobs with the ratings 4 and 6, in that order. *)
Theorem searchBlobs_filter :
  (forall query options w table,
      OMap.get BLOB_INDEX_TABLE (tables w) = Some table ->
      exists ms w',
        searchBlobs query options w = (inr ms, w')
        /\ Forall2 reconstructs
             (filter (survives query) (scanned options table)) ms)
  /\ (forall query row,
         survives query row = true
         <-> forall field matchSpec,
             In (field, matchSpec) query ->
             exists cell,
               OMap.get ("index:" +s+ field) (columns row) = Some cell
               /\ passes (Bigtable.value cell) matchSpec = true)
  /\ (forall indexedValue matchSpec,
         (satisfies indexedValue matchSpec = true ->
          passes indexedValue matchSpec = true)
         /\ (compares indexedValue matchSpec = true ->
             passes indexedValue matchSpec
             = satisfies indexedValue matchSpec))
  /\ (forall indexedValue bound,
         is_given bound = true ->
         passes indexedValue (VObj [("$gt", bound)])
         = negb (le indexedValue bound)
         /\ passes indexedValue (VObj [("$lt", bound)])
            = negb (ge indexedValue bound))
  /\ (forall (a b : Z) (s t : string),
         passes (VNum a) (VObj [("$gt", VNum b)]) = (b <? a)
         /\ passes (VNum a) (VObj [("$lt", VNum b)]) = (a <? b)
         /\ passes (VStr s) (VObj [("$gt", VStr t)]) = String.ltb t s
         /\ passes (VStr s) (VObj [("$lt", VStr t)]) = String.ltb s t)
  /\ (forall w0 table m1 m2 m3 w1 w2 w3 options,
         OMap.get BLOB_INDEX_TABLE (tables w0) = Some table ->
         rows table = [] ->
         indexedFields m1 = Some [("rating", VNum 2)] ->
         indexedFields m2 = Some [("rating", VNum 4)] ->
         indexedFields m3 = Some [("rating", VNum 6)] ->
         key m1 <> key m2 -> key m1 <> key m3 -> key m2 <> key m3 ->
         indexBlobMetadata m1 w0 = (inr tt, w1) ->
         indexBlobMetadata m2 w1 = (inr tt, w2) ->
         indexBlobMetadata m3 w2 = (inr tt, w3) ->
         3 <= scan_limit options ->
         exists x y w' fx fy,
           searchBlobs [("rating", VObj [("$gt", VNum 3)])] options w3
           = (inr [x; y], w')
           /\ key x = key m2 /\ key y = key m3
           /\ indexedFields x = Some fx
           /\ OMap.get "rating" fx = Some (VNum 4)
           /\ indexedFields y = Some fy
           /\ OMap.get "rating" fy = Some (VNum 6)).
Proof.
  split; [|split; [|split; [|split; [|split]]]].
  - intros query options w table Hget.
    rewrite searchBlobs_run, Hget.
    pose proof (filter_rows_survives query (scanned options table)) as H.
    destruct (filter_rows query (scanned options table)) as [e|results].
    + exists [], w. split; [reflexivity|].
      rewrite (filter_none _ _ H). constructor.
    + subst results.
      destruct (map_rows_run
                  (filter (survives query) (scanned options table)) w)
        as (ms & w' & R & _ & FA).
      now exists ms, w'.
  - apply survives_iff.
  - apply passes_satisfies.
  - apply passes_bound.
  - apply passes_order.
  - apply search_rated_246.
Qed.

End Claims.

Section Update.
Context {Ext : Type}.
Variable Data : Type.
Variable blob_storeBlob :
  string -> Data -> JsValue -> obj -> Ext -> (Error + IndexedBlobMetadata) * Ext.
Variable blob_updateBlobMetadata :
  string -> obj -> Ext -> (Error + unit) * Ext.
Implicit Types (w : World Ext) (row : BigtableRow) (m : IndexedBlobMetadata).








End Update.

(** C7.  [searchBlobs] filters the rows that the scan returns, and the
    scan returns the first [options.limit || 100] rows of the table
    whatever the query asks for; so there is a store with more rows than
    the limit in which at least as many rows as the limit match the query
    and the search returns fewer results than the limit. *)
Theorem searchBlobs_limit_before_filter :
  (forall (Ext : Type) query options (w : World Ext) table,
      OMap.get BLOB_INDEX_TABLE (tables w) = Some table ->
      searchBlobs query options w
      = match filter_rows query (scanned options table) with
        | inl _ => (inr [], w)
        | inr results => map_rows results w
        end)
  /\ exists (w : World unit) query options table matching l w',
      OMap.get BLOB_INDEX_TABLE (tables w) = Some table
      /\ scan_limit options < OMap.size (rows table)
      /\ filter_rows query (OMap.values (rows table)) = inr matching
      /\ scan_limit options <= Z.of_nat (List.length matching)
      /\ searchBlobs query options w = (inr l, w')
      /\ Z.of_nat (List.length l) < scan_limit options.
Proof.
  split.
  - intros Ext query options w table Hget.
    now rewrite searchBlobs_run, Hget.
  - exists Examples.w_rated_156, Examples.rating_above_3, (mkOptions (Some 2)).
    eexists _, _, _, _.
    split; [reflexivity|]. split; [reflexivity|].
    split; [reflexivity|]. split; [vm_compute; discriminate|].
    split; [reflexivity|]. reflexivity.
Qed.


(** *** The claims at concrete inputs *)

Import Examples.

Lemma index_roundtrip_witness :
  exists row c1 c2 m' w'' fields,
    getRow BLOB_INDEX_TABLE "doc1" w_round = (inr (Some row), w_round)
    /\ OMap.get "index:rating" (columns row) = Some c1
    /\ Bigtable.value c1 = VNum 5
    /\ OMap.get "index:tags_list" (columns row) = Some c2
    /\ Bigtable.value c2 = VStr text_a_b
    /\ rowToIndexedMetadata row w_round = (inr m', w'')
    /\ indexedFields m' = Some fields
    /\ OMap.get "rating" fields = Some (VNum 5)
    /\ OMap.get "tags_list" fields = Some (VArr [VStr "a"; VStr "b"]).
Proof.
  apply (index_roundtrip meta_round w_index w_round); reflexivity.
Defined.

Lemma searchBlobs_never_raises_witness :
  searchBlobs rating_above_3 (mkOptions None) w_small = (inr [], w_small).
Proof.
  apply (proj2 (proj2 (searchBlobs_never_raises rating_above_3
                         (mkOptions None) w_small))).
  reflexivity.
Defined.

Lemma searchBlobs_filter_witness :
  exists x y w' fx fy,
    searchBlobs [("rating", VObj [("$gt", VNum 3)])] (mkOptions None)
      w_rated_246
    = (inr [x; y], w')
    /\ key x = "b" /\ key y = "c"
    /\ indexedFields x = Some fx /\ OMap.get "rating" fx = Some (VNum 4)
    /\ indexedFields y = Some fy /\ OMap.get "rating" fy = Some (VNum 6).
Proof.
  refine (proj2 (proj2 (proj2 (proj2 (proj2 (@searchBlobs_filter unit)))))
            w_index _ (rated "a" 2) (rated "b" 4) (rated "c" 6)
            w_rated_2 w_rated_24 w_rated_246 (mkOptions None)
            _ _ _ _ _ _ _ _ _ _ _ _);
    try reflexivity; try discriminate.
Defined.

(** A stored text is compared with a numeric bound as the number it
    reads as: the rating [2.5] is not above 3, the rating [10] is. *)
Lemma passes_text_number :
  passes (VStr "2.5") (VObj [("$gt", VNum 3)]) = false
  /\ passes (VStr "10") (VObj [("$gt", VNum 3)]) = true
  /\ passes (VFloat (FFrac 7 1)) (VObj [("$gt", VNum 3)]) = true
  /\ passes (VNum 5) (VObj [("$in", VNum 5)]) = false.
Proof. repeat split; vm_compute; reflexivity. Qed.

(** C6 as stated fails for a stored value that does not compare with
    the bound: the rating [abc] is not greater than 3, and the blob is
    returned by the search for a rating above 3. *)
Lemma search_text_rating_survives :
  exists row cell x w',
    getRow BLOB_INDEX_TABLE "a" w_text_rating
    = (inr (Some row), w_text_rating)
    /\ OMap.get "index:rating" (columns row) = Some cell
    /\ Bigtable.value cell = VStr "abc"
    /\ gt (VStr "abc") (VNum 3) = false
    /\ satisfies (Bigtable.value cell) (VObj [("$gt", VNum 3)]) = false
    /\ searchBlobs rating_above_3 (mkOptions None) w_text_rating
       = (inr [x], w')
    /\ key x = "a".
Proof.
  eexists _, _, _, _. repeat split; reflexivity.
Defined.

Lemma searchBlobs_limit_before_filter_witness :
  exists table,
    OMap.get BLOB_INDEX_TABLE (tables w_rated_156) = Some table
    /\ searchBlobs rating_above_3 (mkOptions (Some 2)) w_rated_156
       = match filter_rows rating_above_3
                 (scanned (mkOptions (Some 2)) table) with
         | inl _ => (inr [], w_rated_156)
         | inr results => map_rows results w_rated_156
         end.
Proof.
  eexists. split; [reflexivity|].
  apply (proj1 searchBlobs_limit_before_filter unit). reflexivity.
Defined.




End BlobIndexClaims.

(* ------------------------------------------------------------------ *)
(** ** More about ordered maps *)
(* ------------------------------------------------------------------ *)

Module OMapMore.

Section Facts.
Context {V : Type}.
Implicit Types (m : OMap.t V) (k : string) (v : V).

Lemma get_delete_other k k' m :
  k <> k' -> OMap.get k' (OMap.delete k m) = OMap.get k' m.
Proof.
  intros Hne. induction m as [|[k0 v0] r IH]; simpl; auto.
  destruct (String.eqb k k0) eqn:E; simpl.
  - apply String.eqb_eq in E. subst k0.
    destruct (String.eqb k' k) eqn:E'; auto.
    apply String.eqb_eq in E'. congruence.
  - now rewrite IH.
Qed.

Lemma keys_delete_incl k m x :
  In x (OMap.keys (OMap.delete k m)) -> In x (OMap.keys m).
Proof.
  unfold OMap.keys. induction m as [|[k0 v0] r IH]; simpl; auto.
  destruct (String.eqb k k0); simpl; intuition.
Qed.

Lemma In_delete k m e : In e (OMap.delete k m) -> In e m.
Proof.
  induction m as [|[k0 v0] r IH]; simpl; auto.
  destruct (String.eqb k k0); simpl; intuition.
Qed.

Lemma wf_delete k m : OMap.wf m -> OMap.wf (OMap.delete k m).
Proof.
  unfold OMap.wf. induction m as [|[k0 v0] r IH]; simpl; auto.
  intros H. inversion H as [|? ? Hnotin Hnd]; subst.
  destruct (String.eqb k k0); simpl; auto.
  constructor; auto. intros Hin. apply Hnotin.
  now apply (keys_delete_incl k).
Qed.

Lemma get_delete_same k m : OMap.wf m -> OMap.get k (OMap.delete k m) = None.
Proof.
  unfold OMap.wf. induction m as [|[k0 v0] r IH]; simpl; auto.
  intros H. inversion H as [|? ? Hnotin Hnd]; subst.
  destruct (String.eqb k k0) eqn:E; simpl.
  - apply String.eqb_eq in E. subst k0.
    now apply OMapFacts.get_None_keys.
  - rewrite E. auto.
Qed.

Lemma delete_absent k m : OMap.get k m = None -> OMap.delete k m = m.
Proof.
  induction m as [|[k0 v0] r IH]; simpl; auto.
  destruct (String.eqb k k0); [discriminate|].
  intros H. now rewrite IH.
Qed.

Lemma set_same_value k v m : OMap.get k m = Some v -> OMap.set k v m = m.
Proof.
  induction m as [|[k0 v0] r IH]; simpl; [discriminate|].
  destruct (String.eqb k k0) eqn:E.
  - now intros [= ->].
  - intros H. now rewrite IH.
Qed.

Lemma In_set k v m e :
  In e (OMap.set k v m) -> e = (k, v) \/ In e m.
Proof.
  induction m as [|[k0 v0] r IH]; simpl.
  - intuition.
  - destruct (String.eqb k k0) eqn:E; simpl.
    + apply String.eqb_eq in E. subst k0. intuition.
    + intuition.
Qed.

Lemma length_delete k m :
  List.length (OMap.delete k m)
  = if OMap.has k m then pred (List.length m) else List.length m.
Proof.
  unfold OMap.has. induction m as [|[k0 v0] r IH]; simpl; auto.
  destruct (String.eqb k k0); simpl; auto.
  rewrite IH. destruct (OMap.get k r) eqn:G; auto.
  destruct r; [discriminate | reflexivity].
Qed.

Lemma In_get k v m : OMap.wf m -> In (k, v) m -> OMap.get k m = Some v.
Proof.
  unfold OMap.wf, OMap.keys.
  induction m as [|[k' v'] r IH]; simpl; [tauto|].
  intros Hnd [H|H].
  - injection H as -> ->. now rewrite String.eqb_refl.
  - inversion Hnd as [|? ? Hnotin Hnd']; subst.
    destruct (String.eqb k k') eqn:E; auto.
    apply String.eqb_eq in E. subst. exfalso. apply Hnotin.
    change k' with (fst (k', v)). now apply in_map.
Qed.

Lemma get_In k m v : OMap.get k m = Some v -> In (k, v) m.
Proof.
  induction m as [|[k' v'] r IH]; simpl; [discriminate|].
  destruct (String.eqb k k') eqn:E.
  - apply String.eqb_eq in E. intros [= ->]. subst. now left.
  - intros H. right. auto.
Qed.

End Facts.

End OMapMore.

(* ------------------------------------------------------------------ *)
(** ** The table store: tables, rows, batches *)
(* ------------------------------------------------------------------ *)

Module StoreProperties.
Import Js Bigtable Bigtable.Notations Aux BigtableFacts.

Section Properties.
Context {Ext : Type}.
Implicit Types (w : World Ext) (row : BigtableRow) (table : BigtableTable).

Lemma with_tables_same w : with_tables (tables w) w = w.
Proof. now destruct w. Qed.

Lemma table_eta table :
  mkTable (name table) (rows table) (columnFamilies table) = table.
Proof. now destruct table. Qed.

Lemma createTable_run w n fams :
  createTable n fams w
  = if OMap.has n (tables w) then (inl (AlreadyExists n), w)
    else (inr (mkTable n OMap.empty fams),
          with_tables (OMap.set n (mkTable n OMap.empty fams) (tables w)) w).
Proof.
  unfold createTable, bind, get_tables, throw, put_tables, ret, with_tables.
  now destruct (OMap.has n (tables w)).
Qed.

Lemma deleteTable_run w n :
  deleteTable n w
  = (inr (OMap.has n (tables w)), with_tables (OMap.delete n (tables w)) w).
Proof. reflexivity. Qed.

Lemma deleteRow_run w tableName k :
  deleteRow tableName k w
  = match OMap.get tableName (tables w) with
    | None => (inl (NotFound tableName), w)
    | Some table =>
        (inr (OMap.has k (rows table)),
         with_tables
           (OMap.set tableName
              (mkTable (name table) (OMap.delete k (rows table))
                 (columnFamilies table)) (tables w)) w)
    end.
Proof.
  unfold deleteRow, bind at 1. rewrite getTable_run.
  now destruct (OMap.get tableName (tables w)).
Qed.

Lemma query_run w tableName q :
  query tableName q w
  = match OMap.get tableName (tables w) with
    | None => (inl (NotFound tableName), w)
    | Some table => (inr (query_loop q (rows table) []), w)
    end.
Proof.
  unfold query, bind. rewrite getTable_run.
  now destruct (OMap.get tableName (tables w)).
Qed.

Lemma getTableStats_run w tableName :
  getTableStats tableName w
  = match OMap.get tableName (tables w) with
    | None => (inl (NotFound tableName), w)
    | Some table =>
        match rows_size (OMap.values (rows table)) 0 with
        | inl e => (inl e, w)
        | inr n => (inr (mkStats (OMap.size (rows table)) n), w)
        end
    end.
Proof.
  unfold getTableStats, bind at 1. rewrite getTable_run.
  destruct (OMap.get tableName (tables w)) as [table|]; [|reflexivity].
  unfold bind, lift_result, ret.
  now destruct (rows_size (OMap.values (rows table)) 0).
Qed.

(** X1.  [createTable] under a name that is taken throws AlreadyExists and
    changes nothing. Under a new name it returns an empty table with the
    given families; [getTable] then finds that table, [listTables] lists the
    name after the names that were there, and every other table is as it
    was. *)
Theorem createTable_spec w name families :
  (OMap.has name (tables w) = true ->
   createTable name families w = (inl (AlreadyExists name), w))
  /\ (OMap.has name (tables w) = false ->
      exists w',
        createTable name families w
        = (inr (mkTable name OMap.empty families), w')
        /\ getTable name w' = (inr (mkTable name OMap.empty families), w')
        /\ listTables w' = (inr (OMap.keys (tables w) ++ [name]), w')
        /\ forall other, other <> name ->
             OMap.get other (tables w') = OMap.get other (tables w)).
Proof.
  rewrite createTable_run. split; intros H; rewrite H; [reflexivity|].
  eexists. split; [reflexivity|]. split; [|split].
  - rewrite getTable_run. simpl. now rewrite OMapFacts.get_set_same.
  - unfold listTables, bind, get_tables, ret. simpl.
    now rewrite OMapFacts.keys_set, H.
  - intros other Hne. simpl. apply OMapFacts.get_set_other. congruence.
Qed.

(** X2.  On a table that does not exist, every row operation, the query and
    the statistics throw NotFound with the name of the table and change
    nothing; so do the batch operations as soon as they have one row or key
    to work on, while on an empty batch they return without looking for the
    table. *)
Theorem missing_table_NotFound w tableName :
  OMap.get tableName (tables w) = None ->
  (forall row, upsertRow tableName row w = (inl (NotFound tableName), w))
  /\ (forall k, getRow tableName k w = (inl (NotFound tableName), w))
  /\ (forall k, deleteRow tableName k w = (inl (NotFound tableName), w))
  /\ (forall q, query tableName q w = (inl (NotFound tableName), w))
  /\ getTableStats tableName w = (inl (NotFound tableName), w)
  /\ (forall row rs,
         batchUpsert tableName (row :: rs) w = (inl (NotFound tableName), w))
  /\ (forall k ks,
         batchGet tableName (k :: ks) w = (inl (NotFound tableName), w))
  /\ batchUpsert tableName [] w = (inr tt, w)
  /\ batchGet tableName [] w = (inr [], w).
Proof.
  intros H. repeat split; intros.
  - now rewrite upsertRow_run, H.
  - now rewrite getRow_run, H.
  - now rewrite deleteRow_run, H.
  - now rewrite query_run, H.
  - now rewrite getTableStats_run, H.
  - cbn [batchUpsert]. unfold bind. now rewrite upsertRow_run, H.
  - cbn [batchGet]. unfold bind at 1. now rewrite getRow_run, H.
Qed.

(** X3.  [deleteTable] returns whether the table was there. Afterwards the
    table is gone ([getTable] throws NotFound), every other table is as it
    was, and a second [deleteTable] returns false and changes nothing. *)
Theorem deleteTable_spec w name :
  OMap.wf (tables w) ->
  exists w',
    deleteTable name w = (inr (OMap.has name (tables w)), w')
    /\ getTable name w' = (inl (NotFound name), w')
    /\ (forall other, other <> name ->
          OMap.get other (tables w') = OMap.get other (tables w))
    /\ deleteTable name w' = (inr false, w').
Proof.
  intros Hwf. rewrite deleteTable_run. eexists. split; [reflexivity|].
  assert (G : OMap.get name (OMap.delete name (tables w)) = None)
    by now apply OMapMore.get_delete_same.
  split; [|split].
  - rewrite getTable_run. simpl. now rewrite G.
  - intros other Hne. simpl. apply OMapMore.get_delete_other. congruence.
  - rewrite deleteTable_run. unfold OMap.has. simpl. rewrite G.
    rewrite (OMapMore.delete_absent _ _ G). reflexivity.
Qed.

(** X4.  [deleteRow] on an existing table returns whether the row was there.
    Afterwards [getRow] under that key finds nothing, every other key has
    the row it had, and every other table is as it was. *)
Theorem deleteRow_spec w tableName table k :
  OMap.get tableName (tables w) = Some table ->
  OMap.wf (rows table) ->
  exists w',
    deleteRow tableName k w = (inr (OMap.has k (rows table)), w')
    /\ getRow tableName k w' = (inr None, w')
    /\ (forall k', k' <> k ->
          getRow tableName k' w' = (inr (OMap.get k' (rows table)), w'))
    /\ (forall other, other <> tableName ->
          OMap.get other (tables w') = OMap.get other (tables w)).
Proof.
  intros Hget Hwf. rewrite deleteRow_run, Hget. eexists.
  split; [reflexivity|]. split; [|split].
  - rewrite getRow_run. simpl. rewrite OMapFacts.get_set_same. simpl.
    now rewrite OMapMore.get_delete_same.
  - intros k' Hne. rewrite getRow_run. simpl.
    rewrite OMapFacts.get_set_same. simpl.
    rewrite OMapMore.get_delete_other; [reflexivity | congruence].
  - intros other Hne. simpl. apply OMapFacts.get_set_other. congruence.
Qed.

(** X5.  [deleteRow] of a key that the table has not returns false and
    leaves the whole world as it was. *)
Theorem deleteRow_absent w tableName table k :
  OMap.get tableName (tables w) = Some table ->
  OMap.get k (rows table) = None ->
  deleteRow tableName k w = (inr false, w).
Proof.
  intros Hget Hk. rewrite deleteRow_run, Hget. unfold OMap.has.
  rewrite Hk, (OMapMore.delete_absent _ _ Hk), table_eta.
  rewrite (OMapMore.set_same_value _ _ _ Hget).
  now rewrite with_tables_same.
Qed.


(** *** Batches *)

(** A failing [upsertRow] changes nothing. *)
Lemma upsertRow_failure w tableName row e w' :
  upsertRow tableName row w = (inl e, w') -> w' = w.
Proof.
  rewrite upsertRow_run.
  destruct (OMap.get tableName (tables w)) as [table|]; [|now intros [= _ <-]].
  destruct (over_capacity table row); [now intros [= _ <-]|].
  destruct (first_invalid table (OMap.keys (columns row)));
    [now intros [= _ <-]|].
  destruct (timestamp row) as [z|]; [destruct (z =? 0)|]; discriminate.
Qed.

Lemma batchUpsert_app w tableName rs1 rs2 :
  batchUpsert tableName (rs1 ++ rs2) w
  = match batchUpsert tableName rs1 w with
    | (inr _, w1) => batchUpsert tableName rs2 w1
    | (inl e, w1) => (inl e, w1)
    end.
Proof.
  revert w. induction rs1 as [|r rs1 IH]; intros w; [reflexivity|].
  cbn [batchUpsert app]. unfold bind.
  destruct (upsertRow tableName r w) as [[e|[]] w1]; [reflexivity|].
  apply IH.
Qed.

(** X6.  [batchUpsert] is not atomic: when the upsert of one row throws, the
    rows before it stay written, that row and the rows after it are not, and
    the error is the one of that row. *)
Theorem batchUpsert_partial w tableName written row rest w1 e w2 :
  batchUpsert tableName written w = (inr tt, w1) ->
  upsertRow tableName row w1 = (inl e, w2) ->
  batchUpsert tableName (written ++ row :: rest) w = (inl e, w1).
Proof.
  intros Hdone Hfail. rewrite batchUpsert_app, Hdone.
  cbn [batchUpsert]. unfold bind. rewrite Hfail.
  now rewrite (upsertRow_failure _ _ _ _ _ Hfail).
Qed.

(** X7.  When [batchUpsert] returns, the last row of the batch is the one
    stored under its key, whatever rows of the same key came before it in
    the batch. *)
Theorem batchUpsert_last w tableName rs row w' :
  batchUpsert tableName (rs ++ [row]) w = (inr tt, w') ->
  exists stored,
    getRow tableName (rowKey row) w' = (inr (Some stored), w')
    /\ rowKey stored = rowKey row
    /\ columns stored = columns row.
Proof.
  rewrite batchUpsert_app.
  destruct (batchUpsert tableName rs w) as [[e|[]] w1]; [discriminate|].
  cbn [batchUpsert]. unfold bind at 1.
  destruct (upsertRow tableName row w1) as [[e|[]] w2] eqn:Hup;
    [discriminate|].
  unfold ret. intros [= <-].
  apply upsertRow_success in Hup.
  destruct Hup as (table & ts & _ & _ & _ & H).
  exists (stored_row row ts).
  assert (G : forall w0, w2 = upserted w0 tableName table row ts ->
            getRow tableName (rowKey row) w2
            = (inr (Some (stored_row row ts)), w2)).
  { intros w0 ->. apply getRow_upserted. }
  split; [|split; reflexivity].
  destruct (timestamp row) as [z|]; [destruct (z =? 0)|];
    destruct H as [_ H]; eapply G; exact H.
Qed.

(** X8.  [batchGet] on an existing table returns, key by key and in the
    order of the keys, the row stored under the key or nothing, and changes
    nothing. *)
Theorem batchGet_spec w tableName table ks :
  OMap.get tableName (tables w) = Some table ->
  batchGet tableName ks w
  = (inr (map (fun k => OMap.get k (rows table)) ks), w).
Proof.
  intros Hget. induction ks as [|k ks IH]; [reflexivity|].
  cbn [batchGet map]. unfold bind at 1. rewrite getRow_run, Hget.
  unfold bind at 1. rewrite IH. reflexivity.
Qed.

(** *** The store stays well formed *)

Lemma store_ok_tables w w' : tables w' = tables w -> store_ok w -> store_ok w'.
Proof. unfold store_ok. now intros ->. Qed.

Lemma store_ok_get w n table :
  store_ok w -> OMap.get n (tables w) = Some table -> table_ok n table.
Proof. intros [_ H] G. apply H. now apply OMapMore.get_In. Qed.

Lemma store_ok_set w n table :
  store_ok w -> table_ok n table ->
  store_ok (with_tables (OMap.set n table (tables w)) w).
Proof.
  intros [Hwf Hall] Hok. split; simpl.
  - now apply OMapFacts.wf_set.
  - intros n' t' Hin. apply OMapMore.In_set in Hin.
    destruct Hin as [[= -> ->]|Hin]; auto.
Qed.

Lemma size_set_le {V} k (v : V) m :
  OMap.size (OMap.set k v m)
  = if OMap.has k m then OMap.size m else OMap.size m + 1.
Proof.
  unfold OMap.size. rewrite OMapFacts.length_set.
  destruct (OMap.has k m); lia.
Qed.

Lemma store_ok_upserted w tableName table row ts :
  store_ok w ->
  OMap.get tableName (tables w) = Some table ->
  over_capacity table row = false ->
  first_invalid table (OMap.keys (columns row)) = None ->
  store_ok (upserted w tableName table row ts).
Proof.
  intros Hok Hget Hcap Hinv. unfold upserted.
  apply store_ok_set; auto.
  destruct (store_ok_get _ _ _ Hok Hget) as (Hn & Hwf & Hsz & Hrows).
  split; [exact Hn|]. split; [now apply OMapFacts.wf_set|]. split.
  - cbn [rows]. rewrite size_set_le. unfold over_capacity in Hcap.
    destruct (OMap.has (rowKey row) (rows table)); [exact Hsz|].
    rewrite andb_true_r in Hcap. apply geb_false in Hcap. lia.
  - cbn [rows]. intros k r Hin. apply OMapMore.In_set in Hin.
    destruct Hin as [[= -> ->]|Hin].
    + split; [reflexivity|]. split; [now exists ts|].
      cbn [columnFamilies stored_row columns]. apply Forall_forall.
      intros c Hc. unfold first_invalid in Hinv.
      apply (find_none _ _ Hinv) in Hc. now apply negb_false_iff in Hc.
    + exact (Hrows k r Hin).
Qed.

Lemma store_ok_upsertRow w tableName row r w' :
  store_ok w -> upsertRow tableName row w = (r, w') -> store_ok w'.
Proof.
  intros Hok. rewrite upsertRow_run.
  destruct (OMap.get tableName (tables w)) as [table|] eqn:Hget;
    [|now intros [= _ <-]].
  destruct (over_capacity table row) eqn:Hcap; [now intros [= _ <-]|].
  destruct (first_invalid table (OMap.keys (columns row))) eqn:Hinv;
    [now intros [= _ <-]|].
  assert (Ht : store_ok (tick w))
    by (apply (store_ok_tables w); [apply tables_tick | exact Hok]).
  assert (Hgt : OMap.get tableName (tables (tick w)) = Some table)
    by now rewrite tables_tick.
  destruct (timestamp row) as [z|]; [destruct (z =? 0)|];
    intros [= _ <-]; now apply store_ok_upserted.
Qed.

Lemma store_ok_defaults w :
  store_ok (snd (initializeDefaultTables (with_tables OMap.empty w))).
Proof.
  split; simpl.
  - unfold OMap.wf. simpl. repeat constructor; simpl; intuition discriminate.
  - intros n t Hin.
    repeat (destruct Hin as [[= <- <-]|Hin];
            [split; [reflexivity|]; split; [constructor|];
             split; [discriminate | intros k r []]|]).
    destruct Hin.
Qed.

Lemma store_ok_createTable w n fams :
  store_ok w -> store_ok (snd (createTable n fams w)).
Proof.
  intros Hok. rewrite createTable_run.
  destruct (OMap.has n (tables w)); [exact Hok|].
  apply store_ok_set; auto.
  split; [reflexivity|]. split; [constructor|].
  split; [discriminate | intros k r []].
Qed.

Lemma store_ok_deleteTable w n :
  store_ok w -> store_ok (snd (deleteTable n w)).
Proof.
  intros [Hwf Hall]. rewrite deleteTable_run. split; simpl.
  - now apply OMapMore.wf_delete.
  - intros n' t Hin. apply Hall. now apply (OMapMore.In_delete n).
Qed.

Lemma store_ok_deleteRow w tableName k :
  store_ok w -> store_ok (snd (deleteRow tableName k w)).
Proof.
  intros Hok. rewrite deleteRow_run.
  destruct (OMap.get tableName (tables w)) as [table|] eqn:Hget;
    [|exact Hok].
  apply store_ok_set; auto.
  destruct (store_ok_get _ _ _ Hok Hget) as (Hn & Hwf & Hsz & Hrows).
  split; [exact Hn|]. split; [now apply OMapMore.wf_delete|]. split.
  - cbn [rows]. unfold OMap.size in *. rewrite OMapMore.length_delete.
    destruct (OMap.has k (rows table)); lia.
  - cbn [rows]. intros k' r Hin.
    apply (Hrows k' r). now apply (OMapMore.In_delete k).
Qed.

Lemma store_ok_batchUpsert w tableName rs :
  store_ok w -> store_ok (snd (batchUpsert tableName rs w)).
Proof.
  revert w. induction rs as [|r rs IH]; intros w Hok; [exact Hok|].
  cbn [batchUpsert]. unfold bind.
  destruct (upsertRow tableName r w) as [[e|[]] w1] eqn:E.
  - exact (store_ok_upsertRow _ _ _ _ _ Hok E).
  - apply IH. exact (store_ok_upsertRow _ _ _ _ _ Hok E).
Qed.

(** X9.  The store stays well formed. After [new BigtableService()] or
    [clearAllData], and after any [createTable], [deleteTable], [upsertRow],
    [deleteRow] or [batchUpsert] on a well-formed store, whether the call
    returns or throws: table names are distinct and each table carries its
    name; in each table the row keys are distinct, there are at most
    [MAX_TABLE_SIZE] rows, and each row carries its key, has a timestamp,
    and has only columns of families that the table declares. *)
Theorem store_stays_ok :
  (forall w, store_ok (snd (constructor w)))
  /\ (forall w, store_ok (snd (clearAllData w)))
  /\ (forall w, store_ok w ->
        (forall name families, store_ok (snd (createTable name families w)))
        /\ (forall name, store_ok (snd (deleteTable name w)))
        /\ (forall tableName row, store_ok (snd (upsertRow tableName row w)))
        /\ (forall tableName k, store_ok (snd (deleteRow tableName k w)))
        /\ (forall tableName rs, store_ok (snd (batchUpsert tableName rs w)))).
Proof.
  split; [|split].
  - intros w. apply (store_ok_defaults w).
  - intros w. apply (store_ok_defaults w).
  - intros w Hok. split; [|split; [|split; [|split]]].
    + intros n fams. now apply store_ok_createTable.
    + intros n. now apply store_ok_deleteTable.
    + intros tableName row.
      destruct (upsertRow tableName row w) as [r w'] eqn:E.
      exact (store_ok_upsertRow _ _ _ _ _ Hok E).
    + intros tableName k. now apply store_ok_deleteRow.
    + intros tableName rs. now apply store_ok_batchUpsert.
Qed.

(** X10.  A successful [upsertRow] touches one row of one table: every other
    table is as it was, the table keeps its families, every other key has
    the row it had, and the keys keep their order, a new key going to the
    end. *)
Theorem upsertRow_frame w tableName table row w' :
  OMap.get tableName (tables w) = Some table ->
  upsertRow tableName row w = (inr tt, w') ->
  (forall other, other <> tableName ->
     OMap.get other (tables w') = OMap.get other (tables w))
  /\ exists table',
      OMap.get tableName (tables w') = Some table'
      /\ columnFamilies table' = columnFamilies table
      /\ (forall k, k <> rowKey row ->
            OMap.get k (rows table') = OMap.get k (rows table))
      /\ OMap.keys (rows table')
         = if OMap.has (rowKey row) (rows table)
           then OMap.keys (rows table)
           else OMap.keys (rows table) ++ [rowKey row].
Proof.
  intros Hget Hrun. apply upsertRow_success in Hrun.
  destruct Hrun as (table0 & ts & Hget0 & _ & _ & H).
  rewrite Hget in Hget0. injection Hget0 as <-.
  assert (G : forall w0, tables w0 = tables w ->
            w' = upserted w0 tableName table row ts ->
            (forall other, other <> tableName ->
               OMap.get other (tables w') = OMap.get other (tables w))
            /\ exists table',
                OMap.get tableName (tables w') = Some table'
                /\ columnFamilies table' = columnFamilies table
                /\ (forall k, k <> rowKey row ->
                      OMap.get k (rows table') = OMap.get k (rows table))
                /\ OMap.keys (rows table')
                   = if OMap.has (rowKey row) (rows table)
                     then OMap.keys (rows table)
                     else OMap.keys (rows table) ++ [rowKey row]).
  { intros w0 Ht ->. unfold upserted, with_tables. simpl. rewrite Ht. split.
    - intros other Hne. apply OMapFacts.get_set_other. congruence.
    - eexists. split; [apply OMapFacts.get_set_same|].
      split; [reflexivity|]. split.
      + intros k Hne. simpl. apply OMapFacts.get_set_other. congruence.
      + simpl. apply OMapFacts.keys_set. }
  destruct (timestamp row) as [z|]; [destruct (z =? 0)|];
    destruct H as [_ H]; eapply G; try exact H; auto using tables_tick.
Qed.

End Properties.

End StoreProperties.

(* ------------------------------------------------------------------ *)
(** ** The table store: queries *)
(* ------------------------------------------------------------------ *)

Module QueryProperties.
Import Js Bigtable Bigtable.Notations Aux BigtableFacts StoreProperties.

Lemma set_new {V} k (v : V) (m : OMap.t V) :
  OMap.get k m = None -> OMap.set k v m = m ++ [(k, v)].
Proof.
  induction m as [|[k' v'] r IH]; simpl; auto.
  destruct (String.eqb k k') eqn:E; [discriminate|].
  intros H. now rewrite IH.
Qed.

Lemma prefix_empty s : String.prefix "" s = true.
Proof. now destruct s. Qed.

(** *** Prefix *)

Lemma query_loop_prefix p entries acc :
  query_loop (prefix_query p) entries acc
  = acc ++ map snd (filter (fun kv => startsWith p (fst kv)) entries).
Proof.
  assert (Hskip : forall k,
             skipped_by_key (prefix_query p) k = negb (startsWith p k)).
  { intros k. unfold skipped_by_key, prefix_query. simpl.
    rewrite !orb_false_r.
    destruct (String.eqb p "") eqn:Hp; simpl; auto.
    apply String.eqb_eq in Hp. subst p. unfold startsWith.
    now rewrite prefix_empty. }
  revert acc. induction entries as [|[k r] rest IH]; intros acc; simpl.
  - now rewrite app_nil_r.
  - rewrite Hskip. destruct (startsWith p k); simpl.
    + unfold limit_reached. simpl. rewrite IH. now rewrite <- app_assoc.
    + apply IH.
Qed.

Section Properties.
Context {Ext : Type}.
Implicit Types (w : World Ext) (row : BigtableRow) (table : BigtableTable).

(** X11.  A query that gives only a prefix returns, in the order of the
    table, exactly the rows whose key starts with the prefix; with the empty
    prefix these are all the rows. *)
Theorem query_prefix w tableName table p :
  OMap.get tableName (tables w) = Some table ->
  query tableName (prefix_query p) w
  = (inr (map snd (filter (fun kv => startsWith p (fst kv)) (rows table))), w)
  /\ query tableName (prefix_query "") w = (inr (OMap.values (rows table)), w).
Proof.
  intros Hget. rewrite !query_run, Hget, !query_loop_prefix. split.
  - reflexivity.
  - simpl. f_equal. f_equal. unfold OMap.values. f_equal.
    induction (rows table) as [|[k r] rest IH]; simpl; auto.
    unfold startsWith at 1. rewrite prefix_empty. now rewrite IH.
Qed.

End Properties.

(** *** Limit *)

Lemma skipped_without_limit q k :
  skipped_by_key (without_limit q) k = skipped_by_key q k.
Proof. reflexivity. Qed.

Lemma filterRowColumns_without_limit row q :
  filterRowColumns row (without_limit q) = filterRowColumns row q.
Proof. reflexivity. Qed.

(** Without a limit the loop only appends to what it has. *)
Lemma query_loop_unlimited q entries acc :
  limit q = None ->
  query_loop q entries acc = acc ++ query_loop q entries [].
Proof.
  intros Hl. revert acc.
  assert (Hlr : forall l, limit_reached q l = false)
    by (intros l; unfold limit_reached; now rewrite Hl).
  induction entries as [|[k r] rest IH]; intros acc; cbn [query_loop].
  - now rewrite app_nil_r.
  - destruct (skipped_by_key q k); [apply IH|].
    rewrite !Hlr.
    destruct (given (q_columnFamilies q) || given (q_columns q)).
    + destruct (OMap.size (columns (filterRowColumns r q)) >? 0).
      * rewrite IH, (IH ([] ++ _)). now rewrite <- app_assoc.
      * apply IH.
    + rewrite IH, (IH ([] ++ _)). now rewrite <- app_assoc.
Qed.

Lemma query_loop_limited q n entries acc :
  limit q = Some n ->
  0 < n ->
  Z.of_nat (List.length acc) < n ->
  query_loop q entries acc
  = firstn (Z.to_nat n) (query_loop (without_limit q) entries acc).
Proof.
  intros Hl Hn. revert acc.
  assert (Hlr : forall l, limit_reached q l = (Z.of_nat (List.length l) >=? n)).
  { intros l. unfold limit_reached. rewrite Hl. simpl.
    assert (E : (n =? 0) = false) by (apply Z.eqb_neq; lia).
    now rewrite E. }
  assert (Hfull : forall rest (l : list BigtableRow),
             Z.of_nat (List.length l) = n ->
             l = firstn (Z.to_nat n) (query_loop (without_limit q) rest l)).
  { intros rest l Hlen.
    rewrite (query_loop_unlimited (without_limit q)) by reflexivity.
    rewrite firstn_app.
    replace (Z.to_nat n - List.length l)%nat with 0%nat by lia.
    rewrite firstn_all2 by lia. cbn [firstn]. now rewrite app_nil_r. }
  induction entries as [|[k r] rest IH]; intros acc Hacc; cbn [query_loop].
  - rewrite firstn_all2 by lia. reflexivity.
  - rewrite skipped_without_limit.
    destruct (skipped_by_key q k); [now apply IH|].
    change (limit_reached (without_limit q))
      with (fun _ : list BigtableRow => false).
    cbv beta. cbn [given q_columnFamilies q_columns without_limit].
    rewrite filterRowColumns_without_limit.
    set (result' :=
           if given (q_columnFamilies q) || given (q_columns q)
           then if OMap.size (columns (filterRowColumns r q)) >? 0
                then acc ++ [filterRowColumns r q] else acc
           else acc ++ [r]).
    assert (Hlen : Z.of_nat (List.length result') <= n).
    { unfold result'.
      destruct (given (q_columnFamilies q) || given (q_columns q));
        [destruct (OMap.size (columns (filterRowColumns r q)) >? 0)|];
        rewrite ?length_app; cbn [List.length]; lia. }
    rewrite Hlr. destruct (Z.of_nat (List.length result') >=? n) eqn:E.
    + apply Z.geb_le in E. apply Hfull. lia.
    + apply geb_false in E. now apply IH.
Qed.

Section Limit.
Context {Ext : Type}.
Implicit Types (w : World Ext) (row : BigtableRow) (table : BigtableTable).

(** X12.  A positive limit cuts the result and nothing else: the query
    returns the first [limit] rows of what the same query returns without a
    limit, whatever the key bounds and the projection. A limit of 0 is no
    limit. *)
Theorem query_limit w tableName table q n :
  OMap.get tableName (tables w) = Some table ->
  limit q = Some n ->
  (0 < n ->
   exists all,
     query tableName (without_limit q) w = (inr all, w)
     /\ query tableName q w = (inr (firstn (Z.to_nat n) all), w))
  /\ (n = 0 -> query tableName q w = query tableName (without_limit q) w).
Proof.
  intros Hget Hl. rewrite !query_run, Hget. split.
  - intros Hn. eexists. split; [reflexivity|].
    now rewrite (query_loop_limited q n) by (auto; simpl; lia).
  - intros ->. f_equal. f_equal.
    assert (Hlr : forall l, limit_reached q l = false)
      by (intros l; unfold limit_reached; now rewrite Hl).
    generalize (@nil BigtableRow).
    induction (rows table) as [|[k r] rest IH]; intros acc;
      cbn [query_loop]; auto.
    rewrite skipped_without_limit, !Hlr.
    change (limit_reached (without_limit q))
      with (fun _ : list BigtableRow => false).
    cbv beta. cbn [given q_columnFamilies q_columns without_limit].
    rewrite filterRowColumns_without_limit.
    destruct (skipped_by_key q k); auto.
Qed.

End Limit.

(** *** Projection *)

Lemma filter_fold_columns q (cols acc : OMap.t BigtableCell) :
  NoDup (OMap.keys acc ++ OMap.keys cols) ->
  fold_left
    (fun acc (e : string * BigtableCell) =>
       let (column, cell) := e in
       let columnFamily := family_of column in
       if match q_columnFamilies q with
          | Some fs => negb (includes_str fs columnFamily)
          | None => false
          end
       then acc
       else if match q_columns q with
               | Some cs => negb (includes_str cs column)
               | None => false
               end
       then acc
       else OMap.assign_key column cell acc)
    cols acc
  = acc ++ filter (fun e => column_selected q (fst e)) cols.
Proof.
  revert acc. induction cols as [|[c cell] r IH]; intros acc Hnd.
  - simpl. now rewrite app_nil_r.
  - cbn [fold_left filter fst]. unfold column_selected at 1.
    assert (Hc : OMap.get c acc = None).
    { apply OMapFacts.get_None_keys. intros Hin.
      apply NoDup_remove_2 in Hnd. apply Hnd.
      apply in_or_app. now left. }
    assert (Hnd1 : NoDup (OMap.keys acc ++ OMap.keys r)).
    { cbn [OMap.keys map fst] in Hnd. now apply NoDup_remove_1 in Hnd. }
    assert (Hnd2 : NoDup (OMap.keys (acc ++ [(c, cell)]) ++ OMap.keys r)).
    { unfold OMap.keys in *. rewrite map_app. cbn [map fst].
      rewrite <- app_assoc. exact Hnd. }
    unfold OMap.assign_key.
    destruct (q_columnFamilies q) as [fs|];
      [destruct (includes_str fs (family_of c)); cbn [negb andb]|];
      try (now apply IH);
      (destruct (q_columns q) as [cs|];
       [destruct (includes_str cs c); cbn [negb andb]|];
       try (now apply IH);
       (destruct (String.eqb c "__proto__"); cbn [negb];
        [now apply IH|];
        rewrite (set_new _ _ _ Hc), IH by exact Hnd2;
        now rewrite <- app_assoc)).
Qed.

(** X13.  [filterRowColumns] keeps the key and the timestamp of the row and,
    in their order, exactly the columns that the query selects: those of a
    listed family when families are listed, and those listed by name when
    columns are listed; a column named [__proto__] is never among them, the
    assignment under that name making no property. *)
Theorem filterRowColumns_spec row q :
  OMap.wf (columns row) ->
  rowKey (filterRowColumns row q) = rowKey row
  /\ timestamp (filterRowColumns row q) = timestamp row
  /\ columns (filterRowColumns row q)
     = filter (fun e => column_selected q (fst e)) (columns row).
Proof.
  intros Hwf. split; [reflexivity|]. split; [reflexivity|].
  unfold filterRowColumns. cbn [columns].
  now rewrite filter_fold_columns.
Qed.

End QueryProperties.

(* ------------------------------------------------------------------ *)
(** ** The table store: statistics *)
(* ------------------------------------------------------------------ *)

Module StatsProperties.
Import Js Bigtable Bigtable.Notations Aux BigtableFacts StoreProperties.

Lemma JSON_stringify_None v : JSON_stringify v = None <-> v = VUndef.
Proof.
  destruct v as [| |b| | | | |x]; simpl; try (split; discriminate).
  - tauto.
  - destruct b; split; discriminate.
  - destruct x as [|s|m e]; split; discriminate.
Qed.

Lemma cells_size_run cols acc :
  if existsb (fun e => match Bigtable.value (snd e) with
                       | VUndef => true
                       | _ => false
                       end) cols
  then cells_size cols acc = inl TypeError
  else exists n, cells_size cols acc = inr n
                 /\ acc + 8 * Z.of_nat (List.length cols) <= n.
Proof.
  revert acc. induction cols as [|[c cell] r IH]; intros acc.
  - simpl. exists acc. split; [reflexivity | lia].
  - cbn [existsb cells_size snd]. unfold cell_size.
    destruct (Bigtable.value cell) eqn:V;
      try (cbn [JSON_stringify orb]; reflexivity);
      (destruct (JSON_stringify (Bigtable.value cell)) as [t|] eqn:J;
       [| apply JSON_stringify_None in J; congruence]);
      rewrite V in J; rewrite J; cbn [orb];
      specialize (IH (acc + (Z.of_nat (String.length c) * 2
                             + Z.of_nat (String.length t) * 2 + 8)));
      destruct (existsb _ r); auto;
      destruct IH as (n & Hn & Hle); exists n; (split; [exact Hn|]);
      cbn [List.length]; lia.
Qed.

Lemma rows_size_run rs acc :
  0 <= acc ->
  if existsb
       (fun row =>
          existsb (fun e => match Bigtable.value (snd e) with
                            | VUndef => true
                            | _ => false
                            end) (columns row)) rs
  then rows_size rs acc = inl TypeError
  else exists n,
      rows_size rs acc = inr n
      /\ acc + 8 * fold_right
                     (fun row n => Z.of_nat (List.length (columns row)) + n)
                     0 rs <= n.
Proof.
  revert acc. induction rs as [|row r IH]; intros acc Hacc.
  - simpl. exists acc. split; [reflexivity | lia].
  - cbn [existsb rows_size fold_right].
    assert (H := cells_size_run (columns row)
                   (acc + Z.of_nat (String.length (rowKey row)) * 2)).
    destruct (existsb _ (columns row)).
    + now rewrite H.
    + destruct H as (n & Hn & Hle). rewrite Hn. cbn [orb].
      specialize (IH n). destruct (existsb _ r).
      * apply IH. lia.
      * destruct IH as (n' & Hn' & Hle'); [lia|].
        exists n'. split; [exact Hn'|]. lia.
Qed.

Section Properties.
Context {Ext : Type}.
Implicit Types (w : World Ext) (row : BigtableRow) (table : BigtableTable).

(** X14.  [getTableStats] changes nothing. It throws a TypeError exactly
    when some cell of the table holds undefined, a value without a JSON
    text; otherwise it returns the number of rows of the table and a size of
    at least eight bytes per cell. *)
Theorem getTableStats_spec w tableName table :
  OMap.get tableName (tables w) = Some table ->
  (has_undefined table = true ->
   getTableStats tableName w = (inl TypeError, w))
  /\ (has_undefined table = false ->
      exists n,
        getTableStats tableName w
        = (inr (mkStats (OMap.size (rows table)) n), w)
        /\ 8 * cell_count table <= n).
Proof.
  intros Hget. rewrite getTableStats_run, Hget.
  assert (H := rows_size_run (OMap.values (rows table)) 0 (Z.le_refl 0)).
  fold (has_undefined table) in H. fold (cell_count table) in H.
  split; intros Hu; rewrite Hu in H.
  - now rewrite H.
  - destruct H as (n & Hn & Hle). exists n. rewrite Hn. split; [reflexivity|].
    lia.
Qed.

End Properties.

End StatsProperties.

(* ------------------------------------------------------------------ *)
(** ** The index layer: what a row keeps of the metadata *)
(* ------------------------------------------------------------------ *)

Module IndexProperties.
Import Js Bigtable Bigtable.Notations BlobIndex Aux BigtableFacts
  BlobIndexFacts StoreProperties.

Lemma tags_fold_values cols (acc : obj) :
  fold_left
    (fun (acc : obj) (e : string * BigtableCell) =>
       let (column, cell) := e in
       if startsWith "metadata:tag_" column then
         let tagName :=
           substring_from (String.length "metadata:tag_") column in
         OMap.assign_key tagName (Bigtable.value cell) acc
       else acc)
    cols acc
  = fold_left
      (fun (acc : obj) (e : string * JsValue) =>
         if startsWith "metadata:tag_" (fst e)
         then OMap.assign_key
                (substring_from (String.length "metadata:tag_") (fst e))
                (snd e) acc
         else acc)
      (values_of cols) acc.
Proof.
  revert acc. induction cols as [|[c v] r IH]; intros acc; [reflexivity|].
  cbn [fold_left values_of map fst snd]. apply IH.
Qed.

(** The columns of an index row, one by one. *)
Lemma get_index_values_tag m t :
  OMap.wf (tags m) ->
  OMap.get ("metadata:tag_" +s+ t) (index_values m) = OMap.get t (tags m).
Proof.
  intros Hwf. unfold index_values.
  set (v0 := [("metadata:contentType", contentType m); _; _; _]).
  assert (H1 : OMap.get ("metadata:tag_" +s+ t)
                 (set_all "metadata:tag_" (fun v => v) (tags m) v0)
               = OMap.get t (tags m)).
  { rewrite get_set_all_prefix by assumption.
    now destruct (OMap.get t (tags m)). }
  assert (H2 : forall fields,
             OMap.get ("metadata:tag_" +s+ t)
               (set_all "index:" index_value fields
                  (set_all "metadata:tag_" (fun v => v) (tags m) v0))
             = OMap.get t (tags m)).
  { intros fields. rewrite get_set_all_other; [exact H1|].
    intros n H. simpl in H. discriminate. }
  destruct (indexedFields m) as [fields|]; [|exact H1].
  destruct (get_prop (VObj fields) "keywords"); auto.
  simpl truthy. cbv iota. rewrite OMapFacts.get_set_other; auto.
  intros H. simpl in H. discriminate.
Qed.

Lemma get_index_values_base m k :
  (forall n, k <> "metadata:tag_" +s+ n) ->
  (forall n, k <> "index:" +s+ n) ->
  k <> "content:keywords" ->
  OMap.get k (index_values m)
  = OMap.get k
      [("metadata:contentType", contentType m); ("metadata:size", size m);
       ("metadata:createdAt", createdAt m);
       ("metadata:checksum", or_else (checksum m) (VStr ""))].
Proof.
  intros Ht Hi Hk. unfold index_values.
  set (v0 := [("metadata:contentType", contentType m); _; _; _]).
  assert (H1 : OMap.get k (set_all "metadata:tag_" (fun v => v) (tags m) v0)
               = OMap.get k v0) by now apply get_set_all_other.
  assert (H2 : forall fields,
             OMap.get k
               (set_all "index:" index_value fields
                  (set_all "metadata:tag_" (fun v => v) (tags m) v0))
             = OMap.get k v0).
  { intros fields. now rewrite get_set_all_other. }
  destruct (indexedFields m) as [fields|]; [|exact H1].
  destruct (get_prop (VObj fields) "keywords"); auto.
  simpl truthy. cbv iota. rewrite OMapFacts.get_set_other; auto.
Qed.

Lemma get_index_values_keywords m :
  OMap.get "content:keywords" (index_values m)
  = match indexedFields m with
    | Some fields =>
        match OMap.get "keywords" fields with
        | Some (VArr l) => Some (VStr (array_join "," l))
        | _ => None
        end
    | None => None
    end.
Proof.
  unfold index_values.
  set (v0 := [("metadata:contentType", contentType m); _; _; _]).
  assert (H1 : OMap.get "content:keywords"
                 (set_all "metadata:tag_" (fun v => v) (tags m) v0) = None).
  { rewrite get_set_all_other; [reflexivity|].
    intros n H. simpl in H. discriminate. }
  assert (H2 : forall fields,
             OMap.get "content:keywords"
               (set_all "index:" index_value fields
                  (set_all "metadata:tag_" (fun v => v) (tags m) v0))
             = None).
  { intros fields. rewrite get_set_all_other; [exact H1|].
    intros n H. simpl in H. discriminate. }
  destruct (indexedFields m) as [fields|]; [|exact H1].
  unfold get_prop.
  destruct (OMap.get "keywords" fields) as [[| | | | |l| |]|]; auto.
  simpl truthy. cbv iota. apply OMapFacts.get_set_same.
Qed.

Section Properties.
Context {Ext : Type}.
Implicit Types (w : World Ext) (row : BigtableRow) (m : IndexedBlobMetadata).

(** Everything that [rowToIndexedMetadata] returns. *)
Lemma rowToIndexedMetadata_full row w :
  exists m' w',
    rowToIndexedMetadata row w = (inr m', w')
    /\ later w w'
    /\ key m' = rowKey row
    /\ contentType m'
       = or_else (column_value row "metadata:contentType")
           (VStr "application/octet-stream")
    /\ size m' = Number_or (column_value row "metadata:size") 0
    /\ checksum m' = column_value row "metadata:checksum"
    /\ (let n := value_of (ToNumber (column_value row "metadata:createdAt")) in
        if truthy n then createdAt m' = n
        else exists t, createdAt m' = VNum t /\ clock w <= t)
    /\ tags m' = tags_of_values (values_of (columns row))
    /\ indexedFields m'
       = Some (fields_of_values (values_of (columns row))).
Proof.
  unfold rowToIndexedMetadata, fields_of_values, tags_of_values.
  rewrite fields_fold_values, tags_fold_values.
  cbv zeta.
  destruct (truthy (value_of (ToNumber (column_value row "metadata:createdAt"))))
    eqn:T.
  - unfold bind, ret. eexists _, w. split; [reflexivity|].
    split; [apply later_refl|]. cbn [key contentType size checksum createdAt
                                      tags indexedFields].
    repeat split.
  - unfold bind at 1. rewrite (bind_run _ _ _ _ _ (Date_now_run w)).
    unfold ret.
    eexists _, (tick w). split; [reflexivity|].
    split; [apply later_tick|].
    cbn [key contentType size checksum createdAt tags indexedFields].
    repeat split.
    eexists. split; [reflexivity | apply clock_tick].
Qed.

Lemma column_value_values row k :
  column_value row k
  = match OMap.get k (values_of (columns row)) with
    | Some v => v
    | None => VUndef
    end.
Proof.
  unfold column_value. rewrite get_values_of.
  now destruct (OMap.get k (columns row)).
Qed.

(** X15.  What comes back of the metadata. After [indexBlobMetadata] has
    stored the row of [m], [rowToIndexedMetadata] of that row returns the
    key of [m]; name by name, the tags of [m], but for a tag named
    [__proto__], which does not come back; the content type of [m], or
    [application/octet-stream] for a falsy one; the checksum of [m], or the
    empty text for a falsy one; as size, [Number(size) || 0], which is the
    size itself when that is a number other than NaN; and as creation time,
    [Number(createdAt)] when that is neither 0 nor NaN, so the creation time
    itself when it is such a number, and otherwise a reading of the clock
    not before the call. *)
Theorem metadata_roundtrip m w w' :
  OMap.wf (tags m) ->
  indexBlobMetadata m w = (inr tt, w') ->
  exists row m' w'',
    getRow BLOB_INDEX_TABLE (key m) w' = (inr (Some row), w')
    /\ rowToIndexedMetadata row w' = (inr m', w'')
    /\ key m' = key m
    /\ (forall t, OMap.get t (tags m')
                  = if String.eqb t "__proto__" then None
                    else OMap.get t (tags m))
    /\ contentType m'
       = or_else (contentType m) (VStr "application/octet-stream")
    /\ checksum m' = or_else (checksum m) (VStr "")
    /\ size m' = Number_or (size m) 0
    /\ (forall z, size m = VNum z -> size m' = VNum z)
    /\ (forall x, size m = VFloat x -> x <> FNaN -> size m' = VFloat x)
    /\ (if truthy (value_of (ToNumber (createdAt m)))
        then createdAt m' = value_of (ToNumber (createdAt m))
        else exists t, createdAt m' = VNum t /\ clock w' <= t)
    /\ (forall z, createdAt m = VNum z -> z <> 0 -> createdAt m' = VNum z)
    /\ (forall x, createdAt m = VFloat x -> x <> FNaN ->
                  createdAt m' = VFloat x).
Proof.
  intros Hwf Hrun.
  destruct (getRow_after_index m w w' Hrun) as (row & Hget & Hk & Hvals).
  destruct (rowToIndexedMetadata_full row w')
    as (m' & w'' & R & _ & K & CT & SZ & CS & CA & TG & _).
  exists row, m', w''. split; [exact Hget|]. split; [exact R|].
  assert (Hb : forall k,
             (forall n, k <> "metadata:tag_" +s+ n) ->
             (forall n, k <> "index:" +s+ n) ->
             k <> "content:keywords" ->
             column_value row k
             = match OMap.get k
                       [("metadata:contentType", contentType m);
                        ("metadata:size", size m);
                        ("metadata:createdAt", createdAt m);
                        ("metadata:checksum", or_else (checksum m) (VStr ""))]
               with
               | Some v => v
               | None => VUndef
               end).
  { intros k H1 H2 H3.
    now rewrite column_value_values, Hvals, get_index_values_base. }
  cbv zeta in CA.
  rewrite Hb in CT, SZ, CS, CA
    by (try (intros n H; simpl in H); discriminate).
  cbn [OMap.get String.eqb Ascii.eqb Bool.eqb] in CT, SZ, CS, CA.
  split; [congruence|]. split.
  { intros tg. rewrite TG, Hvals.
    rewrite get_tags_of_values by apply index_values_wf.
    destruct (String.eqb tg "__proto__"); [reflexivity|].
    now apply get_index_values_tag. }
  split; [exact CT|]. split; [exact CS|]. split; [exact SZ|].
  split.
  { intros z Hz. rewrite SZ, Hz. unfold Number_or, or_else. simpl.
    destruct (z =? 0) eqn:E; cbn [negb];
      [apply Z.eqb_eq in E; congruence | reflexivity]. }
  split.
  { intros x Hx Hn. rewrite SZ, Hx. now destruct x. }
  split; [exact CA|]. split.
  { intros z Hz Hn. rewrite Hz in CA. simpl in CA.
    apply Z.eqb_neq in Hn. now rewrite Hn in CA. }
  intros x Hx Hn. rewrite Hx in CA. now destruct x.
Qed.

(** X16.  The column [content:keywords]. The index row of [m] has it exactly
    when the indexed field [keywords] of [m] is a list, and then it holds
    the elements of the list joined by commas (the empty text for the empty
    list). *)
Theorem keywords_column m w w' :
  indexBlobMetadata m w = (inr tt, w') ->
  exists row,
    getRow BLOB_INDEX_TABLE (key m) w' = (inr (Some row), w')
    /\ option_map Bigtable.value (OMap.get "content:keywords" (columns row))
       = match indexedFields m with
         | Some fields =>
             match OMap.get "keywords" fields with
             | Some (VArr l) => Some (VStr (array_join "," l))
             | _ => None
             end
         | None => None
         end.
Proof.
  intros Hrun.
  destruct (getRow_after_index m w w' Hrun) as (row & Hget & _ & Hvals).
  exists row. split; [exact Hget|].
  rewrite <- get_values_of, Hvals. apply get_index_values_keywords.
Qed.

End Properties.

End IndexProperties.

(* ------------------------------------------------------------------ *)
(** ** The index layer: fields and search *)
(* ------------------------------------------------------------------ *)

Module IndexOperations.
Import Js Bigtable Bigtable.Notations BlobIndex Aux BigtableFacts
  BlobIndexFacts StoreProperties IndexProperties.


Lemma In_firstn {A} n (l : list A) x : In x (firstn n l) -> In x l.
Proof.
  revert l. induction n as [|n IH]; intros [|a l]; simpl; try tauto.
  intros [H|H]; auto.
Qed.

Lemma Forall2_same_length {A B} (R : A -> B -> Prop) l1 l2 :
  Forall2 R l1 l2 -> List.length l1 = List.length l2.
Proof. induction 1; simpl; congruence. Qed.

Lemma Forall2_In_right {A B} (R : A -> B -> Prop) l1 l2 y :
  Forall2 R l1 l2 -> In y l2 -> exists x, In x l1 /\ R x y.
Proof.
  induction 1 as [|a b l1 l2 Hab _ IH]; simpl; [tauto|].
  intros [<-|H].
  - exists a. auto.
  - destruct (IH H) as (x & Hx & Hr). exists x. auto.
Qed.

Section Properties.
Context {Ext : Type}.
Implicit Types (w : World Ext) (row : BigtableRow) (m : IndexedBlobMetadata).


(** X18.  [initializeIndexTable] never throws. When the index table exists
    it changes nothing; when it does not, it creates it, empty, with the
    families metadata, index and content; a second call changes nothing. *)
Theorem initializeIndexTable_spec w :
  exists w',
    initializeIndexTable w = (inr tt, w')
    /\ (OMap.has BLOB_INDEX_TABLE (tables w) = true -> w' = w)
    /\ (OMap.has BLOB_INDEX_TABLE (tables w) = false ->
        getTable BLOB_INDEX_TABLE w'
        = (inr (mkTable BLOB_INDEX_TABLE OMap.empty index_families), w')
        /\ forall other, other <> BLOB_INDEX_TABLE ->
             OMap.get other (tables w') = OMap.get other (tables w))
    /\ initializeIndexTable w' = (inr tt, w').
Proof.
  assert (Hex : forall w0 t,
             OMap.get BLOB_INDEX_TABLE (tables w0) = Some t ->
             initializeIndexTable w0 = (inr tt, w0)).
  { intros w0 t H. unfold initializeIndexTable, try_catch, bind.
    now rewrite getTable_run, H. }
  unfold OMap.has.
  destruct (OMap.get BLOB_INDEX_TABLE (tables w)) as [t|] eqn:Hget.
  - exists w. rewrite (Hex w t Hget). repeat split; discriminate.
  - assert (Hrun : initializeIndexTable w
                   = (inr tt,
                      with_tables
                        (OMap.set BLOB_INDEX_TABLE
                           (mkTable BLOB_INDEX_TABLE OMap.empty index_families)
                           (tables w)) w)).
    { unfold initializeIndexTable, try_catch. unfold bind at 1.
      rewrite getTable_run, Hget. unfold bind at 1.
      rewrite createTable_run. unfold OMap.has. now rewrite Hget. }
    eexists. split; [exact Hrun|]. split; [discriminate|]. split.
    + intros _. split.
      * rewrite getTable_run. simpl. now rewrite OMapFacts.get_set_same.
      * intros other Hne. simpl. apply OMapFacts.get_set_other. congruence.
    + eapply Hex. simpl. apply OMapFacts.get_set_same.
Qed.

(** The rows that the scan returns are rows of the table. *)
Lemma scanned_In options table row :
  In row (scanned options table) ->
  exists k, In (k, row) (rows table).
Proof.
  unfold scanned, OMap.values. intros H. apply In_firstn in H.
  apply in_map_iff in H. destruct H as ([k r] & <- & Hin). now exists k.
Qed.

Lemma filter_rows_In query rs l row :
  filter_rows query rs = inr l -> In row l -> In row rs.
Proof.
  revert l. induction rs as [|r rs IH]; intros l; cbn [filter_rows].
  - now intros [= <-].
  - destruct (row_matches query r) as [e|b]; [discriminate|].
    destruct (filter_rows query rs) as [e|l']; [discriminate|].
    intros [= <-]. specialize (IH l' eq_refl).
    destruct b; simpl; intuition.
Qed.

Lemma filter_rows_length query rs l :
  filter_rows query rs = inr l -> (List.length l <= List.length rs)%nat.
Proof.
  revert l. induction rs as [|r rs IH]; intros l; cbn [filter_rows].
  - now intros [= <-].
  - destruct (row_matches query r) as [e|b]; [discriminate|].
    destruct (filter_rows query rs) as [e|l']; [discriminate|].
    intros [= <-]. specialize (IH l' eq_refl).
    destruct b; simpl; lia.
Qed.

Lemma searchBlobs_inr query options w l w' :
  searchBlobs query options w = (inr l, w') ->
  tables w' = tables w
  /\ Z.of_nat (List.length l) <= Z.max 1 (scan_limit options)
  /\ forall x, In x l ->
       exists table k row,
         OMap.get BLOB_INDEX_TABLE (tables w) = Some table
         /\ In (k, row) (rows table)
         /\ reconstructs row x.
Proof.
  rewrite searchBlobs_run.
  destruct (OMap.get BLOB_INDEX_TABLE (tables w)) as [table|] eqn:Hget.
  - destruct (filter_rows query (scanned options table)) as [e|rs] eqn:Hf.
    + intros [= <- <-]. repeat split; simpl; [lia | tauto].
    + destruct (map_rows_run rs w) as (ms & w1 & R & (Ht & _) & FA).
      rewrite R. intros [= <- <-]. split; [exact Ht|]. split.
      * rewrite <- (Forall2_same_length _ _ _ FA).
        apply filter_rows_length in Hf. unfold scanned in Hf.
        rewrite length_firstn in Hf. lia.
      * intros x Hx.
        destruct (Forall2_In_right _ _ _ _ FA Hx) as (row & Hin & Hrec).
        apply (filter_rows_In _ _ _ _ Hf) in Hin.
        destruct (scanned_In _ _ _ Hin) as (k & Hk).
        now exists table, k, row.
  - intros [= <- <-]. repeat split; simpl; [lia | tauto].
Qed.

(** X19.  [searchBlobs] leaves the tables as they were; it returns at most
    [options.limit || 100] records (one for a negative limit), and every
    record it returns is the reconstruction of a row of the index table. *)
Theorem searchBlobs_results query options w l w' :
  searchBlobs query options w = (inr l, w') ->
  tables w' = tables w
  /\ Z.of_nat (List.length l) <= Z.max 1 (scan_limit options)
  /\ forall x, In x l ->
       exists table k row,
         OMap.get BLOB_INDEX_TABLE (tables w) = Some table
         /\ In (k, row) (rows table)
         /\ reconstructs row x.
Proof. apply searchBlobs_inr. Qed.

(** X20.  The empty query matches every row: [searchBlobs({})] returns the
    reconstruction of each scanned row, in scan order. *)
Theorem searchBlobs_empty_query options w table :
  OMap.get BLOB_INDEX_TABLE (tables w) = Some table ->
  exists ms w',
    searchBlobs [] options w = (inr ms, w')
    /\ Forall2 reconstructs (scanned options table) ms.
Proof.
  intros Hget. rewrite searchBlobs_run, Hget.
  assert (Hf : forall rs, filter_rows [] rs = inr rs).
  { induction rs as [|r rs IH]; cbn [filter_rows row_matches]; auto.
    now rewrite IH. }
  rewrite Hf.
  destruct (map_rows_run (scanned options table) w) as (ms & w' & R & _ & FA).
  now exists ms, w'.
Qed.

End Properties.

End IndexOperations.

(* ------------------------------------------------------------------ *)
(** ** The index layer and the blob store *)
(* ------------------------------------------------------------------ *)

Module BlobOperations.
Import Js Bigtable Bigtable.Notations BlobIndex Aux BigtableFacts
  BlobIndexFacts StoreProperties StatsProperties IndexProperties
  IndexOperations.

Lemma wf_tags_of_values vals : OMap.wf (tags_of_values vals).
Proof.
  unfold tags_of_values.
  assert (H : OMap.wf (@OMap.empty JsValue)) by constructor.
  revert H. generalize (@OMap.empty JsValue).
  induction vals as [|[c v] r IH]; intros acc Hacc; cbn [fold_left fst snd];
    auto.
  apply IH. destruct (startsWith "metadata:tag_" c); auto.
  now apply wf_assign_key.
Qed.

Section Properties.
Context {Ext : Type}.
Variable Data : Type.
Variable blob_storeBlob :
  string -> Data -> JsValue -> obj -> Ext ->
  (Error + IndexedBlobMetadata) * Ext.
Variable blob_updateBlobMetadata :
  string -> obj -> Ext -> (Error + unit) * Ext.
Variable blob_getBlob :
  string -> Ext -> (Error + option (IndexedBlobMetadata * Data)) * Ext.
Variable blob_deleteBlob : string -> Ext -> (Error + bool) * Ext.
Variable blob_getStats : Ext -> (Error + BlobStats) * Ext.
Implicit Types (w : World Ext) (row : BigtableRow) (m : IndexedBlobMetadata).

Lemma call_ext_with {A} (f : Ext -> (Error + A) * Ext) w r x :
  f (ext w) = (r, x) -> call_ext f w = (r, with_ext x w).
Proof. unfold call_ext, with_ext. now intros ->. Qed.

(** X21.  [storeBlob] refuses a key of more than [MAX_KEY_SIZE] characters
    before it asks the blob store, and changes nothing. For a shorter key an
    error of the blob store is passed on. It is not atomic: when the blob
    store has stored the blob and the index table is missing, the call
    throws NotFound and the blob stays stored. *)
Theorem storeBlob_errors key data contentType tags fields w :
  (MAX_KEY_SIZE < Z.of_nat (String.length key) ->
   storeBlob Data blob_storeBlob key data contentType tags fields w
   = (inl KeyTooLong, w))
  /\ (Z.of_nat (String.length key) <= MAX_KEY_SIZE ->
      (forall e x,
          blob_storeBlob key data contentType tags (ext w) = (inl e, x) ->
          storeBlob Data blob_storeBlob key data contentType tags fields w
          = (inl e, with_ext x w))
      /\ (forall bm x,
             blob_storeBlob key data contentType tags (ext w) = (inr bm, x) ->
             OMap.get BLOB_INDEX_TABLE (tables w) = None ->
             exists w',
               storeBlob Data blob_storeBlob key data contentType tags fields w
               = (inl (NotFound BLOB_INDEX_TABLE), w')
               /\ ext w' = x /\ tables w' = tables w)).
Proof.
  unfold storeBlob. split.
  - intros H. apply Z.gtb_lt in H. now rewrite H.
  - intros H.
    assert (E : (Z.of_nat (String.length key) >? MAX_KEY_SIZE) = false).
    { destruct (Z.gtb_spec (Z.of_nat (String.length key)) MAX_KEY_SIZE);
        [lia | reflexivity]. }
    rewrite E. unfold bind at 1, ret at 1. split.
    + intros e x Hb. unfold bind at 1.
      now rewrite (call_ext_with (blob_storeBlob key data contentType tags)
                     _ _ _ Hb).
    + intros bm x Hb Hget. unfold bind at 1, ret at 1. unfold bind at 1.
      rewrite (call_ext_with (blob_storeBlob key data contentType tags)
                 _ _ _ Hb).
      unfold bind at 1.
      match goal with
      | |- context [indexBlobMetadata ?im (with_ext x w)] =>
          destruct (indexBlobMetadata_run im (with_ext x w))
            as (row & w1 & Hrun & (Ht & He & _) & _)
      end.
      rewrite Hrun, upsertRow_run, Ht. simpl tables. rewrite Hget.
      eexists. split; [reflexivity|]. split; [exact He | exact Ht].
Qed.

(** X22.  [getBlob] passes on an error of the blob store and returns null
    for a blob that the blob store has not. For a blob that it has, the call
    does not throw: with an index row under the key it returns the
    reconstruction of that row and the payload of the blob; without one, or
    without the index table, the metadata of the blob store and the payload.
    *)
Theorem getBlob_spec key w :
  (forall e x,
      blob_getBlob key (ext w) = (inl e, x) ->
      getBlob Data blob_getBlob key w = (inl e, with_ext x w))
  /\ (forall x,
         blob_getBlob key (ext w) = (inr None, x) ->
         getBlob Data blob_getBlob key w = (inr None, with_ext x w))
  /\ (forall bm data x,
         blob_getBlob key (ext w) = (inr (Some (bm, data)), x) ->
         (OMap.get BLOB_INDEX_TABLE (tables w) = None ->
          getBlob Data blob_getBlob key w
          = (inr (Some (bm, data)), with_ext x w))
         /\ (forall table,
                OMap.get BLOB_INDEX_TABLE (tables w) = Some table ->
                OMap.get key (rows table) = None ->
                getBlob Data blob_getBlob key w
                = (inr (Some (bm, data)), with_ext x w))
         /\ (forall table row,
                OMap.get BLOB_INDEX_TABLE (tables w) = Some table ->
                OMap.get key (rows table) = Some row ->
                exists m' w',
                  getBlob Data blob_getBlob key w
                  = (inr (Some (m', data)), w')
                  /\ reconstructs row m')).
Proof.
  unfold getBlob. split; [|split].
  - intros e x Hb. unfold bind.
    now rewrite (call_ext_with (blob_getBlob key) _ _ _ Hb).
  - intros x Hb. unfold bind.
    now rewrite (call_ext_with (blob_getBlob key) _ _ _ Hb).
  - intros bm data x Hb.
    rewrite (bind_run _ _ _ _ _ (call_ext_with (blob_getBlob key) _ _ _ Hb)).
    split; [|split].
    + intros Hget. unfold bind at 1, try_catch. unfold bind at 1.
      rewrite getRow_run. simpl tables. now rewrite Hget.
    + intros table Hget Hrow. unfold bind at 1, try_catch. unfold bind at 1.
      rewrite getRow_run. simpl tables. now rewrite Hget, Hrow.
    + intros table row Hget Hrow. unfold bind at 1, try_catch.
      unfold bind at 1. rewrite getRow_run. simpl tables.
      rewrite Hget, Hrow.
      destruct (rowToIndexedMetadata_run row (with_ext x w))
        as (m' & w' & R & _ & K & F).
      rewrite (bind_run _ _ _ _ _ R). unfold ret.
      exists m', w'. split; [reflexivity | now split].
Qed.

(** X23.  [deleteBlob] does not throw. Without the index table it returns
    false and changes nothing: the blob store is not asked to delete the
    blob. With the index table it removes the index row, asks the blob
    store, and returns its answer, or false when the blob store throws; the
    index row is gone in either case and the other rows are as they were. *)
Theorem deleteBlob_spec key w :
  (OMap.get BLOB_INDEX_TABLE (tables w) = None ->
   deleteBlob blob_deleteBlob key w = (inr false, w))
  /\ (forall table r x,
         OMap.get BLOB_INDEX_TABLE (tables w) = Some table ->
         OMap.wf (rows table) ->
         blob_deleteBlob key (ext w) = (r, x) ->
         exists w',
           deleteBlob blob_deleteBlob key w
           = (inr (match r with inr b => b | inl _ => false end), w')
           /\ ext w' = x
           /\ getRow BLOB_INDEX_TABLE key w' = (inr None, w')
           /\ forall k, k <> key ->
                getRow BLOB_INDEX_TABLE k w'
                = (inr (OMap.get k (rows table)), w')).
Proof.
  unfold deleteBlob, try_catch. split.
  - intros Hget. unfold bind. now rewrite deleteRow_run, Hget.
  - intros table r x Hget Hwf Hb. unfold bind at 1.
    rewrite deleteRow_run, Hget.
    match goal with
    | |- context [call_ext _ ?w1] =>
        assert (Hb1 : blob_deleteBlob key (ext w1) = (r, x)) by exact Hb;
        rewrite (call_ext_with (blob_deleteBlob key) w1 _ _ Hb1)
    end.
    eexists. split; [destruct r; reflexivity|]. split; [reflexivity|].
    split.
    + rewrite getRow_run. simpl. rewrite OMapFacts.get_set_same. simpl.
      now rewrite OMapMore.get_delete_same.
    + intros k Hne. rewrite getRow_run. simpl.
      rewrite OMapFacts.get_set_same. simpl.
      rewrite OMapMore.get_delete_other; [reflexivity | congruence].
Qed.

(** X24.  [getStats] passes on an error of the blob store. Otherwise it
    returns the figures of the blob store and, as the number of indexed
    blobs, the number of rows of the index table, or 0 when the index table
    is missing or one of its cells holds undefined. *)
Theorem getStats_spec w :
  (forall e x,
      blob_getStats (ext w) = (inl e, x) ->
      getStats blob_getStats w = (inl e, with_ext x w))
  /\ (forall bs x,
         blob_getStats (ext w) = (inr bs, x) ->
         getStats blob_getStats w
         = (inr (mkIndexStats (count bs) (totalSize bs) (availableSize bs)
                   match OMap.get BLOB_INDEX_TABLE (tables w) with
                   | Some table =>
                       if has_undefined table then 0
                       else OMap.size (rows table)
                   | None => 0
                   end),
            with_ext x w)).
Proof.
  unfold getStats. split.
  - intros e x Hb. unfold bind.
    now rewrite (call_ext_with blob_getStats _ _ _ Hb).
  - intros bs x Hb.
    rewrite (bind_run _ _ _ _ _ (call_ext_with blob_getStats _ _ _ Hb)).
    unfold bind, try_catch. rewrite getTableStats_run. simpl tables.
    destruct (OMap.get BLOB_INDEX_TABLE (tables w)) as [table|] eqn:Hget;
      [|reflexivity].
    assert (H := rows_size_run (OMap.values (rows table)) 0 (Z.le_refl 0)).
    fold (has_undefined table) in H.
    destruct (has_undefined table).
    + now rewrite H.
    + destruct H as (n & Hn & _). now rewrite Hn.
Qed.

(** X25.  [updateIndexedMetadata] and the tags. When the blob store throws
    on the new tags, the call returns null and the tables are as they were.
    When the call returns metadata, its tags are the supplied tags as a
    whole, or the tags of the index row when none are supplied, and the tag
    columns of the row stored under the key hold exactly these tags. The
    tags of the index row are the values of its tag columns, but for a tag
    named [__proto__], which is not among them: without supplied tags, the
    column of that tag is gone after the call. *)
Theorem updateIndexedMetadata_tags key tags supplied w table row :
  OMap.get BLOB_INDEX_TABLE (tables w) = Some table ->
  OMap.get key (rows table) = Some row ->
  (forall t e x,
      tags = Some t ->
      blob_updateBlobMetadata key t (ext w) = (inl e, x) ->
      exists w',
        updateIndexedMetadata blob_updateBlobMetadata key tags supplied w
        = (inr None, w')
        /\ tables w' = tables w)
  /\ (forall updated w',
         OMap.wf (spread tags) ->
         updateIndexedMetadata blob_updateBlobMetadata key tags supplied w
         = (inr (Some updated), w') ->
         BlobIndex.tags updated
         = match tags with
           | Some t => t
           | None => tags_of_values (values_of (columns row))
           end
         /\ exists row',
             getRow BLOB_INDEX_TABLE (rowKey row) w' = (inr (Some row'), w')
             /\ forall n,
                 option_map Bigtable.value
                   (OMap.get ("metadata:tag_" +s+ n) (columns row'))
                 = OMap.get n (BlobIndex.tags updated))
  /\ (OMap.wf (columns row) ->
      forall n,
        OMap.get n (tags_of_values (values_of (columns row)))
        = if String.eqb n "__proto__" then None
          else option_map Bigtable.value
                 (OMap.get ("metadata:tag_" +s+ n) (columns row))).
Proof.
  intros Hget Hrow.
  assert (Hg : getRow BLOB_INDEX_TABLE key w = (inr (Some row), w))
    by (now rewrite getRow_run, Hget, Hrow).
  destruct (rowToIndexedMetadata_full row w)
    as (existing & w1 & R & (Lt & Le & _) & K & _ & _ & _ & _ & TG & _).
  split.
  - intros t e x -> Hb. rewrite <- Le in Hb.
    unfold updateIndexedMetadata, try_catch.
    rewrite (bind_run _ _ _ _ _ Hg), (bind_run _ _ _ _ _ R).
    unfold bind at 1.
    rewrite (call_ext_with (blob_updateBlobMetadata key t) _ _ _ Hb).
    eexists. split; [reflexivity|]. exact Lt.
  - split; [|intros Hwfr n; rewrite get_tags_of_values, get_values_of;
             [reflexivity | unfold OMap.wf; now rewrite keys_values_of]].
    intros updated w' Hwf Hrun.
    unfold updateIndexedMetadata, try_catch in Hrun.
    rewrite (bind_run _ _ _ _ _ Hg), (bind_run _ _ _ _ _ R) in Hrun.
    unfold bind at 1 in Hrun.
    destruct (match tags with
              | Some t => call_ext (blob_updateBlobMetadata key t)
              | None => ret tt
              end w1) as [[e|[]] w2]; [discriminate|].
    unfold bind at 1 in Hrun.
    match type of Hrun with
    | context [indexBlobMetadata ?u w2] =>
        destruct (indexBlobMetadata u w2) as [[e|[]] w3] eqn:Hidx;
        [discriminate|]
    end.
    unfold ret in Hrun. injection Hrun as <- <-.
    split; [cbn [BlobIndex.tags]; now rewrite TG|].
    destruct (getRow_after_index _ _ _ Hidx) as (row' & Hg' & _ & Hv).
    cbn [BlobIndex.key] in Hg'. rewrite K in Hg'.
    exists row'. split; [exact Hg'|].
    intros n. rewrite <- get_values_of, Hv.
    rewrite get_index_values_tag; [reflexivity|].
    cbn [BlobIndex.tags]. destruct tags as [t|]; [exact Hwf|].
    rewrite TG. apply wf_tags_of_values.
Qed.

(** X26.  After [deleteBlob] in a well-formed store with the index table, no
    search returns a record with the deleted key. *)
Theorem deleteBlob_then_search key w table r w1 query options l w2 :
  store_ok w ->
  OMap.get BLOB_INDEX_TABLE (tables w) = Some table ->
  deleteBlob blob_deleteBlob key w = (r, w1) ->
  searchBlobs query options w1 = (inr l, w2) ->
  forall x, In x l -> BlobIndex.key x <> key.
Proof.
  intros Hok Hget Hdel Hsearch x Hx.
  destruct (store_ok_get _ _ _ Hok Hget) as (_ & Hwf & _ & Hrows).
  assert (Htab : OMap.get BLOB_INDEX_TABLE (tables w1)
                 = Some (mkTable (name table) (OMap.delete key (rows table))
                           (columnFamilies table))).
  { unfold deleteBlob, try_catch in Hdel. unfold bind at 1 in Hdel.
    rewrite deleteRow_run, Hget in Hdel.
    match type of Hdel with
    | context [call_ext ?f ?w0] =>
        unfold call_ext in Hdel;
        destruct (blob_deleteBlob key (ext w0)) as [[e|b] x0]
    end; injection Hdel as _ <-; simpl; apply OMapFacts.get_set_same. }
  destruct (searchBlobs_inr _ _ _ _ _ Hsearch) as (_ & _ & Hall).
  destruct (Hall x Hx) as (t & k & row & Ht & Hin & (Hk & _)).
  rewrite Htab in Ht. injection Ht as <-. cbn [rows] in Hin.
  assert (Hin' := OMapMore.In_delete _ _ _ Hin).
  destruct (Hrows k row Hin') as (Hrk & _).
  rewrite Hk, Hrk. intros ->.
  assert (G : OMap.get key (OMap.delete key (rows table)) = None)
    by now apply OMapMore.get_delete_same.
  apply OMapFacts.get_None_keys in G. apply G.
  change key with (fst (key, row)). now apply in_map.
Qed.

End Properties.

End BlobOperations.

(* ------------------------------------------------------------------ *)
(** ** JSON text: what is written is read back *)
(* ------------------------------------------------------------------ *)

Module JsonFacts.
Import Js Aux.

(** Induction on values, with the hypothesis for the elements of a list
    and the values of an object. *)
Lemma JsValue_nested_ind (P : JsValue -> Prop) :
  P VUndef -> P VNull -> (forall b, P (VBool b)) -> (forall z, P (VNum z)) ->
  (forall s, P (VStr s)) ->
  (forall l, Forall P l -> P (VArr l)) ->
  (forall l, Forall (fun e => P (snd e)) l -> P (VObj l)) ->
  (forall x, P (VFloat x)) ->
  forall v, P v.
Proof.
  intros HU HN HB HZ HS HA HO HF.
  fix IH 1. intros [| |b|z|s|l|l|x].
  - exact HU.
  - exact HN.
  - apply HB.
  - apply HZ.
  - apply HS.
  - apply HA. induction l as [|x l IHl]; constructor; [apply IH | exact IHl].
  - apply HO.
    induction l as [|[k x] l IHl]; constructor; [apply IH | exact IHl].
  - apply HF.
Qed.

(** *** Texts *)

Lemma append_assoc (a b c : string) : (a +s+ b) +s+ c = a +s+ b +s+ c.
Proof. induction a as [|x a IH]; simpl; [reflexivity | now rewrite IH]. Qed.

Lemma append_nil_r (a : string) : a +s+ "" = a.
Proof. induction a as [|x a IH]; simpl; [reflexivity | now rewrite IH]. Qed.

Lemma length_append (a b : string) :
  String.length (a +s+ b) = (String.length a + String.length b)%nat.
Proof. induction a as [|x a IH]; simpl; [reflexivity | now rewrite IH]. Qed.

Lemma endsWith_append t a : endsWith t (a +s+ t) = true.
Proof.
  induction a as [|x a IH]; simpl.
  - destruct t; simpl; now rewrite ?String.eqb_refl, ?Ascii.eqb_refl.
  - rewrite IH. now destruct (String.eqb t (String x (a +s+ t))).
Qed.

(** *** String literals *)

Lemma parse_string_escape_char c tail :
  parse_string_body (escape_char c +s+ tail)
  = match parse_string_body tail with
    | Some (t, rest) => Some (String c t, rest)
    | None => None
    end.
Proof. destruct c as [[] [] [] [] [] [] [] []]; reflexivity. Qed.

Lemma parse_string_escape s rest :
  parse_string_body (escape s +s+ String dquote rest) = Some (s, rest).
Proof.
  induction s as [|c s IH]; [reflexivity|].
  cbn [escape]. rewrite append_assoc, parse_string_escape_char.
  now rewrite IH.
Qed.

Lemma parse_string_quote s rest :
  exists body,
    quote s +s+ rest = String dquote body
    /\ parse_string_body body = Some (s, rest).
Proof.
  exists (escape s +s+ String dquote rest). split.
  - unfold quote. cbn [String.append]. now rewrite append_assoc.
  - apply parse_string_escape.
Qed.

(** *** Texts of digits *)

Lemma digit_of_after_value c rest :
  after_value (String c rest) = true ->
  digit_of c = None
  /\ (Ascii.eqb c "e" || Ascii.eqb c "E") = false
  /\ Ascii.eqb c "." = false.
Proof.
  unfold after_value. intros H.
  apply orb_true_iff in H. destruct H as [H|H];
    [apply orb_true_iff in H; destruct H as [H|H]|];
    apply Ascii.eqb_eq in H; subst c; repeat split; reflexivity.
Qed.

Lemma after_value_no_digit rest :
  after_value rest = true -> no_digit_next rest = true.
Proof.
  destruct rest as [|c rest]; [reflexivity|]. intros H.
  destruct (digit_of_after_value c rest H) as (D & _).
  cbn [no_digit_next]. now rewrite D.
Qed.

Lemma read_digits_text a r acc n :
  all_digits a = true -> no_digit_next r = true ->
  read_digits (a +s+ r) acc n
  = ((n + String.length a)%nat, number_of a acc, r).
Proof.
  revert acc n. induction a as [|c a IH]; intros acc n Ha Hr.
  - cbn [String.append String.length number_of]. rewrite Nat.add_0_r.
    destruct r as [|c r]; [reflexivity|].
    cbn [no_digit_next] in Hr. cbn [read_digits].
    now destruct (digit_of c).
  - cbn [String.append String.length number_of read_digits all_digits] in *.
    destruct (digit_of c); [|discriminate].
    rewrite IH by assumption. f_equal. f_equal. lia.
Qed.

Lemma all_digits_app a b :
  all_digits (a +s+ b) = all_digits a && all_digits b.
Proof.
  induction a as [|c a IH]; [reflexivity|].
  cbn [String.append all_digits]. now destruct (digit_of c).
Qed.

Lemma number_of_app a b acc :
  all_digits a = true ->
  number_of (a +s+ b) acc = number_of b (number_of a acc).
Proof.
  revert acc. induction a as [|c a IH]; intros acc Ha; [reflexivity|].
  cbn [String.append all_digits number_of] in *.
  destruct (digit_of c); [now apply IH | discriminate].
Qed.

Lemma all_digits_zeros n : all_digits (zeros n) = true.
Proof. induction n; [reflexivity | exact IHn]. Qed.

Lemma length_zeros n : String.length (zeros n) = n.
Proof. induction n; [reflexivity | cbn; now rewrite IHn]. Qed.

Lemma number_of_zeros n acc : number_of (zeros n) acc = acc * 10 ^ Z.of_nat n.
Proof.
  revert acc. induction n as [|n IH]; intros acc.
  - cbn. lia.
  - cbn [zeros number_of]. change (digit_of "0") with (Some 0).
    cbv iota. rewrite IH, Nat2Z.inj_succ, Z.pow_succ_r by lia. lia.
Qed.

Lemma substring_split n s : substring_to n s +s+ substring_from n s = s.
Proof.
  revert s. induction n as [|n IH]; intros [|c s]; try reflexivity.
  cbn. now rewrite IH.
Qed.

Lemma length_substring_to n s :
  (n <= String.length s)%nat -> String.length (substring_to n s) = n.
Proof.
  revert s. induction n as [|n IH]; intros [|c s] H; cbn in *;
    try reflexivity; try lia.
  rewrite IH; lia.
Qed.

Lemma length_substring_from n s :
  String.length (substring_from n s) = (String.length s - n)%nat.
Proof.
  revert s. induction n as [|n IH]; intros [|c s]; cbn; try reflexivity.
  apply IH.
Qed.

Lemma all_digits_split n s :
  all_digits s = true ->
  all_digits (substring_to n s) = true
  /\ all_digits (substring_from n s) = true.
Proof.
  intros H. rewrite <- (substring_split n s), all_digits_app in H.
  now apply andb_true_iff in H.
Qed.

(** *** The digits of an integer *)

Lemma all_digits_uint u : all_digits (NilEmpty.string_of_uint u) = true.
Proof. induction u; cbn [NilEmpty.string_of_uint all_digits]; auto. Qed.

Lemma number_of_uint u p :
  number_of (NilEmpty.string_of_uint u) (Z.pos p)
  = Z.pos (Pos.of_uint_acc u p).
Proof.
  revert p.
  induction u; intros p;
    cbn [NilEmpty.string_of_uint number_of Pos.of_uint_acc];
    try reflexivity;
    change (digit_of "0") with (Some 0);
    change (digit_of "1") with (Some 1);
    change (digit_of "2") with (Some 2);
    change (digit_of "3") with (Some 3);
    change (digit_of "4") with (Some 4);
    change (digit_of "5") with (Some 5);
    change (digit_of "6") with (Some 6);
    change (digit_of "7") with (Some 7);
    change (digit_of "8") with (Some 8);
    change (digit_of "9") with (Some 9);
    cbv iota;
    match goal with
    | |- number_of _ ?a = Z.pos (Pos.of_uint_acc _ ?q) =>
        replace a with (Z.pos q) by lia
    end;
    apply IHu.
Qed.

(** The digits of a positive number do not start with 0. *)
Lemma to_uint_head p :
  match Pos.to_uint p with
  | Decimal.Nil | Decimal.D0 _ => False
  | _ => True
  end.
Proof.
  pose proof (DecimalPos.Unsigned.to_of (Pos.to_uint p)) as H.
  rewrite DecimalPos.Unsigned.of_to in H. cbn [N.to_uint] in H.
  pose proof (DecimalPos.Unsigned.to_uint_nonzero p) as Hz.
  destruct (Pos.to_uint p) as [|u|u|u|u|u|u|u|u|u|u] eqn:E; auto.
  unfold Decimal.unorm in H. cbn [Decimal.nzhead] in H.
  destruct (Decimal.nzhead u) as [|u0|u0|u0|u0|u0|u0|u0|u0|u0|u0] eqn:Hu;
    try discriminate H.
  - now apply Hz.
  - exact (DecimalFacts.nzhead_nonzero u u0 Hu).
Qed.

(** The text of a positive integer: a digit other than 0, then digits,
    which make the integer. *)
Lemma digits_pos q :
  exists c t d,
    string_of_Z (Z.pos q) = String c t
    /\ digit_of c = Some d /\ (d =? 0) = false
    /\ all_digits t = true /\ number_of t d = Z.pos q.
Proof.
  unfold string_of_Z. cbn [Z.to_int NilZero.string_of_int].
  pose proof (to_uint_head q) as Hh.
  pose proof (DecimalPos.Unsigned.of_to q) as Hp.
  destruct (Pos.to_uint q) as [|u|u|u|u|u|u|u|u|u|u]; try contradiction;
    cbn [NilZero.string_of_uint NilEmpty.string_of_uint];
    eexists _, _, _; (split; [reflexivity|]);
    (split; [reflexivity|]); (split; [reflexivity|]);
    (split; [apply all_digits_uint|]);
    cbn [Pos.of_uint] in Hp; injection Hp as <-;
    apply number_of_uint.
Qed.

Lemma digits_nonneg z :
  0 <= z ->
  all_digits (string_of_Z z) = true
  /\ number_of (string_of_Z z) 0 = z
  /\ string_of_Z z <> "".
Proof.
  intros Hz. destruct z as [|q|q]; [now repeat split| |lia].
  destruct (digits_pos q) as (c & t & d & -> & D & _ & A & N).
  cbn [all_digits number_of]. rewrite D. repeat split; auto.
  discriminate.
Qed.

(** *** Number literals *)

Lemma with_exponent_none digits n2 rest :
  after_value rest = true ->
  with_exponent digits n2 rest
  = Some (decimal digits (- Z.of_nat n2), rest).
Proof.
  destruct rest as [|c rest]; [reflexivity|]. intros H.
  destruct (digit_of_after_value c rest H) as (_ & E & _).
  unfold with_exponent. now rewrite E.
Qed.

Lemma with_exponent_text digits n2 (negative : bool) e rest :
  0 <= e -> after_value rest = true ->
  with_exponent digits n2
    (String "e" ((if negative then "-" else "+") +s+ string_of_Z e +s+ rest))
  = Some (decimal digits ((if negative then - e else e) - Z.of_nat n2), rest).
Proof.
  intros He Hr. destruct (digits_nonneg e He) as (A & N & Hne).
  unfold with_exponent, read_exponent.
  cbn [Ascii.eqb Bool.eqb orb].
  destruct negative; cbn [String.append Ascii.eqb Bool.eqb];
    rewrite (read_digits_text _ _ _ _ A (after_value_no_digit _ Hr)), N;
    (destruct (string_of_Z e); [congruence|]);
    cbn [String.length Nat.add]; f_equal; f_equal; f_equal; lia.
Qed.

Lemma json_fraction_none int r :
  match r with
  | String c _ => Ascii.eqb c "." = false
  | EmptyString => True
  end ->
  json_fraction int r = Some (O, int, r).
Proof. destruct r as [|c r]; [reflexivity|]. cbn. now intros ->. Qed.

Lemma json_fraction_text int b r :
  all_digits b = true -> b <> "" -> no_digit_next r = true ->
  json_fraction int (String "." (b +s+ r))
  = Some (String.length b, number_of b int, r).
Proof.
  intros A Hne Hr. unfold json_fraction. cbn [Ascii.eqb Bool.eqb].
  rewrite (read_digits_text _ _ _ _ A Hr).
  destruct b; [congruence | reflexivity].
Qed.

Lemma parse_unsigned_head c t d r1 :
  digit_of c = Some d -> (d =? 0) = false ->
  all_digits t = true -> no_digit_next r1 = true ->
  parse_unsigned_number (String c (t +s+ r1))
  = match json_fraction (number_of t d) r1 with
    | Some (n2, digits, r2) => with_exponent digits n2 r2
    | None => None
    end.
Proof.
  intros D Z A Hr. unfold parse_unsigned_number. rewrite D, Z.
  now rewrite (read_digits_text _ _ _ _ A Hr).
Qed.

Lemma parse_unsigned_zero r1 :
  parse_unsigned_number (String "0" r1)
  = match json_fraction 0 r1 with
    | Some (n2, digits, r2) => with_exponent digits n2 r2
    | None => None
    end.
Proof. reflexivity. Qed.

Lemma after_value_no_point rest :
  after_value rest = true ->
  match rest with
  | String c _ => Ascii.eqb c "." = false
  | EmptyString => True
  end.
Proof.
  destruct rest as [|c rest]; [exact (fun _ => I)|]. intros H.
  now destruct (digit_of_after_value c rest H) as (_ & _ & E).
Qed.

(** The digits of an integer up to [2^53] make that integer; zeros at
    the end of the digits count as an exponent; and digits that make
    anything but 0 are not 0. *)
Lemma decimal_small z : 0 <= z <= two53 -> decimal z 0 = NInt z.
Proof.
  intros [H0 H1]. unfold decimal.
  destruct (z <=? 0) eqn:E; [apply Z.leb_le in E; f_equal; lia|].
  apply Z.leb_gt in E.
  assert (L : 0 <= Z.log2 z) by apply Z.log2_nonneg.
  replace (400 <? 0) with false by reflexivity.
  replace (0 <? -400 - Z.log2 z) with false by (symmetry; apply Z.ltb_ge; lia).
  cbn [Z.leb Z.compare]. rewrite Z.pow_0_r, Z.mul_1_r.
  unfold round_int. apply Z.leb_le in H1. now rewrite H1.
Qed.

Lemma decimal_zeros s j :
  0 < s -> 0 <= j <= 400 -> decimal (s * 10 ^ j) 0 = decimal s j.
Proof.
  intros Hs [H0 H1]. unfold decimal.
  assert (P : 0 < 10 ^ j) by (apply Z.pow_pos_nonneg; lia).
  assert (L1 : 0 <= Z.log2 (s * 10 ^ j)) by apply Z.log2_nonneg.
  assert (L2 : 0 <= Z.log2 s) by apply Z.log2_nonneg.
  replace (s * 10 ^ j <=? 0) with false by (symmetry; apply Z.leb_gt; nia).
  replace (s <=? 0) with false by (symmetry; apply Z.leb_gt; lia).
  replace (400 <? 0) with false by reflexivity.
  replace (400 <? j) with false by (symmetry; apply Z.ltb_ge; lia).
  replace (0 <? -400 - Z.log2 (s * 10 ^ j)) with false
    by (symmetry; apply Z.ltb_ge; lia).
  replace (j <? -400 - Z.log2 s) with false
    by (symmetry; apply Z.ltb_ge; lia).
  cbn [Z.leb Z.compare].
  replace (0 <=? j) with true by (symmetry; apply Z.leb_le; lia).
  now rewrite Z.pow_0_r, Z.mul_1_r.
Qed.

Lemma decimal_positive s p x : decimal s p = x -> x <> NInt 0 -> 0 < s.
Proof.
  unfold decimal. destruct (s <=? 0) eqn:E; [congruence|].
  intros _ _. now apply Z.leb_gt in E.
Qed.

(** What [format_digits] writes reads back as the number that the digits
    and the exponent make. *)
Lemma parse_format s p rest :
  0 < s -> after_value rest = true ->
  parse_unsigned_number (format_digits s p +s+ rest)
  = Some (decimal s p, rest).
Proof.
  intros Hs Hr. destruct s as [|q|q]; try lia.
  destruct (digits_pos q) as (c & t & d & E & D & Dz & A & N).
  pose proof (after_value_no_digit _ Hr) as Hn.
  pose proof (after_value_no_point _ Hr) as Hp.
  unfold format_digits. rewrite E. cbn [String.length].
  set (k := Z.of_nat (S (String.length t))).
  assert (Hk : k = Z.of_nat (String.length t) + 1) by lia.
  clearbody k.
  destruct ((k <=? p + k) && (p + k <=? 21)) eqn:C1.
  - (* the digits and zeros *)
    apply andb_true_iff in C1. destruct C1 as [C1 C2].
    apply Z.leb_le in C1, C2.
    cbn [String.append].
    rewrite (parse_unsigned_head c _ d rest D Dz);
      [|rewrite all_digits_app, A; apply all_digits_zeros | exact Hn].
    rewrite json_fraction_none by exact Hp.
    rewrite with_exponent_none by exact Hr.
    rewrite number_of_app, N, number_of_zeros by exact A.
    rewrite Z2Nat.id by lia. cbn [Z.of_nat Z.opp].
    replace (p + k - k) with p by lia.
    f_equal. f_equal. apply decimal_zeros; lia.
  - destruct ((0 <? p + k) && (p + k <=? 21)) eqn:C2.
    + (* a point inside the digits *)
      apply andb_true_iff in C2. destruct C2 as [C2 C3].
      apply Z.ltb_lt in C2. apply Z.leb_le in C3.
      assert (C4 : p + k < k).
      { apply andb_false_iff in C1. destruct C1 as [C1|C1].
        - now apply Z.leb_gt in C1.
        - apply Z.leb_gt in C1. lia. }
      destruct (Z.to_nat (p + k)) as [|n'] eqn:En; [lia|].
      cbn [substring_to substring_from String.append].
      rewrite append_assoc. cbn [String.append].
      destruct (all_digits_split n' t A) as [A1 A2].
      assert (L2 : String.length (substring_from n' t)
                   = (String.length t - n')%nat)
        by apply length_substring_from.
      rewrite (parse_unsigned_head c _ d (String "." _) D Dz A1 eq_refl).
      rewrite json_fraction_text;
        [|exact A2
         |intros H0; rewrite H0 in L2; cbn in L2; lia
         |exact Hn].
      rewrite with_exponent_none by exact Hr.
      rewrite <- number_of_app, substring_split, N by exact A1.
      f_equal. f_equal. f_equal. rewrite L2. lia.
    + destruct ((-6 <? p + k) && (p + k <=? 0)) eqn:C3.
      * (* zeros in front *)
        apply andb_true_iff in C3. destruct C3 as [C3 C4].
        apply Z.ltb_lt in C3. apply Z.leb_le in C4.
        cbn [String.append].
        rewrite parse_unsigned_zero.
        rewrite json_fraction_text;
          [|rewrite all_digits_app, all_digits_zeros; cbn [all_digits andb];
            now rewrite D
           |now destruct (zeros (Z.to_nat (- (p + k))))
           |exact Hn].
        rewrite with_exponent_none by exact Hr.
        rewrite number_of_app, number_of_zeros by apply all_digits_zeros.
        cbn [number_of]. rewrite D.
        replace (0 * 10 ^ Z.of_nat (Z.to_nat (- (p + k))) * 10 + d)
          with d by lia.
        rewrite N. f_equal. f_equal. f_equal.
        rewrite length_append, length_zeros. cbn [String.length]. lia.
      * (* an exponent *)
        assert (He : 0 <= Z.abs (p + k - 1)) by lia.
        cbv zeta.
        destruct (k =? 1) eqn:K1.
        -- apply Z.eqb_eq in K1.
           assert (T : t = "") by (destruct t; [reflexivity | cbn in Hk; lia]).
           subst t. cbn [String.append].
           rewrite !append_assoc.
           change (String c (String "e" ?x))
             with (String c ("" +s+ String "e" x)).
           rewrite (parse_unsigned_head c "" d (String "e" _) D Dz eq_refl
                      eq_refl).
           rewrite json_fraction_none by reflexivity.
           rewrite ?append_assoc.
           rewrite (with_exponent_text _ _ (p + k - 1 <? 0)
                      (Z.abs (p + k - 1)) rest He Hr).
           cbn [number_of] in *. rewrite N. f_equal. f_equal. f_equal.
           destruct (p + k - 1 <? 0) eqn:S; [apply Z.ltb_lt in S|
                                            apply Z.ltb_ge in S]; lia.
        -- apply Z.eqb_neq in K1.
           cbn [substring_to substring_from String.append].
           rewrite !append_assoc. cbn [String.append].
           change (String c (String "." ?x))
             with (String c ("" +s+ String "." x)).
           rewrite (parse_unsigned_head c "" d (String "." _) D Dz eq_refl
                      eq_refl).
           cbn [number_of].
           rewrite json_fraction_text;
             [|exact A
              |intros H0; subst t; cbn in Hk; lia
              |reflexivity].
           rewrite ?append_assoc.
           rewrite (with_exponent_text _ _ (p + k - 1 <? 0)
                      (Z.abs (p + k - 1)) rest He Hr).
           rewrite N. f_equal. f_equal. f_equal.
           destruct (p + k - 1 <? 0) eqn:S; [apply Z.ltb_lt in S|
                                            apply Z.ltb_ge in S]; lia.
Qed.

(** *** The shortest digits *)

Lemma Num_eqb_eq a b : Num_eqb a b = true -> a = b.
Proof.
  destruct a as [x|[|s|m e]], b as [y|[|s'|m' e']]; cbn;
    try discriminate; intros H.
  - apply Z.eqb_eq in H. now subst.
  - reflexivity.
  - destruct s, s'; cbn in H; congruence.
  - apply andb_true_iff in H. destruct H as [H1 H2].
    apply Z.eqb_eq in H1. apply Pos.eqb_eq in H2. now subst.
Qed.

(** The decimal expansion of a double reads back as its absolute
    value. *)
Lemma is_double_exact x :
  is_double x = true ->
  finite x ->
  decimal (fst (exact_digits x)) (snd (exact_digits x)) = magnitude x.
Proof.
  unfold is_double.
  destruct x as [z|[|s|m e]]; try contradiction; intros H _;
    destruct (exact_digits _) as [s p]; now apply Num_eqb_eq.
Qed.

Lemma shortest_from_reads fuel a d x n k :
  is_double x = true ->
  finite x ->
  magnitude x = x ->
  decimal (fst (shortest_from fuel a d x n k))
          (snd (shortest_from fuel a d x n k)) = x.
Proof.
  intros Hd Hf Hm. revert k.
  induction fuel as [|fuel IH]; intros k.
  - cbn [shortest_from]. rewrite <- Hm at 3. now apply is_double_exact.
  - cbn [shortest_from]. cbv zeta.
    match goal with
    | |- context [normal_digits ?c (n - k)] =>
        destruct (normal_digits c (n - k)) as [s1 p1] eqn:E1
    end.
    destruct (Num_eqb (decimal s1 p1) x) eqn:R1;
      [now apply Num_eqb_eq|].
    match goal with
    | |- context [let '(s', p') := normal_digits ?c (n - k) in _] =>
        destruct (normal_digits c (n - k)) as [s2 p2] eqn:E2
    end.
    destruct (Num_eqb (decimal s2 p2) x) eqn:R2;
      [now apply Num_eqb_eq|].
    apply IH.
Qed.

Lemma shortest_reads x :
  is_double x = true ->
  finite x ->
  magnitude x = x ->
  decimal (fst (shortest x)) (snd (shortest x)) = x.
Proof.
  intros Hd Hf Hm. unfold shortest.
  destruct (match x with
            | NInt z => (z, 1)
            | NFloat (FFrac m e) => (m, 2 ^ Z.pos e)
            | NFloat _ => (0, 1)
            end) as [a d].
  now apply shortest_from_reads.
Qed.

Lemma is_double_magnitude x : is_double (magnitude x) = is_double x.
Proof.
  destruct x as [z|[|s|m e]]; try reflexivity; unfold is_double;
    cbn [magnitude exact_digits]; now rewrite Z.abs_idemp.
Qed.

Lemma magnitude_idem x : magnitude (magnitude x) = magnitude x.
Proof.
  destruct x as [z|[|s|m e]]; cbn [magnitude]; try reflexivity;
    now rewrite Z.abs_idemp.
Qed.

(** The integers up to [2^53] in absolute value are doubles. *)
Lemma strip_zeros_spec fuel z k :
  0 < z ->
  0 < fst (strip_zeros fuel z k)
  /\ k <= snd (strip_zeros fuel z k)
  /\ fst (strip_zeros fuel z k) * 10 ^ (snd (strip_zeros fuel z k) - k) = z.
Proof.
  revert z k. induction fuel as [|fuel IH]; intros z k Hz.
  - cbn. rewrite Z.sub_diag. cbn. lia.
  - cbn [strip_zeros].
    destruct ((z mod 10 =? 0) && negb (z =? 0)) eqn:E.
    + apply andb_true_iff in E. destruct E as [E _].
      apply Z.eqb_eq in E.
      assert (Hd : z = 10 * (z / 10))
        by (rewrite (Z.div_mod z 10) at 1 by lia; lia).
      destruct (IH (z / 10) (k + 1) ltac:(lia)) as (H1 & H2 & H3).
      split; [exact H1|]. split; [lia|].
      replace (snd (strip_zeros fuel (z / 10) (k + 1)) - k)
        with (Z.succ (snd (strip_zeros fuel (z / 10) (k + 1)) - (k + 1)))
        by lia.
      rewrite Z.pow_succ_r by lia. lia.
    + cbn. rewrite Z.sub_diag. cbn. lia.
Qed.

Lemma safe_integer_double z : Z.abs z <= two53 -> is_double (NInt z) = true.
Proof.
  intros H. unfold is_double, exact_digits, normal_digits, magnitude.
  destruct (Z.eq_dec z 0) as [->|Hz]; [reflexivity|].
  pose proof (strip_zeros_spec (Z.to_nat (Z.log2 (Z.abs z))) (Z.abs z) 0
                ltac:(lia)) as (H1 & H2 & H3).
  destruct (strip_zeros _ (Z.abs z) 0) as [s t]. cbn [fst snd] in *.
  rewrite Z.sub_0_r in H3. rewrite Z.add_0_l.
  assert (Ht : t <= 400).
  { destruct (Z.le_gt_cases t 400) as [L|L]; [exact L|].
    assert (10 ^ 17 <= 10 ^ t) by (apply Z.pow_le_mono_r; lia).
    assert (P : 10 ^ 17 <= Z.abs z) by nia.
    unfold two53 in H. change (10 ^ 17) with 100000000000000000 in P. lia. }
  rewrite <- (decimal_zeros s t) by lia.
  rewrite H3, decimal_small by lia.
  cbn [Num_eqb]. apply Z.eqb_refl.
Qed.

(** Some numbers that are doubles, with fractions, large and small, and
    one that is none. *)
Lemma some_doubles :
  is_double (NFloat (FFrac 5 1)) = true
  /\ is_double (NFloat (FFrac 3602879701896397 55)) = true
  /\ is_double (NInt (10 ^ 21)) = true
  /\ is_double (NInt (2 ^ 1024 - 2 ^ 971)) = true
  /\ is_double (NFloat (FFrac 1 1074)) = true
  /\ is_double (NInt (two53 + 1)) = false
  /\ is_double (NFloat (FFrac 1 1075)) = false.
Proof. repeat split; vm_compute; reflexivity. Qed.

(** Texts and numbers at some inputs: a fraction, an exponent, another
    base, white space, digits beyond the precision of a double, and the
    forms in which a number is written. *)
Lemma number_texts :
  StringToNumber "2.5" = NFloat (FFrac 5 1)
  /\ StringToNumber " 12 " = NInt 12
  /\ StringToNumber "1e3" = NInt 1000
  /\ StringToNumber "0x10" = NInt 16
  /\ StringToNumber "-.5" = NFloat (FFrac (-1) 1)
  /\ StringToNumber "Infinity" = NFloat (FInf false)
  /\ StringToNumber "abc" = NFloat FNaN
  /\ StringToNumber "12px" = NFloat FNaN
  /\ StringToNumber "9007199254740993" = NInt 9007199254740992
  /\ JSON_parse "[1e2]" = Some (VArr [VNum 100])
  /\ JSON_parse "[0.1]" = Some (VArr [VFloat (FFrac 3602879701896397 55)])
  /\ JSON_parse "[9007199254740993]" = Some (VArr [VNum 9007199254740992])
  /\ JSON_parse "[01]" = None
  /\ JSON_parse "[1.]" = None
  /\ JSON_stringify (VNum (10 ^ 21)) = Some "1e+21"
  /\ JSON_stringify (VNum (10 ^ 20)) = Some "100000000000000000000"
  /\ JSON_stringify (VFloat (FFrac 3602879701896397 55)) = Some "0.1"
  /\ JSON_stringify (VFloat (FFrac 1 1074)) = Some "5e-324"
  /\ JSON_stringify (VFloat FNaN) = Some "null"
  /\ ToString (VFloat (FFrac (-5) 1)) = "-2.5"
  /\ ToString (VNum (2 ^ 70)) = "1.1805916207174113e+21".
Proof. repeat split; vm_compute; reflexivity. Qed.

(** *** The text of a number *)

(** A literal without sign is a number literal, and so is one with a
    minus sign in front. *)
Lemma parse_number_unsigned t x rest :
  parse_unsigned_number t = Some (x, rest) ->
  parse_number t = Some (value_of x, rest)
  /\ parse_number (String "-" t) = Some (value_of (negate x), rest).
Proof.
  intros H. split.
  - destruct t as [|c r]; [discriminate|].
    unfold parse_number.
    destruct (Ascii.eqb c "-") eqn:E;
      [apply Ascii.eqb_eq in E; subst c; discriminate|].
    now rewrite H.
  - unfold parse_number. cbn [Ascii.eqb Bool.eqb]. now rewrite H.
Qed.

(** A text that starts with a digit or a minus sign is read as a number
    literal. *)
Lemma parse_value_is_number f c r :
  digit_of c <> None \/ c = "-"%char ->
  parse_value (S f) (String c r) = parse_number (String c r)
  /\ is_json_ws c = false /\ Ascii.eqb c "]" = false.
Proof.
  intros [H| ->]; [|repeat split; reflexivity].
  destruct c as [[] [] [] [] [] [] [] []];
    try (exfalso; apply H; reflexivity); repeat split; reflexivity.
Qed.

Lemma parse_unsigned_digit c r x rest :
  parse_unsigned_number (String c r) = Some (x, rest) -> digit_of c <> None.
Proof.
  unfold parse_unsigned_number. destruct (digit_of c); discriminate.
Qed.

(** The text of a double that is neither NaN nor infinite, followed by
    what may follow a value, reads back as the number. *)
Lemma parse_number_text x rest :
  is_double x = true ->
  finite x ->
  after_value rest = true ->
  exists c r,
    string_of_Num x +s+ rest = String c r
    /\ (digit_of c <> None \/ c = "-"%char)
    /\ parse_number (String c r) = Some (value_of x, rest).
Proof.
  intros Hd Hf Hr.
  assert (G : forall (negative : bool) s p y,
             0 < s -> decimal s p = y ->
             exists c r,
               (if negative then "-" else "") +s+ format_digits s p +s+ rest
               = String c r
               /\ (digit_of c <> None \/ c = "-"%char)
               /\ parse_number (String c r)
                  = Some (value_of (signed negative y), rest)).
  { intros negative s p y Hs Hy.
    pose proof (parse_format s p rest Hs Hr) as P. rewrite Hy in P.
    destruct (parse_number_unsigned _ _ _ P) as [P1 P2].
    destruct negative.
    - eexists _, _. split; [reflexivity|]. split; [now right|]. exact P2.
    - destruct (format_digits s p +s+ rest) as [|c r] eqn:T;
        [discriminate|].
      exists c, r. split; [reflexivity|].
      split; [left; exact (parse_unsigned_digit _ _ _ _ P) | exact P1]. }
  assert (Hs : forall y, magnitude x = y -> y <> NInt 0 ->
                         0 < fst (shortest y)
                         /\ decimal (fst (shortest y)) (snd (shortest y)) = y).
  { intros y <- Hy.
    assert (R : decimal (fst (shortest (magnitude x)))
                  (snd (shortest (magnitude x))) = magnitude x).
    { apply shortest_reads.
      - now rewrite is_double_magnitude.
      - now destruct x as [z|[|s|m e]].
      - apply magnitude_idem. }
    split; [exact (decimal_positive _ _ _ R Hy) | exact R]. }
  destruct x as [z|[|s|m e]]; try contradiction.
  - (* an integer *)
    cbn [string_of_Num].
    destruct (Z.abs z <=? two53) eqn:B.
    + apply Z.leb_le in B. destruct z as [|q|q].
      * exists "0"%char, rest. split; [reflexivity|].
        split; [left; discriminate|].
        unfold parse_number. cbn [Ascii.eqb Bool.eqb].
        rewrite parse_unsigned_zero.
        rewrite json_fraction_none by now apply after_value_no_point.
        now rewrite with_exponent_none.
      * destruct (digits_pos q) as (c & t & d & E & D & Dz & A & N).
        rewrite E. cbn [String.append].
        exists c, (t +s+ rest). split; [reflexivity|].
        split; [left; congruence|].
        assert (P : parse_unsigned_number (String c (t +s+ rest))
                    = Some (NInt (Z.pos q), rest)).
        { rewrite (parse_unsigned_head c t d rest D Dz A
                     (after_value_no_digit _ Hr)).
          rewrite json_fraction_none by now apply after_value_no_point.
          rewrite with_exponent_none by exact Hr.
          rewrite N. cbn [Z.of_nat Z.opp].
          rewrite decimal_small; [reflexivity|]. cbn [Z.abs] in B. lia. }
        exact (proj1 (parse_number_unsigned _ _ _ P)).
      * destruct (digits_pos q) as (c & t & d & E & D & Dz & A & N).
        unfold string_of_Z in *. cbn [Z.to_int NilZero.string_of_int] in *.
        rewrite E. cbn [String.append].
        eexists _, _. split; [reflexivity|]. split; [now right|].
        assert (P : parse_unsigned_number (String c (t +s+ rest))
                    = Some (NInt (Z.pos q), rest)).
        { rewrite (parse_unsigned_head c t d rest D Dz A
                     (after_value_no_digit _ Hr)).
          rewrite json_fraction_none by now apply after_value_no_point.
          rewrite with_exponent_none by exact Hr.
          rewrite N. cbn [Z.of_nat Z.opp].
          rewrite decimal_small; [reflexivity|]. cbn [Z.abs] in B. lia. }
        exact (proj2 (parse_number_unsigned _ _ _ P)).
    + apply Z.leb_gt in B.
      destruct (Hs (NInt (Z.abs z)) eq_refl) as [S R].
      { intros H. injection H as H. unfold two53 in B. lia. }
      cbn [magnitude].
      destruct (shortest (NInt (Z.abs z))) as [s p]. cbn [fst snd] in S, R.
      rewrite append_assoc.
      destruct (G (z <? 0) s p _ S R) as (c & r & E & F & P).
      exists c, r. split; [exact E|]. split; [exact F|].
      rewrite P. f_equal. f_equal. unfold signed.
      destruct (z <? 0) eqn:N; [apply Z.ltb_lt in N | apply Z.ltb_ge in N];
        cbn [negate value_of]; f_equal; lia.
  - (* a fraction *)
    cbn [string_of_Num].
    destruct (Hs (NFloat (FFrac (Z.abs m) e)) eq_refl) as [S R];
      [discriminate|].
    cbn [magnitude].
    destruct (shortest (NFloat (FFrac (Z.abs m) e))) as [s' p].
    cbn [fst snd] in S, R.
    rewrite append_assoc.
    destruct (G (m <? 0) s' p _ S R) as (c & r & E & F & P).
    exists c, r. split; [exact E|]. split; [exact F|].
    rewrite P. f_equal. f_equal. unfold signed.
    destruct (m <? 0) eqn:N; [apply Z.ltb_lt in N | apply Z.ltb_ge in N];
      cbn [negate value_of]; f_equal; f_equal; lia.
Qed.

(** *** One step of the parser *)

Lemma parse_value_open_bracket f c r :
  is_json_ws c = false -> Ascii.eqb c "]" = false ->
  parse_value (S f) (String "[" (String c r)) = parse_elems f (String c r) [].
Proof. intros W B. simpl. now rewrite W, B. Qed.

Lemma parse_value_open_brace f body :
  parse_value (S f) (String "{" (String dquote body))
  = parse_members f (String dquote body) [].
Proof. reflexivity. Qed.

Lemma parse_value_literal f body t rest :
  parse_string_body body = Some (t, rest) ->
  parse_value (S f) (String dquote body) = Some (VStr t, rest).
Proof. intros H. simpl. now rewrite H. Qed.

Lemma parse_elems_comma f s acc v r :
  parse_value f s = Some (v, String "," r) ->
  parse_elems (S f) s acc = parse_elems f r (acc ++ [v]).
Proof. intros H. simpl. now rewrite H. Qed.

Lemma parse_elems_close f s acc v r :
  parse_value f s = Some (v, String "]" r) ->
  parse_elems (S f) s acc = Some (VArr (acc ++ [v]), r).
Proof. intros H. simpl. now rewrite H. Qed.

Lemma parse_members_comma f body acc k v r2 r3 :
  parse_string_body body = Some (k, String ":" r2) ->
  parse_value f r2 = Some (v, String "," r3) ->
  parse_members (S f) (String dquote body) acc
  = parse_members f r3 (OMap.set k v acc).
Proof. intros H1 H2. simpl. rewrite H1. simpl. now rewrite H2. Qed.

Lemma parse_members_close f body acc k v r2 r3 :
  parse_string_body body = Some (k, String ":" r2) ->
  parse_value f r2 = Some (v, String "}" r3) ->
  parse_members (S f) (String dquote body) acc
  = Some (VObj (OMap.set k v acc), r3).
Proof. intros H1 H2. simpl. rewrite H1. simpl. now rewrite H2. Qed.

(** *** The text of a value *)

Lemma join_cons sep a b r :
  join sep (a :: b :: r) = a +s+ sep +s+ join sep (b :: r).
Proof. reflexivity. Qed.

Lemma json_value_arr l : json_value (VArr l) <-> Forall json_value l.
Proof.
  induction l as [|x l IH].
  - split; [constructor | intros _; exact I].
  - split.
    + intros [Hx Hl]. constructor; [exact Hx | now apply IH].
    + intros H. inversion H; subst. split; [assumption | now apply IH].
Qed.

Lemma json_value_obj l :
  json_value (VObj l)
  <-> NoDup (map fst l) /\ Forall (fun e => json_value (snd e)) l.
Proof.
  assert (G : forall l : list (string * JsValue),
             (fix all (l : list (string * JsValue)) : Prop :=
                match l with
                | [] => True
                | (_, x) :: r => json_value x /\ all r
                end) l
             <-> Forall (fun e => json_value (snd e)) l).
  { clear l. induction l as [|[k x] l IH].
    - split; [constructor | intros _; exact I].
    - split.
      + intros [Hx Hl]. constructor; [exact Hx | now apply IH].
      + intros H. inversion H; subst. split; [assumption | now apply IH]. }
  split; intros [H1 H2]; (split; [exact H1 | now apply G]).
Qed.

Lemma stringify_arr l :
  JSON_stringify (VArr l)
  = Some ("[" +s+ join "," (map json_text l) +s+ "]").
Proof. reflexivity. Qed.

Lemma stringify_obj l :
  JSON_stringify (VObj l)
  = Some ("{" +s+ join "," (members_text l) +s+ "}").
Proof. reflexivity. Qed.

(** A value of the kind has a JSON text. *)
Lemma stringify_json_value v :
  json_value v -> JSON_stringify v = Some (json_text v).
Proof.
  unfold json_text. destruct v as [| |[]|z|s|l|l|[|n|m e]]; try reflexivity;
    contradiction.
Qed.

Lemma members_text_all l :
  Forall (fun e => json_value (snd e)) l ->
  members_text l
  = map (fun e => quote (fst e) +s+ ":" +s+ json_text (snd e)) l.
Proof.
  induction 1 as [|[k x] l Hx _ IH]; [reflexivity|].
  cbn [members_text map fst snd].
  rewrite (stringify_json_value x Hx), IH. reflexivity.
Qed.

(** The JSON text of a number is its text. *)
Lemma number_value x :
  finite x ->
  json_value (value_of x) ->
  is_double x = true /\ json_text (value_of x) = string_of_Num x.
Proof. destruct x as [z|[|s|m e]]; try contradiction; now split. Qed.

(** The text of a value starts with a character that is neither white
    space nor a closing bracket. *)
Lemma json_text_head v :
  json_value v ->
  exists c r,
    json_text v = String c r
    /\ is_json_ws c = false /\ Ascii.eqb c "]" = false.
Proof.
  assert (G : forall x,
             finite x ->
             json_value (value_of x) ->
             exists c r,
               json_text (value_of x) = String c r
               /\ is_json_ws c = false /\ Ascii.eqb c "]" = false).
  { intros x Hf Hj. destruct (number_value x Hf Hj) as [Hd ->].
    destruct (parse_number_text x "" Hd Hf eq_refl) as (c & r & E & F & _).
    rewrite append_nil_r in E. exists c, r. split; [exact E|].
    exact (proj2 (parse_value_is_number O c r F)). }
  destruct v as [| |[]|z|s|l|l|[|n|m e]]; intros H;
    try contradiction;
    try (eexists _, _; split; [reflexivity|]; split; reflexivity).
  - exact (G (NInt z) I H).
  - exact (G (NFloat (FFrac m e)) I H).
Qed.

Lemma join_head sep a r tail :
  exists more, join sep (a :: r) +s+ tail = a +s+ more.
Proof.
  destruct r as [|b r].
  - now exists tail.
  - exists (sep +s+ join sep (b :: r) +s+ tail).
    now rewrite join_cons, !append_assoc.
Qed.

(** *** Lists and objects *)

Lemma parse_elems_texts l :
  Forall (fun x =>
            forall fuel rest,
              (2 * String.length (json_text x) <= fuel)%nat ->
              after_value rest = true ->
              parse_value fuel (json_text x +s+ rest) = Some (x, rest)) l ->
  l <> [] ->
  forall acc fuel rest,
    (2 * String.length (join "," (map json_text l) +s+ "]") <= fuel)%nat ->
    parse_elems fuel (join "," (map json_text l) +s+ String "]" rest) acc
    = Some (VArr (acc ++ l), rest).
Proof.
  induction 1 as [|x l Hx Hl IH]; [congruence|].
  intros _ acc fuel rest Hf.
  destruct fuel as [|f];
    [rewrite length_append in Hf; cbn [String.length] in Hf; lia|].
  destruct l as [|y l].
  - cbn [map join] in *.
    rewrite length_append in Hf. cbn [String.length] in Hf.
    apply parse_elems_close. apply Hx; [lia | reflexivity].
  - cbn [map] in *. rewrite join_cons in *.
    set (J := join "," (json_text y :: map json_text l)) in *.
    rewrite !length_append in Hf. cbn [String.length] in Hf.
    rewrite !append_assoc. cbn [String.append].
    rewrite (parse_elems_comma f _ acc x (J +s+ String "]" rest)).
    + rewrite (IH ltac:(discriminate) (acc ++ [x]) f rest).
      * now rewrite <- app_assoc.
      * rewrite length_append. cbn [String.length]. lia.
    + apply Hx; [lia | reflexivity].
Qed.

Lemma parse_members_texts l :
  Forall (fun e : string * JsValue =>
            forall fuel rest,
              (2 * String.length (json_text (snd e)) <= fuel)%nat ->
              after_value rest = true ->
              parse_value fuel (json_text (snd e) +s+ rest)
              = Some (snd e, rest)) l ->
  l <> [] ->
  forall acc fuel rest,
    NoDup (map fst acc ++ map fst l) ->
    (2 * String.length
           (join ","
              (map (fun e => quote (fst e) +s+ ":" +s+ json_text (snd e)) l)
            +s+ "}") <= fuel)%nat ->
    parse_members fuel
      (join ","
         (map (fun e => quote (fst e) +s+ ":" +s+ json_text (snd e)) l)
       +s+ String "}" rest) acc
    = Some (VObj (acc ++ l), rest).
Proof.
  induction 1 as [|[k v] l Hx Hl IH]; [congruence|].
  intros _ acc fuel rest Hnd Hf. cbn [fst snd] in Hx.
  destruct fuel as [|f];
    [rewrite length_append in Hf; cbn [String.length] in Hf; lia|].
  assert (Hset : OMap.set k v acc = acc ++ [(k, v)]).
  { apply QueryProperties.set_new. apply OMapFacts.get_None_keys.
    unfold OMap.keys. cbn [map fst] in Hnd.
    apply NoDup_remove_2 in Hnd. intros Hin. apply Hnd.
    apply in_or_app. now left. }
  destruct l as [|y l].
  - cbn [map join fst snd] in *.
    rewrite !length_append in Hf. cbn [String.length] in Hf.
    rewrite !append_assoc. cbn [String.append].
    destruct (parse_string_quote k
                (String ":" (json_text v +s+ String "}" rest)))
      as (body & E & Hb).
    rewrite E.
    rewrite (parse_members_close f body acc k v _ rest Hb);
      [now rewrite Hset|].
    apply Hx; [lia | reflexivity].
  - cbn [map fst snd] in *. rewrite join_cons in *.
    set (J := join "," (_ :: map _ l)) in *.
    rewrite !length_append in Hf. cbn [String.length] in Hf.
    rewrite !append_assoc. cbn [String.append].
    destruct (parse_string_quote k
                (String ":"
                   (json_text v +s+ String "," (J +s+ String "}" rest))))
      as (body & E & Hb).
    rewrite E.
    rewrite (parse_members_comma f body acc k v _ (J +s+ String "}" rest) Hb).
    + rewrite Hset. rewrite (IH ltac:(discriminate) (acc ++ [(k, v)]) f rest).
      * now rewrite <- app_assoc.
      * rewrite map_app, <- app_assoc. exact Hnd.
      * rewrite length_append. cbn [String.length]. lia.
    + apply Hx; [lia | reflexivity].
Qed.

(** *** Values *)

(** The JSON text of a value, followed by what may follow a value, reads
    back as the value and leaves what follows, with fuel of twice the
    length of the text. *)
Lemma parse_value_text v :
  json_value v ->
  forall fuel rest,
    (2 * String.length (json_text v) <= fuel)%nat ->
    after_value rest = true ->
    parse_value fuel (json_text v +s+ rest) = Some (v, rest).
Proof.
  assert (G : forall x,
             finite x ->
             json_value (value_of x) ->
             forall fuel rest,
               (2 * String.length (json_text (value_of x)) <= fuel)%nat ->
               after_value rest = true ->
               parse_value fuel (json_text (value_of x) +s+ rest)
               = Some (value_of x, rest)).
  { intros x Hf Hj fuel rest Hl Hr.
    destruct (json_text_head _ Hj) as (c0 & r0 & E0 & _).
    destruct fuel; [rewrite E0 in Hl; cbn [String.length] in Hl; lia|].
    destruct (number_value x Hf Hj) as [Hd ->].
    destruct (parse_number_text x rest Hd Hf Hr) as (c & r & E & F & P).
    rewrite E, <- P. exact (proj1 (parse_value_is_number fuel c r F)). }
  induction v as [| |b|z|s|l IH|l IH|x] using JsValue_nested_ind;
    intros Hj fuel rest Hf Hr.
  - contradiction.
  - destruct fuel; [cbn in Hf; lia|]. now destruct rest.
  - destruct fuel; [destruct b; cbn in Hf; lia|]. now destruct b, rest.
  - exact (G (NInt z) I Hj fuel rest Hf Hr).
  - destruct fuel; [cbn in Hf; lia|].
    change (json_text (VStr s)) with (quote s).
    destruct (parse_string_quote s rest) as (body & E & Hb).
    rewrite E. now apply parse_value_literal.
  - apply json_value_arr in Hj.
    assert (Hall : Forall (fun x =>
              forall fuel rest,
                (2 * String.length (json_text x) <= fuel)%nat ->
                after_value rest = true ->
                parse_value fuel (json_text x +s+ rest) = Some (x, rest)) l).
    { apply Forall_forall. intros x Hin.
      apply (proj1 (Forall_forall _ _) IH x Hin).
      apply (proj1 (Forall_forall _ _) Hj x Hin). }
    change (json_text (VArr l))
      with ("[" +s+ join "," (map json_text l) +s+ "]") in *.
    cbn [String.append] in *. cbn [String.length] in Hf.
    destruct fuel as [|f]; [lia|].
    destruct l as [|x l]; [reflexivity|].
    rewrite append_assoc. cbn [String.append].
    inversion Hj as [|? ? Hx _]; subst.
    destruct (json_text_head x Hx) as (c & r & E & W & B).
    destruct (join_head "," (json_text x) (map json_text l) (String "]" rest))
      as (more & Em).
    cbn [map] in *. set (J := join "," (json_text x :: map json_text l)) in *.
    assert (Eb : J +s+ String "]" rest = String c (r +s+ more))
      by (rewrite Em, E; reflexivity).
    rewrite Eb, (parse_value_open_bracket f c _ W B), <- Eb.
    apply (parse_elems_texts (x :: l) Hall ltac:(discriminate) [] f rest).
    cbn [map]. fold J. lia.
  - apply json_value_obj in Hj. destruct Hj as [Hnd Hj].
    assert (Hall : Forall (fun e : string * JsValue =>
              forall fuel rest,
                (2 * String.length (json_text (snd e)) <= fuel)%nat ->
                after_value rest = true ->
                parse_value fuel (json_text (snd e) +s+ rest)
                = Some (snd e, rest)) l).
    { apply Forall_forall. intros x Hin.
      apply (proj1 (Forall_forall _ _) IH x Hin).
      apply (proj1 (Forall_forall _ _) Hj x Hin). }
    change (json_text (VObj l))
      with ("{" +s+ join "," (members_text l) +s+ "}") in *.
    rewrite (members_text_all l Hj) in *.
    cbn [String.append] in *. cbn [String.length] in Hf.
    destruct fuel as [|f]; [lia|].
    destruct l as [|[k x] l]; [reflexivity|].
    rewrite append_assoc. cbn [String.append].
    destruct (join_head ","
                (quote k +s+ ":" +s+ json_text x)
                (map (fun e => quote (fst e) +s+ ":" +s+ json_text (snd e)) l)
                (String "}" rest))
      as (more & Em).
    cbn [map fst snd] in *.
    set (J := join "," (_ :: map _ l)) in *.
    assert (Eb : exists body, J +s+ String "}" rest = String dquote body)
      by (rewrite Em; unfold quote; cbn [String.append]; eauto).
    destruct Eb as (body & Eb).
    rewrite Eb, parse_value_open_brace, <- Eb.
    apply (parse_members_texts ((k, x) :: l) Hall ltac:(discriminate) []
             f rest).
    + exact Hnd.
    + change (2 * String.length (J +s+ "}") <= f)%nat. lia.
  - destruct x as [|n|m e]; try contradiction.
    exact (G (NFloat (FFrac m e)) I Hj fuel rest Hf Hr).
Qed.

(** [JSON.parse(JSON.stringify(v))] is [v]. *)
Lemma JSON_parse_stringify v :
  json_value v ->
  exists t, JSON_stringify v = Some t /\ JSON_parse t = Some v.
Proof.
  intros Hj. exists (json_text v). split; [now apply stringify_json_value|].
  unfold JSON_parse.
  rewrite <- (append_nil_r (json_text v)) at 2.
  rewrite (parse_value_text v Hj); [reflexivity | lia | reflexivity].
Qed.

End JsonFacts.

(* ------------------------------------------------------------------ *)
(** ** The index layer keeps the store well formed *)
(* ------------------------------------------------------------------ *)

Module IndexInvariant.
Import Js Bigtable Bigtable.Notations BlobIndex Aux BigtableFacts
  BlobIndexFacts StoreProperties.

Section Properties.
Context {Ext : Type}.
Variable Data : Type.
Variable blob_storeBlob :
  string -> Data -> JsValue -> obj -> Ext ->
  (Error + IndexedBlobMetadata) * Ext.
Variable blob_updateBlobMetadata :
  string -> obj -> Ext -> (Error + unit) * Ext.
Variable blob_getBlob :
  string -> Ext -> (Error + option (IndexedBlobMetadata * Data)) * Ext.
Variable blob_deleteBlob : string -> Ext -> (Error + bool) * Ext.
Variable blob_getStats : Ext -> (Error + BlobStats) * Ext.
Implicit Types (w : World Ext) (row : BigtableRow) (m : IndexedBlobMetadata).

Lemma store_ok_later w w' : later w w' -> store_ok w -> store_ok w'.
Proof. intros (Ht & _). now apply store_ok_tables. Qed.

Lemma store_ok_call_ext {A} (f : Ext -> (Error + A) * Ext) w :
  store_ok w -> store_ok (snd (call_ext f w)).
Proof.
  intros Hok. unfold call_ext. destruct (f (ext w)) as [r x].
  now apply (store_ok_tables w).
Qed.

Lemma store_ok_initializeIndexTable w :
  store_ok w -> store_ok (snd (initializeIndexTable w)).
Proof.
  intros Hok. unfold initializeIndexTable, try_catch, bind at 1.
  rewrite getTable_run.
  destruct (OMap.get BLOB_INDEX_TABLE (tables w)); [exact Hok|].
  unfold bind.
  pose proof (store_ok_createTable w BLOB_INDEX_TABLE
                ["metadata"; "index"; "content"] Hok) as H.
  now destruct (createTable BLOB_INDEX_TABLE ["metadata"; "index"; "content"] w)
    as [[e|t] w1].
Qed.

Lemma store_ok_indexBlobMetadata m w :
  store_ok w -> store_ok (snd (indexBlobMetadata m w)).
Proof.
  intros Hok.
  destruct (indexBlobMetadata_run m w) as (row & w1 & -> & Hl & _).
  destruct (upsertRow BLOB_INDEX_TABLE row w1) as [r w'] eqn:E.
  apply (store_ok_upsertRow _ _ _ _ _ (store_ok_later _ _ Hl Hok) E).
Qed.

Lemma store_ok_rowToIndexedMetadata row w :
  store_ok w -> store_ok (snd (rowToIndexedMetadata row w)).
Proof.
  intros Hok.
  destruct (rowToIndexedMetadata_run row w) as (m' & w' & -> & Hl & _).
  exact (store_ok_later _ _ Hl Hok).
Qed.

Lemma store_ok_searchBlobs query options w :
  store_ok w -> store_ok (snd (searchBlobs query options w)).
Proof.
  intros Hok. rewrite searchBlobs_run.
  destruct (OMap.get BLOB_INDEX_TABLE (tables w)) as [table|]; [|exact Hok].
  destruct (filter_rows query (scanned options table)) as [e|results];
    [exact Hok|].
  destruct (map_rows_run results w) as (ms & w' & -> & Hl & _).
  exact (store_ok_later _ _ Hl Hok).
Qed.

(** X27.  The index layer keeps the store well formed: on a well-formed
    store, each of its operations leaves a well-formed store, whether it
    returns or throws and whatever the blob store does. *)
Theorem index_keeps_store_ok w :
  store_ok w ->
  store_ok (snd (initializeIndexTable w))
  /\ (forall m, store_ok (snd (indexBlobMetadata m w)))
  /\ (forall key data contentType tags fields,
         store_ok (snd (storeBlob Data blob_storeBlob key data contentType
                          tags fields w)))
  /\ (forall query options, store_ok (snd (searchBlobs query options w)))
  /\ (forall key, store_ok (snd (getBlob Data blob_getBlob key w)))
  /\ (forall key, store_ok (snd (deleteBlob blob_deleteBlob key w)))
  /\ (forall key tags fields,
         store_ok (snd (updateIndexedMetadata blob_updateBlobMetadata key
                          tags fields w)))
  /\ store_ok (snd (getStats blob_getStats w)).
Proof.
  intros Hok.
  split; [now apply store_ok_initializeIndexTable|].
  split; [intros m; now apply store_ok_indexBlobMetadata|].
  split; [|split; [intros q o; now apply store_ok_searchBlobs|]].
  { intros key data contentType tags fields. unfold storeBlob, bind at 1.
    destruct (Z.of_nat (String.length key) >? MAX_KEY_SIZE); [exact Hok|].
    unfold ret at 1. unfold bind at 1.
    pose proof (store_ok_call_ext
                  (blob_storeBlob key data contentType tags) w Hok) as H1.
    destruct (call_ext (blob_storeBlob key data contentType tags) w)
      as [[e|bm] w1]; [exact H1|].
    unfold bind.
    match goal with
    | |- context [indexBlobMetadata ?im w1] =>
        pose proof (store_ok_indexBlobMetadata im w1 H1) as H2;
        destruct (indexBlobMetadata im w1) as [[e|[]] w2]; exact H2
    end. }
  split; [|split; [|split]].
  - intros key. unfold getBlob, bind at 1.
    pose proof (store_ok_call_ext (blob_getBlob key) w Hok) as H1.
    destruct (call_ext (blob_getBlob key) w) as [[e|[[bm data]|]] w1];
      try exact H1.
    unfold bind at 1, try_catch, bind at 1. rewrite getRow_run.
    destruct (OMap.get BLOB_INDEX_TABLE (tables w1)) as [table|];
      [|exact H1].
    destruct (OMap.get key (rows table)) as [row|]; [|exact H1].
    unfold bind.
    pose proof (store_ok_rowToIndexedMetadata row w1 H1) as H2.
    destruct (rowToIndexedMetadata row w1) as [[e|m'] w2]; exact H2.
  - intros key. unfold deleteBlob, try_catch, bind.
    pose proof (store_ok_deleteRow w BLOB_INDEX_TABLE key Hok) as H1.
    destruct (deleteRow BLOB_INDEX_TABLE key w) as [[e|b] w1]; [exact H1|].
    pose proof (store_ok_call_ext (blob_deleteBlob key) w1 H1) as H2.
    destruct (call_ext (blob_deleteBlob key) w1) as [[e|b'] w2]; exact H2.
  - intros key tags fields.
    unfold updateIndexedMetadata, try_catch, bind at 1. rewrite getRow_run.
    destruct (OMap.get BLOB_INDEX_TABLE (tables w)) as [table|];
      [|exact Hok].
    destruct (OMap.get key (rows table)) as [row|]; [|exact Hok].
    unfold bind at 1.
    pose proof (store_ok_rowToIndexedMetadata row w Hok) as H1.
    destruct (rowToIndexedMetadata row w) as [[e|existing] w1]; [exact H1|].
    unfold bind at 1.
    assert (H2 : store_ok
                   (snd (match tags with
                         | Some t => call_ext (blob_updateBlobMetadata key t)
                         | None => ret tt
                         end w1))).
    { destruct tags as [t|]; [now apply store_ok_call_ext | exact H1]. }
    destruct (match tags with
              | Some t => call_ext (blob_updateBlobMetadata key t)
              | None => ret tt
              end w1) as [[e|[]] w2]; [exact H2|].
    unfold bind.
    match goal with
    | |- context [indexBlobMetadata ?um w2] =>
        pose proof (store_ok_indexBlobMetadata um w2 H2) as H3;
        destruct (indexBlobMetadata um w2) as [[e|[]] w3]; exact H3
    end.
  - unfold getStats, bind at 1.
    pose proof (store_ok_call_ext blob_getStats w Hok) as H1.
    destruct (call_ext blob_getStats w) as [[e|bs] w1]; [exact H1|].
    unfold bind, try_catch. rewrite getTableStats_run.
    destruct (OMap.get BLOB_INDEX_TABLE (tables w1)) as [table|];
      [|exact H1].
    destruct (rows_size (OMap.values (rows table)) 0); exact H1.
Qed.

End Properties.

End IndexInvariant.

(* ------------------------------------------------------------------ *)
(** ** Lists and objects as indexed fields *)
(* ------------------------------------------------------------------ *)

Module StructuredFields.
Import Js Bigtable Bigtable.Notations BlobIndex Aux BigtableFacts
  BlobIndexFacts JsonFacts.

Lemma looks_like_json_list body :
  looks_like_json ("[" +s+ body +s+ "]") = true.
Proof.
  unfold looks_like_json.
  replace (endsWith "]" ("[" +s+ body +s+ "]")) with true
    by (rewrite <- append_assoc; now rewrite endsWith_append).
  unfold startsWith. cbn [String.append String.prefix].
  now rewrite QueryProperties.prefix_empty.
Qed.

Lemma looks_like_json_object body :
  looks_like_json ("{" +s+ body +s+ "}") = true.
Proof.
  unfold looks_like_json.
  replace (endsWith "}" ("{" +s+ body +s+ "}")) with true
    by (rewrite <- append_assoc; now rewrite endsWith_append).
  unfold startsWith. cbn [String.append String.prefix].
  now rewrite QueryProperties.prefix_empty.
Qed.

Lemma structured_back v :
  structured v = true -> json_value v -> parse_if_json (index_value v) = v.
Proof.
  intros Hs Hj.
  destruct (JSON_parse_stringify v Hj) as (t & Ht & Hp).
  assert (L : looks_like_json t = true).
  { destruct v as [| |b|z|s|l|l|x]; try discriminate Hs.
    - rewrite stringify_arr in Ht. injection Ht as <-.
      apply looks_like_json_list.
    - rewrite stringify_obj in Ht. injection Ht as <-.
      apply looks_like_json_object. }
  assert (E : index_value v = VStr t).
  { unfold index_value.
    destruct v as [| |b|z|s|l|l|x]; try discriminate Hs;
      cbn [typeof_object]; now rewrite Ht. }
  rewrite E. unfold parse_if_json. unfold looks_like_json in L.
  now rewrite L, Hp.
Qed.

Section Properties.
Context {Ext : Type}.
Implicit Types (w : World Ext) (row : BigtableRow) (m : IndexedBlobMetadata).

(** X28.  A list or an object as an indexed field comes back as it was.
    After [indexBlobMetadata] has stored the row of [m],
    [rowToIndexedMetadata] of that row returns, for every field of [m] other
    than [__proto__] that holds a list or an object made of null, booleans,
    numbers, texts, lists and objects, the value that [m] has, however deep
    it is nested. The numbers are the doubles other than NaN and the
    infinities, whole or not; every integer up to [2^53] in absolute value
    is one. A field named [__proto__] does not come back: the assignment
    under that name makes no property of the record. *)
Theorem structured_fields_roundtrip m fields w w' :
  indexedFields m = Some fields ->
  OMap.wf fields ->
  indexBlobMetadata m w = (inr tt, w') ->
  exists row m' w'' fields',
    getRow BLOB_INDEX_TABLE (key m) w' = (inr (Some row), w')
    /\ rowToIndexedMetadata row w' = (inr m', w'')
    /\ indexedFields m' = Some fields'
    /\ (forall f v, f <> "__proto__" ->
                    OMap.get f fields = Some v ->
                    structured v = true -> json_value v ->
                    OMap.get f fields' = Some v)
    /\ OMap.get "__proto__" fields' = None
    /\ (forall z, Z.abs z <= two53 -> json_value (VNum z)).
Proof.
  intros Hf Hwf Hrun.
  destruct (getRow_after_index m w w' Hrun) as (row & Hget & _ & Hvals).
  destruct (rowToIndexedMetadata_run row w') as (m' & w'' & R & _ & K & F).
  destruct (BlobIndexClaims.reconstructed_fields m row fields m' Hvals Hf Hwf
              (conj K F)) as (fields' & F' & G).
  exists row, m', w'', fields'. split; [exact Hget|]. split; [exact R|].
  split; [exact F'|]. split; [|split].
  - intros f v Hp Hv Hs Hj. rewrite G, Hv. cbn [option_map].
    apply String.eqb_neq in Hp. rewrite Hp.
    now rewrite structured_back.
  - rewrite G. reflexivity.
  - intros z Hz. now apply safe_integer_double.
Qed.

End Properties.

End StructuredFields.

(* ------------------------------------------------------------------ *)
(** ** What a query returns; a stored blob *)
(* ------------------------------------------------------------------ *)

Module QuerySound.
Import Js Bigtable Bigtable.Notations Aux BigtableFacts StoreProperties.

Lemma query_loop_sound q (all entries : list (string * BigtableRow)) acc :
  incl entries all ->
  Forall (fun r =>
            exists k stored,
              In (k, stored) all /\ skipped_by_key q k = false
              /\ r = answer_for q stored
              /\ (projects q = true -> columns r <> [])) acc ->
  Forall (fun r =>
            exists k stored,
              In (k, stored) all /\ skipped_by_key q k = false
              /\ r = answer_for q stored
              /\ (projects q = true -> columns r <> []))
    (query_loop q entries acc).
Proof.
  revert acc. induction entries as [|[k row] rest IH]; intros acc Hin Hacc;
    [exact Hacc|].
  assert (Hrest : incl rest all) by (intros x Hx; apply Hin; now right).
  cbn [query_loop].
  destruct (skipped_by_key q k) eqn:Hk; [now apply IH|].
  fold (projects q).
  assert (Hnew :
    Forall (fun r =>
              exists k stored,
                In (k, stored) all /\ skipped_by_key q k = false
                /\ r = answer_for q stored
                /\ (projects q = true -> columns r <> []))
      (if projects q
       then if OMap.size (columns (filterRowColumns row q)) >? 0
            then acc ++ [filterRowColumns row q] else acc
       else acc ++ [row])).
  { destruct (projects q) eqn:Hp.
    - destruct (OMap.size (columns (filterRowColumns row q)) >? 0) eqn:Hs;
        [|exact Hacc].
      apply Forall_app. split; [exact Hacc|]. constructor; [|constructor].
      exists k, row. split; [apply Hin; now left|]. split; [exact Hk|].
      unfold answer_for. rewrite Hp. split; [reflexivity|].
      intros _ E. rewrite E in Hs. discriminate.
    - apply Forall_app. split; [exact Hacc|]. constructor; [|constructor].
      exists k, row. split; [apply Hin; now left|]. split; [exact Hk|].
      unfold answer_for. rewrite Hp. split; [reflexivity | discriminate]. }
  match goal with
  | |- Forall _ (if limit_reached q ?r then _ else _) =>
      destruct (limit_reached q r); [exact Hnew | now apply IH]
  end.
Qed.

Section Properties.
Context {Ext : Type}.
Implicit Types (w : World Ext) (row : BigtableRow) (table : BigtableTable).

(** X29.  Every row that a query returns answers it. It comes from a row of
    the table whose key passes the prefix and the two bounds; without a
    projection it is that row, with one it is that row cut down to the
    selected columns, and has at least one column: rows of which no column
    is selected are left out. *)
Theorem query_sound w tableName table q l w' :
  OMap.get tableName (tables w) = Some table ->
  query tableName q w = (inr l, w') ->
  w' = w
  /\ forall r, In r l ->
       exists k stored,
         In (k, stored) (rows table)
         /\ skipped_by_key q k = false
         /\ r = answer_for q stored
         /\ (projects q = true -> columns r <> []).
Proof.
  intros Hget. rewrite query_run, Hget. intros [= <- <-].
  split; [reflexivity|]. apply Forall_forall.
  apply query_loop_sound; [apply incl_refl | constructor].
Qed.

End Properties.

End QuerySound.

Module StoredBlob.
Import Js Bigtable Bigtable.Notations BlobIndex Aux BigtableFacts
  BlobIndexFacts StoreProperties BlobOperations.

Section Properties.
Context {Ext : Type}.
Variable Data : Type.
Variable blob_storeBlob :
  string -> Data -> JsValue -> obj -> Ext ->
  (Error + IndexedBlobMetadata) * Ext.
Implicit Types (w : World Ext) (row : BigtableRow) (m : IndexedBlobMetadata).

(** X30.  [storeBlob] when all goes well. For a key of at most
    [MAX_KEY_SIZE] characters, a blob store that stores the blob, and an
    index table with the three families and room for the row, the call
    returns the metadata of the blob store with the supplied indexed fields.
    Afterwards the index has a row under the key that the blob store
    returned, and for each supplied field the column [index:<field>] of that
    row holds the value of the field, as JSON text for a list or an object.
    *)
Theorem storeBlob_success key data contentType tags fields w bm x table :
  Z.of_nat (String.length key) <= MAX_KEY_SIZE ->
  blob_storeBlob key data contentType tags (ext w) = (inr bm, x) ->
  OMap.get BLOB_INDEX_TABLE (tables w) = Some table ->
  index_table_ok table = true ->
  OMap.size (rows table) < MAX_TABLE_SIZE
  \/ OMap.has (BlobIndex.key bm) (rows table) = true ->
  OMap.wf fields ->
  exists w' row,
    storeBlob Data blob_storeBlob key data contentType tags fields w
    = (inr (indexed_as bm fields), w')
    /\ ext w' = x
    /\ getRow BLOB_INDEX_TABLE (BlobIndex.key bm) w' = (inr (Some row), w')
    /\ forall f,
         option_map Bigtable.value (OMap.get ("index:" +s+ f) (columns row))
         = option_map index_value (OMap.get f fields).
Proof.
  intros Hlen Hb Hget Hok Hroom Hwf. unfold storeBlob.
  assert (E : (Z.of_nat (String.length key) >? MAX_KEY_SIZE) = false).
  { destruct (Z.gtb_spec (Z.of_nat (String.length key)) MAX_KEY_SIZE);
      [lia | reflexivity]. }
  rewrite E. unfold bind at 1, ret at 1. unfold bind at 1.
  rewrite (call_ext_with (blob_storeBlob key data contentType tags) _ _ _ Hb).
  fold (indexed_as bm fields).
  destruct (indexBlobMetadata_success (indexed_as bm fields) (with_ext x w)
              table Hget Hok Hroom)
    as (row & w1 & ts & Hrun & (Ht & He & _) & Hkey & Hvals).
  unfold bind, ret. rewrite Hrun.
  exists (upserted w1 BLOB_INDEX_TABLE table row ts), (stored_row row ts).
  split; [reflexivity|]. split; [exact He|]. split.
  - change (BlobIndex.key bm) with (BlobIndex.key (indexed_as bm fields)).
    rewrite <- Hkey. apply getRow_upserted.
  - intros f. cbn [stored_row columns].
    rewrite <- get_values_of, Hvals.
    now rewrite (get_index_values (indexed_as bm fields) f Hwf).
Qed.

End Properties.

End StoredBlob.

(* ------------------------------------------------------------------ *)
(** ** The properties at concrete stores *)
(* ------------------------------------------------------------------ *)

Module Instances.
Import Js Bigtable Bigtable.Notations BlobIndex Aux Examples.

Ltac wf_solve :=
  unfold OMap.wf, OMap.keys; cbn;
  repeat (constructor; [cbn; intuition discriminate|]); constructor.

Lemma wf_tables_small : OMap.wf (tables w_small).
Proof. wf_solve. Qed.

Lemma wf_letters : OMap.wf (map keyed ["a"; "b"; "c"; "d"; "e"]).
Proof. wf_solve. Qed.

Lemma wf_two_columns : OMap.wf (columns row_bad_family).
Proof. wf_solve. Qed.

Lemma wf_team : OMap.wf (tags meta_round).
Proof. wf_solve. Qed.


Lemma wf_shape_field : OMap.wf [("shape", shape)].
Proof. wf_solve. Qed.

Lemma wf_rating_field : OMap.wf [("rating", VNum 5)].
Proof. wf_solve. Qed.

Lemma wf_new_team : OMap.wf (spread (Some [("team", VStr "y")])).
Proof. wf_solve. Qed.

Lemma json_value_shape : json_value shape.
Proof.
  apply JsonFacts.json_value_obj. split.
  - cbn. repeat (constructor; [cbn; intuition discriminate|]); constructor.
  - repeat constructor; cbn [snd json_value]; try (vm_compute; reflexivity).
Qed.

Lemma store_ok_boot : store_ok w_boot.
Proof. exact (StoreProperties.store_ok_defaults (mkWorld [] 1000 [] tt)). Qed.

Lemma store_ok_rated_2 : store_ok w_rated_2.
Proof.
  exact (IndexInvariant.store_ok_indexBlobMetadata (rated "a" 2) w_index
           (IndexInvariant.store_ok_initializeIndexTable w_boot store_ok_boot)).
Qed.

Lemma store_ok_rated_24 : store_ok w_rated_24.
Proof.
  exact (IndexInvariant.store_ok_indexBlobMetadata (rated "b" 4) w_rated_2
           store_ok_rated_2).
Qed.

Lemma missing_table_NotFound_witness :
  getRow "u" "r" w_small = (inl (NotFound "u"), w_small)
  /\ batchUpsert "u" [row_stamped] w_small = (inl (NotFound "u"), w_small)
  /\ batchGet "u" [] w_small = (inr [], w_small).
Proof.
  destruct (StoreProperties.missing_table_NotFound w_small "u" eq_refl)
    as (_ & G & _ & _ & _ & B & _ & _ & E).
  split; [apply G|]. split; [apply B | exact E].
Defined.

Lemma deleteTable_spec_witness :
  exists w',
    deleteTable "t" w_small = (inr true, w')
    /\ getTable "t" w' = (inl (NotFound "t"), w')
    /\ deleteTable "t" w' = (inr false, w').
Proof.
  destruct (StoreProperties.deleteTable_spec w_small "t" wf_tables_small)
    as (w' & D & G & _ & D2).
  exists w'. split; [exact D|]. split; [exact G | exact D2].
Defined.

Lemma deleteRow_spec_witness :
  exists w',
    deleteRow "t" "c" w_letters = (inr true, w')
    /\ getRow "t" "c" w' = (inr None, w')
    /\ getRow "t" "d" w' = (inr (Some (snd (keyed "d"))), w').
Proof.
  destruct (StoreProperties.deleteRow_spec w_letters "t"
              (mkTable "t" (map keyed ["a"; "b"; "c"; "d"; "e"]) ["f"]) "c"
              eq_refl wf_letters)
    as (w' & D & G & O & _).
  exists w'. split; [exact D|]. split; [exact G|].
  apply (O "d"). discriminate.
Defined.

Lemma deleteRow_absent_witness :
  deleteRow "t" "z" w_letters = (inr false, w_letters).
Proof.
  apply (StoreProperties.deleteRow_absent w_letters "t"
           (mkTable "t" (map keyed ["a"; "b"; "c"; "d"; "e"]) ["f"]) "z");
    reflexivity.
Defined.

Lemma batchUpsert_partial_witness :
  batchUpsert "t" [row_stamped; row_bad_family; row_unstamped] w_small
  = (inl (InvalidColumnFamily "g" "t"),
     upserted w_small "t" (mkTable "t" [] ["f"]) row_stamped 42).
Proof.
  apply (StoreProperties.batchUpsert_partial w_small "t" [row_stamped]
           row_bad_family [row_unstamped]
           (upserted w_small "t" (mkTable "t" [] ["f"]) row_stamped 42)
           (InvalidColumnFamily "g" "t")
           (upserted w_small "t" (mkTable "t" [] ["f"]) row_stamped 42));
    reflexivity.
Defined.

Lemma batchUpsert_last_witness :
  exists w' stored,
    batchUpsert "t" [row_stamped; row_unstamped] w_small = (inr tt, w')
    /\ getRow "t" "r" w' = (inr (Some stored), w')
    /\ columns stored = columns row_unstamped.
Proof.
  destruct (StoreProperties.batchUpsert_last w_small "t" [row_stamped]
              row_unstamped
              (snd (batchUpsert "t" [row_stamped; row_unstamped] w_small))
              eq_refl)
    as (stored & G & _ & C).
  eexists _, stored. split; [reflexivity|]. split; [exact G | exact C].
Defined.

Lemma batchGet_spec_witness :
  batchGet "t" ["a"; "z"; "c"] w_letters
  = (inr [Some (snd (keyed "a")); None; Some (snd (keyed "c"))], w_letters).
Proof.
  exact (StoreProperties.batchGet_spec w_letters "t"
           (mkTable "t" (map keyed ["a"; "b"; "c"; "d"; "e"]) ["f"])
           ["a"; "z"; "c"] eq_refl).
Defined.

Lemma upsertRow_frame_witness :
  exists table',
    OMap.get "t"
      (tables (upserted w_small "t" (mkTable "t" [] ["f"]) row_stamped 42))
    = Some table'
    /\ columnFamilies table' = ["f"]
    /\ OMap.keys (rows table') = ["r"].
Proof.
  destruct (StoreProperties.upsertRow_frame w_small "t" (mkTable "t" [] ["f"])
              row_stamped
              (upserted w_small "t" (mkTable "t" [] ["f"]) row_stamped 42)
              eq_refl eq_refl)
    as (_ & table' & G & F & _ & K).
  exists table'. split; [exact G|]. split; [exact F | exact K].
Defined.

Lemma query_prefix_witness :
  query "t" (prefix_query "c") w_letters
  = (inr [snd (keyed "c")], w_letters)
  /\ query "t" (prefix_query "") w_letters
     = (inr (map snd (map keyed ["a"; "b"; "c"; "d"; "e"])), w_letters).
Proof.
  exact (QueryProperties.query_prefix w_letters "t"
           (mkTable "t" (map keyed ["a"; "b"; "c"; "d"; "e"]) ["f"]) "c"
           eq_refl).
Defined.

Lemma query_limit_witness :
  exists all,
    query "t" (without_limit (limit_query 2)) w_letters = (inr all, w_letters)
    /\ query "t" (limit_query 2) w_letters = (inr (firstn 2 all), w_letters).
Proof.
  apply (proj1 (QueryProperties.query_limit w_letters "t"
                  (mkTable "t" (map keyed ["a"; "b"; "c"; "d"; "e"]) ["f"])
                  (limit_query 2) 2 eq_refl eq_refl)).
  reflexivity.
Defined.

Lemma filterRowColumns_spec_witness :
  rowKey (filterRowColumns row_bad_family (family_query ["g"])) = "r"
  /\ timestamp (filterRowColumns row_bad_family (family_query ["g"]))
     = Some 42
  /\ columns (filterRowColumns row_bad_family (family_query ["g"]))
     = [("g:b", cell_one)].
Proof.
  exact (QueryProperties.filterRowColumns_spec row_bad_family
           (family_query ["g"]) wf_two_columns).
Defined.

Lemma getTableStats_spec_witness :
  exists n,
    getTableStats "t" w_letters = (inr (mkStats 5 n), w_letters)
    /\ 40 <= n.
Proof.
  apply (proj2 (StatsProperties.getTableStats_spec w_letters "t"
                  (mkTable "t" (map keyed ["a"; "b"; "c"; "d"; "e"]) ["f"])
                  eq_refl)).
  reflexivity.
Defined.

Lemma metadata_roundtrip_witness :
  exists row m' w'',
    getRow BLOB_INDEX_TABLE "doc1" w_round = (inr (Some row), w_round)
    /\ rowToIndexedMetadata row w_round = (inr m', w'')
    /\ key m' = "doc1"
    /\ OMap.get "team" (tags m') = Some (VStr "x")
    /\ contentType m' = VStr "text/plain"
    /\ checksum m' = VStr ""
    /\ size m' = VNum 10.
Proof.
  destruct (IndexProperties.metadata_roundtrip meta_round w_index w_round
              wf_team eq_refl)
    as (row & m' & w'' & G & R & K & T & C & S & _ & Z & _).
  exists row, m', w''. split; [exact G|]. split; [exact R|].
  split; [exact K|]. split; [exact (T "team")|]. split; [exact C|].
  split; [exact S|]. exact (Z 10 eq_refl).
Defined.

Lemma keywords_column_witness :
  exists row,
    getRow BLOB_INDEX_TABLE "doc2" w_keywords = (inr (Some row), w_keywords)
    /\ option_map Bigtable.value (OMap.get "content:keywords" (columns row))
       = Some (VStr "red,blue").
Proof.
  exact (IndexProperties.keywords_column meta_keywords w_index w_keywords
           eq_refl).
Defined.


Lemma searchBlobs_results_witness :
  exists l w',
    searchBlobs rating_above_3 (mkOptions None) w_rated_246 = (inr l, w')
    /\ tables w' = tables w_rated_246
    /\ Z.of_nat (List.length l) <= 100.
Proof.
  eexists _, _. split; [reflexivity|].
  destruct (IndexOperations.searchBlobs_results rating_above_3
              (mkOptions None) w_rated_246 _ _ eq_refl)
    as (T & L & _).
  split; [exact T | exact L].
Defined.

Lemma searchBlobs_empty_query_witness :
  exists table ms w',
    OMap.get BLOB_INDEX_TABLE (tables w_rated_246) = Some table
    /\ searchBlobs [] (mkOptions None) w_rated_246 = (inr ms, w')
    /\ Forall2 reconstructs (scanned (mkOptions None) table) ms.
Proof.
  eexists. 
  assert (G : OMap.get BLOB_INDEX_TABLE (tables w_rated_246) = Some _)
    by reflexivity.
  destruct (IndexOperations.searchBlobs_empty_query (mkOptions None)
              w_rated_246 _ G)
    as (ms & w' & S & F).
  exists ms, w'. split; [exact G|]. split; [exact S | exact F].
Defined.

Lemma update_team_run :
  exists updated w',
    updateIndexedMetadata update_stub "b" (Some [("team", VStr "y")]) None
      w_rated_246
    = (inr (Some updated), w').
Proof. vm_compute. eexists _, _. reflexivity. Qed.

Lemma rated_246_table :
  exists table row,
    OMap.get BLOB_INDEX_TABLE (tables w_rated_246) = Some table
    /\ OMap.get "b" (rows table) = Some row.
Proof. vm_compute. eexists _, _. split; reflexivity. Qed.

Lemma updateIndexedMetadata_tags_witness :
  exists updated w',
    updateIndexedMetadata update_stub "b" (Some [("team", VStr "y")]) None
      w_rated_246
    = (inr (Some updated), w')
    /\ tags updated = [("team", VStr "y")].
Proof.
  destruct update_team_run as (updated & w' & E).
  destruct rated_246_table as (table & row & T & R).
  exists updated, w'. split; [exact E|].
  exact (proj1 (proj1 (proj2 (BlobOperations.updateIndexedMetadata_tags
                                update_stub "b" (Some [("team", VStr "y")])
                                None w_rated_246 table row T R))
                  updated w' wf_new_team E)).
Defined.

Lemma delete_a_run :
  deleteBlob delete_stub "a" w_rated_24
  = (inr true, snd (deleteBlob delete_stub "a" w_rated_24))
  /\ searchBlobs [] (mkOptions None)
       (snd (deleteBlob delete_stub "a" w_rated_24))
     = (inr [BlobIndex.mkMeta "b" (VStr "text/plain") (VNum 10) (VNum 900)
               (VStr "") [("team", VStr "x")] (Some [("rating", VNum 4)])],
        snd (deleteBlob delete_stub "a" w_rated_24)).
Proof. split; vm_compute; reflexivity. Qed.

Lemma deleteBlob_then_search_witness :
  exists w1 found w2,
    deleteBlob delete_stub "a" w_rated_24 = (inr true, w1)
    /\ searchBlobs [] (mkOptions None) w1 = (inr [found], w2)
    /\ key found = "b"
    /\ forall x, In x [found] -> key x <> "a".
Proof.
  destruct delete_a_run as [D S].
  eexists _, _, _. split; [exact D|]. split; [exact S|].
  split; [reflexivity|].
  exact (BlobOperations.deleteBlob_then_search delete_stub "a" w_rated_24 _
           _ _ [] (mkOptions None) _ _ store_ok_rated_24 eq_refl D S).
Defined.

Lemma index_keeps_store_ok_witness :
  store_ok w_index
  /\ store_ok (snd (deleteBlob delete_stub "a" w_boot)).
Proof.
  destruct (IndexInvariant.index_keeps_store_ok unit store_stub update_stub
              get_stub delete_stub stats_stub w_boot store_ok_boot)
    as (I & _ & _ & _ & _ & D & _).
  split; [exact I | exact (D "a")].
Defined.

Lemma structured_fields_roundtrip_witness :
  exists row m' w'' fields',
    getRow BLOB_INDEX_TABLE "doc3" w_nested = (inr (Some row), w_nested)
    /\ rowToIndexedMetadata row w_nested = (inr m', w'')
    /\ indexedFields m' = Some fields'
    /\ OMap.get "shape" fields' = Some shape.
Proof.
  destruct (StructuredFields.structured_fields_roundtrip meta_nested
              [("shape", shape)] w_index w_nested eq_refl wf_shape_field
              eq_refl)
    as (row & m' & w'' & fields' & G & R & F & S & _).
  exists row, m', w'', fields'. split; [exact G|]. split; [exact R|].
  split; [exact F|].
  apply S; [discriminate | reflexivity | reflexivity |].
  exact json_value_shape.
Defined.

Lemma query_sound_witness :
  exists l,
    query "t" (family_query ["f"]) w_letters = (inr l, w_letters)
    /\ forall r, In r l -> columns r <> [].
Proof.
  eexists. split; [reflexivity|]. intros r Hin.
  destruct (QuerySound.query_sound w_letters "t"
              (mkTable "t" (map keyed ["a"; "b"; "c"; "d"; "e"]) ["f"])
              (family_query ["f"]) _ _ eq_refl eq_refl)
    as (_ & H).
  destruct (H r Hin) as (k & stored & _ & _ & _ & N).
  apply N. reflexivity.
Defined.

Lemma storeBlob_success_witness :
  exists w' row,
    storeBlob unit store_stub "k" tt (VStr "text/plain") []
      [("rating", VNum 5)] w_index
    = (inr (meta_of_stored "k"), w')
    /\ getRow BLOB_INDEX_TABLE "k" w' = (inr (Some row), w')
    /\ option_map Bigtable.value (OMap.get "index:rating" (columns row))
       = Some (VNum 5).
Proof.
  edestruct (StoredBlob.storeBlob_success unit store_stub "k" tt
               (VStr "text/plain") [] [("rating", VNum 5)] w_index)
    as (w' & row & S & _ & G & F).
  - discriminate.
  - reflexivity.
  - reflexivity.
  - reflexivity.
  - left. reflexivity.
  - exact wf_rating_field.
  - exists w', row. split; [exact S|]. split; [exact G|].
    exact (F "rating").
Defined.

End Instances.
